(** * OpenJules backend: command guard, step executor, mission controller,
      sandbox driver, the hooks of the missions service and the choice of
      the AI provider, embedded from the TypeScript sources.

    Strings are JavaScript strings: sequences of UTF-16 code units, so
    [length] is [String.prototype.length].  Stores are tables (lists of
    rows), the driver's [Map]s are [gmap]s, and everything the backend asks
    of the outside world (the [RegExp] constructor on user patterns, the
    guard LLM, the container host) is an explicit argument. *)

From Stdlib Require Import ZArith NArith Ascii String.
From stdpp Require Import base list sorting gmap.

Open Scope N_scope.

(* ===================================================================== *)
(** * JavaScript strings *)
(* ===================================================================== *)

Module Js.

(** A JS string is a list of UTF-16 code units. *)
Abbreviation jsstring := (list N).

(** Literal ASCII text. *)
Definition str (s : string) : jsstring :=
  map N_of_ascii (list_ascii_of_string s).

Definition dq : N := 34.        (* the double quote *)
Definition nl : N := 10.        (* line feed *)
Definition ellipsis : N := 8230. (* U+2026, one code unit *)
Definition emdash : N := 8212.   (* U+2014, one code unit *)

Definition jseq (a b : jsstring) : bool := bool_decide (a = b).

(** ECMAScript WhiteSpace and LineTerminator code units: what [trim]
    strips and what [\s] matches. *)
Definition is_space (c : N) : bool :=
  (c =? 9) || (c =? 10) || (c =? 11) || (c =? 12) || (c =? 13) || (c =? 32)
  || (c =? 160) || (c =? 5760) || ((8192 <=? c) && (c <=? 8202))
  || (c =? 8232) || (c =? 8233) || (c =? 8239) || (c =? 8287)
  || (c =? 12288) || (c =? 65279).

(** LineTerminator: what [.] refuses. *)
Definition is_line_terminator (c : N) : bool :=
  (c =? 10) || (c =? 13) || (c =? 8232) || (c =? 8233).

(** [\w] without the unicode flag. *)
Definition is_word (c : N) : bool :=
  ((97 <=? c) && (c <=? 122)) || ((65 <=? c) && (c <=? 90))
  || ((48 <=? c) && (c <=? 57)) || (c =? 95).

Fixpoint trimStart (s : jsstring) : jsstring :=
  match s with
  | c :: s' => if is_space c then trimStart s' else s
  | [] => []
  end.

Definition trimEnd (s : jsstring) : jsstring := rev (trimStart (rev s)).

(** [String.prototype.trim]. *)
Definition trim (s : jsstring) : jsstring := trimEnd (trimStart s).

(** [s.split(sep)] for a one-unit separator: always at least one piece. *)
Fixpoint split (sep : N) (s : jsstring) : list jsstring :=
  match s with
  | [] => [[]]
  | c :: s' =>
      if c =? sep then [] :: split sep s'
      else match split sep s' with
           | l :: ls => (c :: l) :: ls
           | [] => [[c]]
           end
  end.

(** [pieces.join(sep)]. *)
Fixpoint join (sep : jsstring) (ls : list jsstring) : jsstring :=
  match ls with
  | [] => []
  | [l] => l
  | l :: ls' => l ++ sep ++ join sep ls'
  end.

Fixpoint startsWith (p s : jsstring) : bool :=
  match p, s with
  | [], _ => true
  | a :: p', b :: s' => (a =? b) && startsWith p' s'
  | _ :: _, [] => false
  end.

(** [s.includes(p)]. *)
Fixpoint includes (p s : jsstring) : bool :=
  startsWith p s ||
  match s with
  | [] => false
  | _ :: s' => includes p s'
  end.

(** [s.slice(0, n)] for [0 <= n]. *)
Definition slice0 (n : nat) (s : jsstring) : jsstring := take n s.

(** [s.slice(-n)] for [0 < n]: the last [n] code units. *)
Definition sliceLast (n : nat) (s : jsstring) : jsstring :=
  drop (length s - n)%nat s.

(** Decimal rendering of an integer, as template literals do. *)
Fixpoint digits (fuel : nat) (n : N) (acc : jsstring) : jsstring :=
  match fuel with
  | O => acc
  | S f =>
      let acc' := (48 + n mod 10) :: acc in
      if n <? 10 then acc' else digits f (n / 10) acc'
  end.

Definition showN (n : N) : jsstring := digits (S (N.to_nat (N.log2 n))) n [].

Definition showZ (z : Z) : jsstring :=
  if (z <? 0)%Z then 45 :: showN (Z.to_N (- z)) else showN (Z.to_N z).

Definition showBool (b : bool) : jsstring :=
  if b then str "true" else str "false".

(** [String.prototype.isWellFormed]: no lone surrogate.  Only such a
    string survives a trip through a store that keeps text as UTF-8: a
    lone surrogate comes back as U+FFFD. *)
Definition isHighSurrogate (c : N) : bool := (55296 <=? c) && (c <=? 56319).
Definition isLowSurrogate (c : N) : bool := (56320 <=? c) && (c <=? 57343).

Fixpoint wellFormed (s : jsstring) : bool :=
  match s with
  | [] => true
  | c :: rest =>
      if isHighSurrogate c then
        match rest with
        | d :: rest' => isLowSurrogate d && wellFormed rest'
        | [] => false
        end
      else negb (isLowSurrogate c) && wellFormed rest
  end.

End Js.

Import Js.

(* ===================================================================== *)
(** * Regular expressions: the fragment of ECMAScript the backend uses *)
(* ===================================================================== *)

Module Regex.

(** Pattern syntax.  [Cap] is capture group 1; the other parenthesised
    groups of the sources are never read back and appear as plain
    sub-patterns. *)
Inductive regex : Type :=
| Eps
| Chr (c : N)
| Cls (neg : bool) (ranges : list (N * N))
| Dot
| Space
| NotSpace
| Digit
| WordB
| Bol
| Eol
| Seq (r1 r2 : regex)
| Alt (r1 r2 : regex)
| Star (r : regex)
| NegLook (r : regex)
| Cap (r : regex).

Definition Plus (r : regex) : regex := Seq r (Star r).
Definition Opt (r : regex) : regex := Alt r Eps.
Definition seqs (rs : list regex) : regex := foldr Seq Eps rs.
Definition alts (rs : list regex) : regex :=
  match rs with
  | [] => Eps
  | r :: rs' => foldl Alt r rs'
  end.
Definition lit (s : string) : regex := seqs (map Chr (str s)).
Definition ch (s : string) : regex :=
  match str s with
  | c :: _ => Chr c
  | [] => Eps
  end.
Definition rng (a b : string) : N * N :=
  match str a, str b with
  | x :: _, y :: _ => (x, y)
  | _, _ => (1, 0)
  end.
Definition one (a : string) : N * N := rng a a.

(** Canonicalize of the [i] flag, on the code units that can meet an
    ASCII pattern: ASCII letters fold to upper case; a code unit of 128
    or more never canonicalises to an ASCII one. *)
Definition canon (ic : bool) (c : N) : N :=
  if ic && (97 <=? c) && (c <=? 122) then c - 32 else c.

Definition in_range (ic : bool) (c : N) (r : N * N) : bool :=
  let '(lo, hi) := r in
  let cc := canon ic c in
  ((lo <=? cc) && (cc <=? hi))
  || (ic && (65 <=? cc) && (cc <=? 90) && (lo <=? cc + 32) && (cc + 32 <=? hi)).

Definition in_class (ic : bool) (c : N) (rs : list (N * N)) : bool :=
  existsb (in_range ic c) rs.

(** Matcher state: the input left of the cursor (reversed), the input
    right of it, and capture 1. *)
Record mstate : Type := MState {
  m_prev : jsstring;
  m_rest : jsstring;
  m_cap : option jsstring
}.

Definition step1 (p : N -> bool) (st : mstate)
    (k : mstate -> option mstate) : option mstate :=
  match m_rest st with
  | c :: rest' =>
      if p c then k (MState (c :: m_prev st) rest' (m_cap st)) else None
  | [] => None
  end.

Definition at_word_boundary (st : mstate) : bool :=
  let a := match m_prev st with c :: _ => is_word c | [] => false end in
  let b := match m_rest st with c :: _ => is_word c | [] => false end in
  xorb a b.

(** Backtracking matcher in continuation-passing style: alternatives in
    source order, quantifiers greedy, an iteration of [*] that consumes
    nothing is refused (the RepeatMatcher empty check). *)
Fixpoint mt (ic : bool) (r : regex) (st : mstate)
    (k : mstate -> option mstate) {struct r} : option mstate :=
  match r with
  | Eps => k st
  | Chr c => step1 (fun x => canon ic x =? canon ic c) st k
  | Cls neg rs => step1 (fun x => xorb neg (in_class ic x rs)) st k
  | Dot => step1 (fun x => negb (is_line_terminator x)) st k
  | Space => step1 is_space st k
  | NotSpace => step1 (fun x => negb (is_space x)) st k
  | Digit => step1 (fun x => (48 <=? x) && (x <=? 57)) st k
  | WordB => if at_word_boundary st then k st else None
  | Bol => match m_prev st with [] => k st | _ :: _ => None end
  | Eol => match m_rest st with [] => k st | _ :: _ => None end
  | Seq r1 r2 => mt ic r1 st (fun st' => mt ic r2 st' k)
  | Alt r1 r2 =>
      match mt ic r1 st k with
      | Some e => Some e
      | None => mt ic r2 st k
      end
  | Star r' =>
      (fix loop (fuel : nat) (st0 : mstate) {struct fuel} : option mstate :=
         match fuel with
         | O => k st0
         | S f =>
             match mt ic r' st0 (fun st' =>
                     if (length (m_rest st') <? length (m_rest st0))%nat
                     then loop f st' else None) with
             | Some e => Some e
             | None => k st0
             end
         end) (length (m_rest st)) st
  | NegLook r' =>
      match mt ic r' st Some with
      | Some _ => None
      | None => k st
      end
  | Cap r' =>
      mt ic r' st (fun st' =>
        k (MState (m_prev st') (m_rest st')
             (Some (take (length (m_rest st) - length (m_rest st'))%nat
                      (m_rest st)))))
  end.

(** A compiled [RegExp] object without the [g] flag: [test], [exec] and
    [replace] keep no state between calls. *)
Record RegExp : Type := mkRegExp { source : regex; ignoreCase : bool }.

(** Leftmost match at or after the cursor: start and end states. *)
Fixpoint search (re : RegExp) (prev rest : jsstring) {struct rest}
    : option (mstate * mstate) :=
  let st := MState prev rest None in
  match mt (ignoreCase re) (source re) st Some with
  | Some e => Some (st, e)
  | None =>
      match rest with
      | [] => None
      | c :: rest' => search re (c :: prev) rest'
      end
  end.

(** [re.test(s)]. *)
Definition test (re : RegExp) (s : jsstring) : bool :=
  match search re [] s with Some _ => true | None => false end.

(** [s.match(re)[1]] when [s.match(re)] is not null. *)
Definition match1 (re : RegExp) (s : jsstring) : option (option jsstring) :=
  match search re [] s with
  | Some (_, e) => Some (m_cap e)
  | None => None
  end.

(** [s.replace(re, repl)] for a pattern without the [g] flag. *)
Definition replace (re : RegExp) (repl s : jsstring) : jsstring :=
  match search re [] s with
  | Some (b, e) => rev (m_prev b) ++ repl ++ m_rest e
  | None => s
  end.

(** [s.replace(re, repl)] for a pattern with the [g] flag: every match,
    left to right, restarting after an empty match one unit further. *)
Fixpoint replaceAll_from (re : RegExp) (repl : jsstring) (fuel : nat)
    (prev rest : jsstring) : jsstring :=
  match fuel with
  | O => rest
  | S f =>
      match search re prev rest with
      | None => rest
      | Some (b, e) =>
          let skipped := take (length rest - length (m_rest b))%nat rest in
          if (length (m_rest e) <? length (m_rest b))%nat then
            skipped ++ repl ++ replaceAll_from re repl f (m_prev e) (m_rest e)
          else
            match m_rest e with
            | [] => skipped ++ repl
            | c :: rest' =>
                skipped ++ repl ++ c ::
                  replaceAll_from re repl f (c :: m_prev e) rest'
            end
      end
  end.

Definition replaceAll (re : RegExp) (repl s : jsstring) : jsstring :=
  replaceAll_from re repl (S (length s)) [] s.

End Regex.

Import Regex.


(* ===================================================================== *)
(** * command-guard.ts *)
(* ===================================================================== *)

Module CommandGuard.

Record GuardVerdict : Type := mkVerdict {
  allowed : bool;
  reason : option jsstring;
  sanitised : jsstring;
  rule : option jsstring;
  promotedToBackground : option bool;
  suggestedReadyPattern : option jsstring
}.

(** The [execution.commandGuard] object as stored: every key optional. *)
Record CommandGuardSettings : Type := mkSettings {
  enabled : option bool;
  blockDestructive : option bool;
  blockHanging : option bool;
  blockNetworkExfil : option bool;
  blockPrivilegeEsc : option bool;
  blockShellInjection : option bool;
  customDenyPatterns : option (list jsstring);
  customAllowPatterns : option (list jsstring);
  aiReview : option bool
}.

(** [Required<CommandGuardSettings>]. *)
Record ResolvedSettings : Type := mkResolved {
  r_enabled : bool;
  r_blockDestructive : bool;
  r_blockHanging : bool;
  r_blockNetworkExfil : bool;
  r_blockPrivilegeEsc : bool;
  r_blockShellInjection : bool;
  r_customDenyPatterns : list jsstring;
  r_customAllowPatterns : list jsstring;
  r_aiReview : bool
}.

Inductive Category : Type :=
| BlockDestructive
| BlockHanging
| BlockNetworkExfil
| BlockPrivilegeEsc
| BlockShellInjection.

#[export] Instance Category_eq_dec : EqDecision Category.
Proof. solve_decision. Defined.

Definition category_eqb (a b : Category) : bool :=
  match a, b with
  | BlockDestructive, BlockDestructive
  | BlockHanging, BlockHanging
  | BlockNetworkExfil, BlockNetworkExfil
  | BlockPrivilegeEsc, BlockPrivilegeEsc
  | BlockShellInjection, BlockShellInjection => true
  | _, _ => false
  end.

Record DenyRule : Type := mkRule {
  id : jsstring;
  category : Category;
  pattern : RegExp;
  rule_reason : jsstring
}.

Definition az : regex := Cls false [rng "a" "z"; rng "A" "Z"].
Definition oct : regex := Cls false [rng "0" "7"].
Definition word (s : string) : regex := seqs [WordB; lit s; WordB].
Definition shells : regex := alts [lit "sh"; lit "bash"; lit "zsh"].
Definition shells_source : regex :=
  alts [lit "sh"; lit "bash"; lit "zsh"; lit "source"].
Definition start_dev_serve : regex := alts [lit "start"; lit "dev"; lit "serve"].
Definition rf_flags : regex := seqs [ch "-"; Star az; ch "r"; Star az; ch "f"].
Definition fr_flags : regex := seqs [ch "-"; Star az; ch "f"; Star az; ch "r"].
Definition force_recursive : regex :=
  seqs [lit "--force"; Plus Space; lit "--recursive"].
Definition not_pipe : regex := Cls true [one "|"].

Definition re_i (r : regex) : RegExp := mkRegExp r true.
Definition re_plain (r : regex) : RegExp := mkRegExp r false.

Definition DENY_RULES : list DenyRule := [
  (* Destructive *)
  mkRule (str "rm-rf-root") BlockDestructive
    (re_i (seqs [WordB; lit "rm"; Plus Space;
                 alts [rf_flags; force_recursive; fr_flags];
                 Plus Space;
                 alts [ch "/"; seqs [ch "~"; Opt (ch "/"); Space]; lit "../"]]))
    (str "Recursive forced delete targeting root, home, or parent directory");
  mkRule (str "rm-rf-wildcard") BlockDestructive
    (re_i (seqs [WordB; lit "rm"; Plus Space;
                 alts [rf_flags; force_recursive]; Plus Space; ch "*"]))
    (str "Recursive forced delete with glob wildcard");
  mkRule (str "mkfs") BlockDestructive
    (re_i (word "mkfs"))
    (str "Filesystem formatting command");
  mkRule (str "dd-of") BlockDestructive
    (re_i (seqs [word "dd"; Star Dot; WordB; lit "of=/dev/"]))
    (str "Low-level disk write via dd");
  mkRule (str "shred") BlockDestructive
    (re_i (word "shred"))
    (str "File shredding command");
  mkRule (str "wipefs") BlockDestructive
    (re_i (word "wipefs"))
    (str "Filesystem metadata wipe");
  (* Hanging / long-running *)
  mkRule (str "node-server-file") BlockHanging
    (re_i (seqs [WordB; lit "node"; Plus Space;
                 NegLook (seqs [Star Dot; lit "--eval"]);
                 NegLook (seqs [Star Dot; lit "-e"; WordB]);
                 Plus NotSpace; ch ".";
                 alts [lit "js"; lit "ts"; lit "mjs"; lit "cjs"]; WordB]))
    (str "Running a Node.js file directly often starts a long-running server. Use background=true with a readyPattern if intentional.");
  mkRule (str "npm-start") BlockHanging
    (re_i (seqs [WordB; lit "npm"; Plus Space; lit "start"; WordB]))
    (str "`npm start` typically starts a long-running server. Mark the step as background=true with an appropriate readyPattern.");
  mkRule (str "npm-run-dev") BlockHanging
    (re_i (seqs [WordB; lit "npm"; Plus Space; lit "run"; Plus Space;
                 alts [lit "dev"; lit "serve"; lit "watch"]; WordB]))
    (str "Dev/serve/watch scripts are long-running. Mark the step as background=true with a readyPattern.");
  mkRule (str "yarn-start-dev") BlockHanging
    (re_i (seqs [WordB; lit "yarn"; Plus Space; start_dev_serve; WordB]))
    (str "yarn start/dev/serve are long-running. Mark the step as background=true with a readyPattern.");
  mkRule (str "pnpm-start-dev") BlockHanging
    (re_i (seqs [WordB; lit "pnpm"; Plus Space; start_dev_serve; WordB]))
    (str "pnpm start/dev/serve are long-running. Mark the step as background=true with a readyPattern.");
  mkRule (str "python-server") BlockHanging
    (re_i (seqs [WordB; lit "python"; Opt (Cls false [one "2"; one "3"]);
                 Plus Space; Star Dot; WordB;
                 alts [lit "server"; lit "app";
                       seqs [lit "manage.py"; Plus Space; lit "runserver"]];
                 WordB]))
    (str "Python server command detected. Mark the step as background=true if intentional.");
  mkRule (str "tail-f") BlockHanging
    (re_i (seqs [WordB; lit "tail"; Plus Space;
                 alts [seqs [ch "-"; Star az; ch "f"]; lit "--follow"]; WordB]))
    (str "tail -f never terminates. Use `tail -n` to get last N lines instead.");
  mkRule (str "sleep-large") BlockHanging
    (re_i (seqs [WordB; lit "sleep"; Plus Space;
                 alts [seqs [Digit; Digit; Digit; Digit; Star Digit];
                       lit "infinity"]; WordB]))
    (str "Excessive sleep duration detected");
  mkRule (str "yes-pipe") BlockHanging
    (re_i (word "yes"))
    (str "`yes` produces infinite output and can exhaust resources");
  mkRule (str "cat-no-file") BlockHanging
    (re_i (seqs [Bol; Star Space; lit "cat"; Star Space; Eol]))
    (str "Bare `cat` reads from stdin and will hang indefinitely");
  (* Network exfiltration *)
  mkRule (str "curl-upload") BlockNetworkExfil
    (re_i (seqs [word "curl"; Star Dot;
                 alts [seqs [lit "-F"; WordB]; lit "--upload-file";
                       seqs [lit "-T"; WordB];
                       seqs [lit "--data"; Star Dot; ch "@"]]]))
    (str "curl with file upload detected " ++ emdash :: str " potential data exfiltration");
  mkRule (str "nc-listen") BlockNetworkExfil
    (re_i (seqs [WordB; alts [lit "nc"; lit "ncat"; lit "netcat"]; WordB;
                 Star Dot; alts [lit "-l"; lit "-e"; lit "-c"]]))
    (str "Netcat with listen/exec mode " ++ emdash :: str " potential reverse shell");
  mkRule (str "wget-post") BlockNetworkExfil
    (re_i (seqs [word "wget"; Star Dot; lit "--post"]))
    (str "wget with POST data " ++ emdash :: str " potential data exfiltration");
  mkRule (str "scp-rsync-ext") BlockNetworkExfil
    (re_i (seqs [WordB; alts [lit "scp"; lit "rsync"]; WordB; Star Dot; ch "@"]))
    (str "Remote copy commands targeting external hosts");
  (* Privilege escalation *)
  mkRule (str "sudo") BlockPrivilegeEsc
    (re_i (word "sudo"))
    (str "sudo " ++ emdash :: str " privilege escalation not allowed in sandbox");
  mkRule (str "su-root") BlockPrivilegeEsc
    (re_i (seqs [WordB; lit "su"; Plus Space; alts [lit "root"; ch "-"]; WordB]))
    (str "su to root " ++ emdash :: str " privilege escalation not allowed");
  mkRule (str "chmod-dangerous") BlockPrivilegeEsc
    (re_i (seqs [WordB; lit "chmod"; Plus Space;
                 alts [seqs [Star oct; ch "7"; oct; oct];
                       seqs [Star (Cls false [one "a"; one "u"; one "g"; one "o"]);
                             ch "+";
                             Star (Cls false [one "r"; one "w"; one "x";
                                              one "s"; one "t"]);
                             ch "s"]]]))
    (str "Dangerous chmod (world-writable or setuid/setgid)");
  mkRule (str "chown-root") BlockPrivilegeEsc
    (re_i (seqs [WordB; lit "chown"; Plus Space; alts [lit "root"; ch "0"]; WordB]))
    (str "chown to root " ++ emdash :: str " not allowed in sandbox");
  (* Shell injection *)
  mkRule (str "eval-exec") BlockShellInjection
    (re_i (seqs [WordB; lit "eval"; Space]))
    (str "eval can execute arbitrary injected code");
  mkRule (str "backtick-injection") BlockShellInjection
    (re_plain (seqs [ch "`"; Star (Cls true [one "`"]); ch "`"]))
    (str "Back-tick command substitution " ++ emdash :: str " use $() instead or avoid injection vectors");
  mkRule (str "fork-bomb") BlockShellInjection
    (re_plain (seqs [lit ":()"; Star Space; ch "{"; Star Space; lit ":|:&";
                     Star Space; ch "}"]))
    (str "Fork bomb detected");
  mkRule (str "base64-decode-pipe") BlockShellInjection
    (re_i (seqs [WordB; lit "base64"; Plus Space;
                 alts [lit "-d"; lit "--decode"]; WordB; Star Dot; ch "|";
                 Star Space; shells]))
    (str "base64-decoded payload piped to shell " ++ emdash :: str " obfuscated code execution");
  mkRule (str "curl-pipe-shell") BlockShellInjection
    (re_i (seqs [word "curl"; Star not_pipe; ch "|"; Star Space;
                 shells_source; WordB]))
    (str "Piping remote content directly to shell");
  mkRule (str "wget-pipe-shell") BlockShellInjection
    (re_i (seqs [word "wget"; Star not_pipe; ch "|"; Star Space;
                 shells_source; WordB]))
    (str "Piping remote download directly to shell")
].

Definition DEFAULT_GUARD_SETTINGS : ResolvedSettings :=
  mkResolved true true true true true true [] [] false.

(** [resolveGuardSettings]: the argument is the [commandGuard] object of
    the project's [execution] setting, [None] when the row, the value or
    the key is missing or the lookup throws. *)
Definition resolveGuardSettings (cg : option CommandGuardSettings)
    : ResolvedSettings :=
  match cg with
  | Some c =>
      mkResolved
        (default (r_enabled DEFAULT_GUARD_SETTINGS) (enabled c))
        (default (r_blockDestructive DEFAULT_GUARD_SETTINGS) (blockDestructive c))
        (default (r_blockHanging DEFAULT_GUARD_SETTINGS) (blockHanging c))
        (default (r_blockNetworkExfil DEFAULT_GUARD_SETTINGS) (blockNetworkExfil c))
        (default (r_blockPrivilegeEsc DEFAULT_GUARD_SETTINGS) (blockPrivilegeEsc c))
        (default (r_blockShellInjection DEFAULT_GUARD_SETTINGS) (blockShellInjection c))
        (default (r_customDenyPatterns DEFAULT_GUARD_SETTINGS) (customDenyPatterns c))
        (default (r_customAllowPatterns DEFAULT_GUARD_SETTINGS) (customAllowPatterns c))
        (default (r_aiReview DEFAULT_GUARD_SETTINGS) (aiReview c))
  | None => DEFAULT_GUARD_SETTINGS
  end.

(** [settings[rule.category]]. *)
Definition category_enabled (s : ResolvedSettings) (c : Category) : bool :=
  match c with
  | BlockDestructive => r_blockDestructive s
  | BlockHanging => r_blockHanging s
  | BlockNetworkExfil => r_blockNetworkExfil s
  | BlockPrivilegeEsc => r_blockPrivilegeEsc s
  | BlockShellInjection => r_blockShellInjection s
  end.

(** What the [try] block of [aiReviewCommand] can do: throw (provider
    lookup or chat failure, with [error?.message]), answer with an object
    that has a [safe] key (already coerced: [!!safe], [String(reason || '')]),
    or answer with anything else. *)
Inductive AiOutcome : Type :=
| AiThrows (message : option jsstring)
| AiObject (safe : bool) (reason : jsstring)
| AiUnparsed.

Definition aiReviewCommand (outcome : AiOutcome) : bool * jsstring :=
  match outcome with
  | AiObject safe reason => (safe, reason)
  | AiUnparsed =>
      (false, str "AI review response could not be parsed " ++ emdash ::
              str " blocking by default")
  | AiThrows message =>
      (true, str "AI review failed (" ++
             (match message with
              | Some (c :: m) => c :: m
              | _ => str "unknown error"
              end) ++ str ") " ++ emdash :: str " allowing by default")
  end.

Definition guessReadyPattern (command : jsstring) : jsstring :=
  if test (re_i (word "next")) command then str "ready on|started server"
  else if test (re_i (Alt (word "vite") (seqs [lit "vue-cli-service"; WordB])))
            command then str "ready in|Local:"
  else if test (re_i (word "nuxt")) command then str "Listening on|Nitro started"
  else if test (re_i (Alt (word "angular") (seqs [lit "ng"; Plus Space; lit "serve"])))
            command then str "compiled successfully|listening on"
  else if test (re_i (Alt (word "django")
                        (seqs [lit "manage.py"; Plus Space; lit "runserver"])))
            command then str "Starting development server"
  else if test (re_i (word "flask")) command then str "Running on"
  else if test (re_i (word "rails")) command then str "Listening on"
  else if test (re_i (seqs [word "tail"; Star Dot; lit "-f"])) command
       then str ".*"
  else str "listening on|ready|started|running".

Definition quote_class : regex := Cls false [(39, 39); (34, 34)].
Definition not_quote : regex := Cls true [(39, 39); (34, 34)].

(** The heredoc opener of [stripHeredocBodies]: two [<], an optional [-],
    [\s*], a single or double quote, one or more units that are neither
    quote (group 1), a quote, [\s*], end of input. *)
Definition heredoc_start : RegExp :=
  re_plain (seqs [lit "<<"; Opt (ch "-"); Star Space; quote_class;
                  Cap (Plus not_quote); quote_class; Star Space; Eol]).

(** The loop of [stripHeredocBodies]: the state is
    [insideQuotedHeredoc] with [heredocDelimiter] ([None] outside). *)
Fixpoint stripLines (inside : option jsstring) (lines : list jsstring)
    : list jsstring :=
  match lines with
  | [] => []
  | line :: rest =>
      match inside with
      | Some delim =>
          if jseq (trim line) delim then stripLines None rest
          else stripLines (Some delim) rest
      | None =>
          match match1 heredoc_start line with
          | Some (Some delim) => line :: stripLines (Some delim) rest
          | Some None => line :: stripLines (Some []) rest
          | None => line :: stripLines None rest
          end
      end
  end.

Definition stripHeredocBodies (cmd : jsstring) : jsstring :=
  join [nl] (stripLines None (split nl cmd)).

(** The two global patterns of [stripQuotedStrings]: a double quote, any
    run of (a unit other than double quote and backslash, or a backslash
    and one more unit), a double quote; and a single quote, units other
    than it, a single quote. *)
Definition double_quoted : RegExp :=
  re_plain (seqs [Chr 34;
                  Star (Alt (Cls true [(34, 34); (92, 92)]) (Seq (Chr 92) Dot));
                  Chr 34]).
Definition single_quoted : RegExp :=
  re_plain (seqs [Chr 39; Star (Cls true [(39, 39)]); Chr 39]).

Definition stripQuotedStrings (cmd : jsstring) : jsstring :=
  let result := replaceAll double_quoted [34; 34] cmd in
  replaceAll single_quoted [39; 39] result.

(** The verdict is a denial that names a built-in rule of category [c]. *)
Definition deniedBy (c : Category) (v : GuardVerdict) : bool :=
  negb (allowed v) &&
  match rule v with
  | Some rid =>
      existsb (fun r => category_eqb (category r) c && jseq (id r) rid)
              DENY_RULES
  | None => false
  end.

(** The rule table is laid out by category: six destructive rules, ten
    hanging rules, then the rest. *)
Definition destructive_block : list DenyRule := take 6 DENY_RULES.
Definition hanging_block : list DenyRule := take 10 (drop 6 DENY_RULES).
Definition remaining_block : list DenyRule := drop 16 DENY_RULES.

Section Guard.

(** [new RegExp(raw, 'i').test(text)] for a pattern source [raw] from
    the settings: the result of the test, [None] when the constructor
    throws. *)
Variable regExpTest : jsstring -> jsstring -> option bool.

(** What the guard-role provider does when asked about a command. *)
Variable guardModel : jsstring -> bool -> AiOutcome.

(** The same inside [try { ... } catch { }]: a throw skips the pattern. *)
Definition custom_test (raw text : jsstring) : bool :=
  default false (regExpTest raw text).

Definition textToCheck (c : Category) (trimmed : jsstring) : jsstring :=
  match c with
  | BlockShellInjection => stripHeredocBodies trimmed
  | BlockHanging => stripQuotedStrings (stripHeredocBodies trimmed)
  | _ => trimmed
  end.

(** The test of one iteration of the loop over [DENY_RULES]. *)
Definition rule_fires (s : ResolvedSettings) (isBackground : bool)
    (trimmed : jsstring) (r : DenyRule) : bool :=
  category_enabled s (category r)
  && negb (category_eqb (category r) BlockHanging && isBackground)
  && test (pattern r) (textToCheck (category r) trimmed).

Definition rule_verdict (trimmed : jsstring) (r : DenyRule) : GuardVerdict :=
  if category_eqb (category r) BlockHanging then
    mkVerdict true
      (Some (str "[" ++ id r ++ str "] Auto-promoted to background: "
               ++ rule_reason r))
      trimmed (Some (id r)) (Some true) (Some (guessReadyPattern trimmed))
  else
    mkVerdict false
      (Some (str "[" ++ id r ++ str "] " ++ rule_reason r))
      trimmed (Some (id r)) None None.

Definition guardCommand (cg : option CommandGuardSettings)
    (command : jsstring) (isBackground : bool) : GuardVerdict :=
  let settings := resolveGuardSettings cg in
  if negb (r_enabled settings) then
    mkVerdict true None command None None None
  else
    let trimmed := trim command in
    match find (fun raw => custom_test raw trimmed)
               (r_customAllowPatterns settings) with
    | Some raw =>
        mkVerdict true None trimmed (Some (str "allow:" ++ raw)) None None
    | None =>
        match find (rule_fires settings isBackground trimmed) DENY_RULES with
        | Some r => rule_verdict trimmed r
        | None =>
            match find (fun raw => custom_test raw trimmed)
                       (r_customDenyPatterns settings) with
            | Some raw =>
                mkVerdict false
                  (Some (str "[custom] Blocked by custom deny pattern: " ++ raw))
                  trimmed (Some (str "custom:" ++ raw)) None None
            | None =>
                if r_aiReview settings then
                  let review := aiReviewCommand (guardModel trimmed isBackground) in
                  if negb (fst review) then
                    mkVerdict false
                      (Some (str "[ai-review] " ++ snd review))
                      trimmed (Some (str "ai-review")) None None
                  else mkVerdict true None trimmed None None None
                else mkVerdict true None trimmed None None None
            end
        end
    end.

End Guard.

End CommandGuard.


(* ===================================================================== *)
(** * utils.ts *)
(* ===================================================================== *)

Module Utils.

(** A settled promise. *)
Inductive Settled (A : Type) : Type :=
| Resolved (value : A)
| Rejected (message : jsstring).
Arguments Resolved {A} value.
Arguments Rejected {A} message.

Definition truncate (text : jsstring) (maxLength : nat) : jsstring :=
  if (length text <=? maxLength)%nat then text
  else slice0 maxLength text ++ [ellipsis].

Section Retry.

Context {W A : Type}.

(** [sleep(ms)] on the caller's world. *)
Variable sleep : Z -> W -> W.

(** The [for (attempt = 0; attempt <= maxRetries; attempt += 1)] loop of
    [retryWithBackoff], entered at [attempt] with [left = maxRetries -
    attempt] iterations after this one. *)
Fixpoint retryLoop (fn : W -> Settled A * W) (baseDelayMs : Z)
    (attempt left : nat) (w : W) : Settled A * W :=
  match fn w with
  | (Resolved a, w') => (Resolved a, w')
  | (Rejected e, w') =>
      match left with
      | O => (Rejected e, w')
      | S left' =>
          retryLoop fn baseDelayMs (S attempt) left'
            (sleep (baseDelayMs * 2 ^ Z.of_nat attempt)%Z w')
      end
  end.

Definition retryWithBackoff (fn : W -> Settled A * W)
    (maxRetries : nat) (baseDelayMs : Z) : W -> Settled A * W :=
  retryLoop fn baseDelayMs 0 maxRetries.

End Retry.

End Utils.

(* ===================================================================== *)
(** * mission-worker.ts *)
(* ===================================================================== *)

Module MissionWorker.

Import Utils.

Definition DEFAULT_STEP_TIMEOUT_MS : Z := 5 * 60 * 1000.
Definition DEFAULT_MAX_RETRIES : Z := 2.
Definition STDOUT_TAIL_LENGTH : nat := 5000.
Definition STDERR_TAIL_LENGTH : nat := 3000.

Inductive MissionStatus : Type :=
| QUEUED
| PLANNING
| WAITING_PLAN_APPROVAL
| EXECUTING
| PAUSED
| WAITING_INPUT
| VALIDATING
| WAITING_REVIEW
| COMPLETED
| FAILED.

#[export] Instance MissionStatus_eq_dec : EqDecision MissionStatus.
Proof. solve_decision. Defined.

(** The [status] column of [mission_steps]. *)
Inductive StepStatus : Type :=
| STEP_PENDING
| STEP_IN_PROGRESS
| STEP_DONE
| STEP_FAILED
| STEP_BLOCKED.

#[export] Instance StepStatus_eq_dec : EqDecision StepStatus.
Proof. solve_decision. Defined.

Record Usage : Type := mkUsage { prompt : Z; completion : Z; total : Z }.

(** A row of the [missions] table, with the columns the controller's
    executing and planning stages read or write. *)
Record MissionRecord : Type := mkMission {
  mission_id : Z;
  mission_projectId : Z;
  goal : jsstring;
  mission_status : MissionStatus;
  latest_user_input : option jsstring;
  fail_reason : option jsstring;
  token_usage : list (jsstring * Usage)
}.

(** A row of the [mission_steps] table (audit columns left out).  Nullable
    columns are options; timestamps are clock readings in milliseconds. *)
Record StepRow : Type := mkStep {
  id : Z;
  projectId : Z;
  missionId : Z;
  order_index : Z;
  description : jsstring;
  command : option jsstring;
  status : StepStatus;
  result_summary : option jsstring;
  exit_code : option Z;
  retry_count : option Z;
  max_retries : option Z;
  retryable : option bool;
  timeout_ms : option Z;
  duration_ms : option Z;
  started_at : option Z;
  finished_at : option Z;
  stdout_tail : option jsstring;
  stderr_tail : option jsstring;
  background : option bool;
  ready_pattern : option jsstring
}.

(** One [key: value] entry of the data object given to
    [app.service('mission-steps').patch], or one assignment to a field of
    the in-memory step object. *)
Inductive StepAssign : Type :=
| Set_command (v : option jsstring)
| Set_status (v : StepStatus)
| Set_result_summary (v : jsstring)
| Set_exit_code (v : Z)
| Set_retry_count (v : Z)
| Set_duration_ms (v : Z)
| Set_started_at (v : Z)
| Set_finished_at (v : Z)
| Set_stdout_tail (v : jsstring)
| Set_stderr_tail (v : jsstring)
| Set_background (v : bool)
| Set_ready_pattern (v : option jsstring).

Definition assign (a : StepAssign) (r : StepRow) : StepRow :=
  match a with
  | Set_command v =>
      mkStep (id r) (projectId r) (missionId r) (order_index r)
        (description r) v (status r) (result_summary r)
        (exit_code r) (retry_count r) (max_retries r) (retryable r)
        (timeout_ms r) (duration_ms r) (started_at r)
        (finished_at r) (stdout_tail r) (stderr_tail r)
        (background r) (ready_pattern r)
  | Set_status v =>
      mkStep (id r) (projectId r) (missionId r) (order_index r)
        (description r) (command r) v (result_summary r)
        (exit_code r) (retry_count r) (max_retries r) (retryable r)
        (timeout_ms r) (duration_ms r) (started_at r)
        (finished_at r) (stdout_tail r) (stderr_tail r)
        (background r) (ready_pattern r)
  | Set_result_summary v =>
      mkStep (id r) (projectId r) (missionId r) (order_index r)
        (description r) (command r) (status r) (Some v)
        (exit_code r) (retry_count r) (max_retries r) (retryable r)
        (timeout_ms r) (duration_ms r) (started_at r)
        (finished_at r) (stdout_tail r) (stderr_tail r)
        (background r) (ready_pattern r)
  | Set_exit_code v =>
      mkStep (id r) (projectId r) (missionId r) (order_index r)
        (description r) (command r) (status r) (result_summary r)
        (Some v) (retry_count r) (max_retries r) (retryable r)
        (timeout_ms r) (duration_ms r) (started_at r)
        (finished_at r) (stdout_tail r) (stderr_tail r)
        (background r) (ready_pattern r)
  | Set_retry_count v =>
      mkStep (id r) (projectId r) (missionId r) (order_index r)
        (description r) (command r) (status r) (result_summary r)
        (exit_code r) (Some v) (max_retries r) (retryable r)
        (timeout_ms r) (duration_ms r) (started_at r)
        (finished_at r) (stdout_tail r) (stderr_tail r)
        (background r) (ready_pattern r)
  | Set_duration_ms v =>
      mkStep (id r) (projectId r) (missionId r) (order_index r)
        (description r) (command r) (status r) (result_summary r)
        (exit_code r) (retry_count r) (max_retries r) (retryable r)
        (timeout_ms r) (Some v) (started_at r) (finished_at r)
        (stdout_tail r) (stderr_tail r) (background r)
        (ready_pattern r)
  | Set_started_at v =>
      mkStep (id r) (projectId r) (missionId r) (order_index r)
        (description r) (command r) (status r) (result_summary r)
        (exit_code r) (retry_count r) (max_retries r) (retryable r)
        (timeout_ms r) (duration_ms r) (Some v) (finished_at r)
        (stdout_tail r) (stderr_tail r) (background r)
        (ready_pattern r)
  | Set_finished_at v =>
      mkStep (id r) (projectId r) (missionId r) (order_index r)
        (description r) (command r) (status r) (result_summary r)
        (exit_code r) (retry_count r) (max_retries r) (retryable r)
        (timeout_ms r) (duration_ms r) (started_at r) (Some v)
        (stdout_tail r) (stderr_tail r) (background r)
        (ready_pattern r)
  | Set_stdout_tail v =>
      mkStep (id r) (projectId r) (missionId r) (order_index r)
        (description r) (command r) (status r) (result_summary r)
        (exit_code r) (retry_count r) (max_retries r) (retryable r)
        (timeout_ms r) (duration_ms r) (started_at r)
        (finished_at r) (Some v) (stderr_tail r) (background r)
        (ready_pattern r)
  | Set_stderr_tail v =>
      mkStep (id r) (projectId r) (missionId r) (order_index r)
        (description r) (command r) (status r) (result_summary r)
        (exit_code r) (retry_count r) (max_retries r) (retryable r)
        (timeout_ms r) (duration_ms r) (started_at r)
        (finished_at r) (stdout_tail r) (Some v) (background r)
        (ready_pattern r)
  | Set_background v =>
      mkStep (id r) (projectId r) (missionId r) (order_index r)
        (description r) (command r) (status r) (result_summary r)
        (exit_code r) (retry_count r) (max_retries r) (retryable r)
        (timeout_ms r) (duration_ms r) (started_at r)
        (finished_at r) (stdout_tail r) (stderr_tail r) (Some v)
        (ready_pattern r)
  | Set_ready_pattern v =>
      mkStep (id r) (projectId r) (missionId r) (order_index r)
        (description r) (command r) (status r) (result_summary r)
        (exit_code r) (retry_count r) (max_retries r) (retryable r)
        (timeout_ms r) (duration_ms r) (started_at r)
        (finished_at r) (stdout_tail r) (stderr_tail r)
        (background r) v
  end.

Definition assigns (data : list StepAssign) (r : StepRow) : StepRow :=
  foldl (fun acc a => assign a acc) r data.

Inductive LogType : Type :=
| thought
| command_log
| tool_output
| error
| metric
| agent_question.

(** The [content] handed to the [mission-logs] service: a string, or the
    object of the [tool_output] entry before it is serialised. *)
Inductive LogContent : Type :=
| Text (s : jsstring)
| Output (exitCode durationMs : Z) (stdout stderr : jsstring).

Record LogRow : Type := mkLog {
  log_projectId : Z;
  log_missionId : Z;
  log_stepId : option Z;
  log_type : LogType;
  log_content : LogContent
}.

Record ExecutionResult : Type := mkExec {
  stdout : jsstring;
  stderr : jsstring;
  exitCode : Z
}.

(** What [executeStep] returns. *)
Record StepResult : Type := mkStepResult {
  res_exitCode : Z;
  res_stdout : jsstring;
  res_stderr : jsstring;
  res_durationMs : Z;
  retries : Z
}.

(** A request to the sandbox instance. *)
Inductive SandboxCall : Type :=
| Call_command (cmd : jsstring) (timeoutMs : option Z)
| Call_backgroundCommand (cmd readyPattern : jsstring) (timeoutMs : Z).

(** What the sandbox answers: the promise resolves or rejects, after
    [elapsed] milliseconds.  A request that never settles has no reply
    here, so every statement about the worker is about runs in which each
    awaited request settled; [SandboxDriver.command] shows that a request
    can outlive its timer. *)
Record SandboxReply : Type := mkReply {
  settled : Settled ExecutionResult;
  elapsed : N
}.

Record PlanStep : Type := mkPlanStep {
  plan_description : jsstring;
  plan_command : option jsstring;
  plan_timeoutMs : option Z;
  plan_retryable : option bool;
  plan_background : option bool;
  plan_readyPattern : option jsstring
}.

Record StepCommandContext : Type := mkContext {
  missionGoal : jsstring;
  stepDescription : jsstring;
  stepIndex : nat;
  totalSteps : nat;
  allStepDescriptions : list jsstring;
  previousStepsOutput : option jsstring;
  fileTree : jsstring;
  packageJson : jsstring;
  ctx_background : bool;
  ctx_readyPattern : option jsstring
}.

(** The world outside the controller: the [RegExp] constructor, the
    guard and coder models, and the sandbox instance, whose [n]-th request
    is answered by [sandbox n]. *)
Record Env : Type := mkEnv {
  regExpTest : jsstring -> jsstring -> option bool;
  guardModel : jsstring -> bool -> CommandGuard.AiOutcome;
  sandbox : nat -> SandboxCall -> SandboxReply;
  read_file : nat -> jsstring -> Settled jsstring;
  generateStepCommand : StepCommandContext -> Settled (jsstring * Usage)
}.

(** The store and the clock. *)
Record World : Type := mkWorld {
  missions : list MissionRecord;
  mission_steps : list StepRow;
  mission_logs : list LogRow;
  next_step_id : Z;
  commandGuard : gmap Z CommandGuard.CommandGuardSettings;
  now : Z;
  sandbox_calls : nat
}.

Definition set_missions (f : list MissionRecord -> list MissionRecord)
    (w : World) : World :=
  mkWorld (f (missions w)) (mission_steps w) (mission_logs w)
    (next_step_id w) (commandGuard w) (now w) (sandbox_calls w).

Definition set_steps (f : list StepRow -> list StepRow) (w : World) : World :=
  mkWorld (missions w) (f (mission_steps w)) (mission_logs w)
    (next_step_id w) (commandGuard w) (now w) (sandbox_calls w).

Definition set_next_step_id (n : Z) (w : World) : World :=
  mkWorld (missions w) (mission_steps w) (mission_logs w)
    n (commandGuard w) (now w) (sandbox_calls w).

Definition sleep (ms : Z) (w : World) : World :=
  mkWorld (missions w) (mission_steps w) (mission_logs w)
    (next_step_id w) (commandGuard w) (now w + Z.max 0 ms)%Z (sandbox_calls w).

Definition count_call (w : World) : World :=
  mkWorld (missions w) (mission_steps w) (mission_logs w)
    (next_step_id w) (commandGuard w) (now w) (S (sandbox_calls w)).

(** [createMissionLog]: the log table is append-only. *)
Definition createMissionLog (projectId missionId : Z) (stepId : option Z)
    (type : LogType) (content : LogContent) (w : World) : World :=
  mkWorld (missions w) (mission_steps w)
    (mission_logs w ++ [mkLog projectId missionId stepId type content])
    (next_step_id w) (commandGuard w) (now w) (sandbox_calls w).

(** [app.service('mission-steps').patch(id, data)] on a row that is in
    the table (the controller patches rows it has just read).  The row
    keeps the text it is given unit for unit; that is what the database
    does for a well-formed string, see [wellFormed]. *)
Definition patch_step (step_id : Z) (data : list StepAssign) (w : World)
    : World :=
  set_steps (map (fun r => if bool_decide (id r = step_id)
                           then assigns data r else r)) w.

(** [app.service('mission-steps').get(id)]. *)
Definition get_step (step_id : Z) (w : World) : option StepRow :=
  find (fun r => bool_decide (id r = step_id)) (mission_steps w).

(** [app.service('missions').get(id)]. *)
Definition get_mission (mid : Z) (w : World) : option MissionRecord :=
  find (fun m => bool_decide (mission_id m = mid)) (missions w).

Definition with_status (s : MissionStatus) (m : MissionRecord)
    : MissionRecord :=
  mkMission (mission_id m) (mission_projectId m) (goal m) s
    (latest_user_input m) (fail_reason m) (token_usage m).

Definition with_fail_reason (r : option jsstring) (m : MissionRecord)
    : MissionRecord :=
  mkMission (mission_id m) (mission_projectId m) (goal m) (mission_status m)
    (latest_user_input m) r (token_usage m).

Definition with_latest_user_input (i : option jsstring) (m : MissionRecord)
    : MissionRecord :=
  mkMission (mission_id m) (mission_projectId m) (goal m) (mission_status m)
    i (fail_reason m) (token_usage m).

Definition with_token_usage (u : list (jsstring * Usage)) (m : MissionRecord)
    : MissionRecord :=
  mkMission (mission_id m) (mission_projectId m) (goal m) (mission_status m)
    (latest_user_input m) (fail_reason m) u.

(** [app.service('missions').patch(id, data)], [data] as a row update. *)
Definition patch_mission (mid : Z) (f : MissionRecord -> MissionRecord)
    (w : World) : World :=
  set_missions (map (fun m => if bool_decide (mission_id m = mid)
                              then f m else m)) w.

(** [patchMissionStatus(app, missionId, status, extra)]. *)
Definition patchMissionStatus (mid : Z) (s : MissionStatus)
    (extra : MissionRecord -> MissionRecord) (w : World) : World :=
  patch_mission mid (fun m => extra (with_status s m)) w.


(** Two worlds with the same tables and settings (the clock and the
    sandbox request counter may differ). *)
Definition same_store (w w' : World) : Prop :=
  missions w' = missions w ∧ mission_steps w' = mission_steps w
  ∧ mission_logs w' = mission_logs w ∧ next_step_id w' = next_step_id w
  ∧ commandGuard w' = commandGuard w.

(** What the users of a mission see of it: status and failure reason. *)
Definition mission_states (w : World)
    : list (Z * MissionStatus * option jsstring) :=
  map (fun m => (mission_id m, mission_status m, fail_reason m)) (missions w).

(** JavaScript truthiness of nullable columns. *)
Definition truthyS (o : option jsstring) : option jsstring :=
  match o with
  | Some (c :: s) => Some (c :: s)
  | _ => None
  end.

Definition truthyZ (o : option Z) : option Z :=
  match o with
  | Some z => if (z =? 0)%Z then None else Some z
  | None => None
  end.

Definition truthyB (o : option bool) : bool := default false o.

Inductive Polled : Type :=
| Got (m : MissionRecord)
| NotFound
| PollsForever.

(** [waitForMissionStatus] while nobody else patches the mission: the
    first read decides, and a status outside the targets and the terminal
    ones is read again every second for ever. *)
Definition waitForMissionStatus (mid : Z) (targetStatus : list MissionStatus)
    (w : World) : Polled :=
  match get_mission mid w with
  | None => NotFound
  | Some m =>
      if bool_decide (mission_status m ∈ targetStatus) then Got m
      else if bool_decide (mission_status m ∈ [COMPLETED; FAILED]) then Got m
      else PollsForever
  end.

Definition consumeUserInput (mission : MissionRecord) (mid : Z)
    (stepId : option Z) (w : World) : World :=
  match get_mission mid w with
  | Some latest =>
      match truthyS (latest_user_input latest) with
      | Some input =>
          let w1 := createMissionLog (mission_projectId mission) mid stepId
                      thought (Text (str "User input received: " ++ input)) w in
          patch_mission mid (with_latest_user_input None) w1
      | None => w
      end
  | None => w
  end.

(** [find({ query: { missionId, status: 'PENDING' } })]. *)
Definition find_pending (mid : Z) (w : World) : list StepRow :=
  filter (fun r => missionId r = mid ∧ status r = STEP_PENDING)
         (mission_steps w).

(** [app.service('mission-steps').remove(id)]. *)
Definition remove_step (step_id : Z) (w : World) : World :=
  set_steps (filter (fun r => id r ≠ step_id)) w.

Definition removePendingMissionSteps (mission : MissionRecord) (w : World)
    : World :=
  let existing := find_pending (mission_id mission) w in
  foldl (fun acc row => remove_step (id row) acc) w existing.

(** [$sort: { order_index: 1 }] and [$sort: { order_index: -1 }]. *)
Definition order_asc (a b : StepRow) : Prop :=
  (order_index a <= order_index b)%Z.
Definition order_desc (a b : StepRow) : Prop :=
  (order_index b <= order_index a)%Z.

#[export] Instance order_asc_dec : RelDecision order_asc.
Proof. intros a b. unfold order_asc. apply _. Defined.
#[export] Instance order_desc_dec : RelDecision order_desc.
Proof. intros a b. unfold order_desc. apply _. Defined.

(** [find({ query: { missionId, $sort: { order_index: -1 }, $limit: 1 } })]. *)
Definition find_max_order (mid : Z) (w : World) : list StepRow :=
  take 1 (merge_sort order_desc
            (filter (fun r => missionId r = mid) (mission_steps w))).

(** [app.service('mission-steps').create(data)]: the next autoincrement
    id, the column defaults of the schema for what [data] leaves out. *)
Definition create_step (projectId missionId order_index : Z)
    (description : jsstring) (command : option jsstring)
    (timeout_ms : Z) (retryable : bool) (max_retries : Z)
    (background : bool) (ready_pattern : option jsstring) (w : World)
    : StepRow * World :=
  let row := mkStep (next_step_id w) projectId missionId order_index
               description command STEP_PENDING None None (Some 0%Z)
               (Some max_retries) (Some retryable) (Some timeout_ms)
               None None None None None (Some background) ready_pattern in
  (row, set_next_step_id (next_step_id w + 1)%Z
          (set_steps (fun rows => rows ++ [row]) w)).

(** The [for] loop of [createStepsFromPlan], entered at [index]. *)
Fixpoint createSteps_loop (mission : MissionRecord) (startOrder : Z)
    (index : nat) (steps : list PlanStep) (created : list StepRow)
    (w : World) : list StepRow * World :=
  match steps with
  | [] => (created, w)
  | step :: steps' =>
      let '(record, w') :=
        create_step (mission_projectId mission) (mission_id mission)
          (startOrder + Z.of_nat index + 1)%Z
          (plan_description step)
          (truthyS (plan_command step))
          (default DEFAULT_STEP_TIMEOUT_MS (plan_timeoutMs step))
          (default false (plan_retryable step))
          (if truthyB (plan_retryable step) then DEFAULT_MAX_RETRIES else 0%Z)
          (default false (plan_background step))
          (truthyS (plan_readyPattern step)) w in
      createSteps_loop mission startOrder (S index) steps'
        (created ++ [record]) w'
  end.

Definition createStepsFromPlan (mission : MissionRecord)
    (steps : list PlanStep) (w : World) : list StepRow * World :=
  let existingMax := find_max_order (mission_id mission) w in
  let startOrder := match existingMax with
                    | r :: _ => order_index r
                    | [] => 0%Z
                    end in
  createSteps_loop mission startOrder 0 steps [] w.

(** The two calls of the planning stage that rewrite the step table. *)
Definition replan (mission : MissionRecord) (steps : list PlanStep)
    (w : World) : list StepRow * World :=
  createStepsFromPlan mission steps (removePendingMissionSteps mission w).

Definition loadPendingMissionSteps (mid : Z) (w : World) : list StepRow :=
  merge_sort order_asc (find_pending mid w).

(** The pattern that strips a leading bracketed rule id and the spaces
    after it from the guard's reason. *)
Definition leading_rule_id : RegExp :=
  mkRegExp (seqs [Bol; ch "["; Plus (Cls true [one "]"]); ch "]"; Star Space])
           false.

Definition shield : jsstring := [55357; 57057; 65039].
Definition fence : jsstring := str "```".

Section Executor.

Variable E : Env.

Definition attemptExecution (step : StepRow) (command : jsstring)
    (timeoutMs : Z) (w : World) : Settled ExecutionResult * World :=
  let call :=
    match truthyB (background step), truthyS (ready_pattern step) with
    | true, Some p => Call_backgroundCommand command p timeoutMs
    | _, _ => Call_command command (Some timeoutMs)
    end in
  let r := sandbox E (sandbox_calls w) call in
  (settled r, count_call (sleep (Z.of_N (elapsed r)) w)).

(** [step.command || 'echo "no command"'] *)
Definition rawCommandOf (step : StepRow) : jsstring :=
  default (str "echo " ++ dq :: str "no command" ++ [dq])
          (truthyS (command step)).

(** The guard's verdict on the step, as [executeStep] asks for it. *)
Definition verdictOf (mission : MissionRecord) (step : StepRow) (w : World)
    : CommandGuard.GuardVerdict :=
  CommandGuard.guardCommand (regExpTest E) (guardModel E)
    (commandGuard w !! mission_projectId mission)
    (rawCommandOf step) (truthyB (background step)).

(** [verdict.reason] inside a template literal. *)
Definition shownReason (verdict : CommandGuard.GuardVerdict) : jsstring :=
  default (str "undefined") (CommandGuard.reason verdict).

(** The data of the patch that blocks a step. *)
Definition blockedPatch (verdict : CommandGuard.GuardVerdict) (at_ms : Z)
    : list StepAssign :=
  [Set_status STEP_BLOCKED; Set_started_at at_ms; Set_finished_at at_ms;
   Set_result_summary (str "Blocked by command guard: " ++ shownReason verdict)].

(** The error log written for a blocked step. *)
Definition blockedLog (verdict : CommandGuard.GuardVerdict)
    (rawCommand : jsstring) : jsstring :=
  let ruleId :=
    default (str "unknown") (truthyS (CommandGuard.rule verdict)) in
  let reasonText :=
    replace leading_rule_id []
      (default [] (truthyS (CommandGuard.reason verdict))) in
  shield ++ str " **Comando bloqueado** (regra: `" ++ ruleId
  ++ str "`)" ++ [nl; nl] ++ str "**Motivo:** " ++ reasonText
  ++ [nl; nl] ++ str "**Comando:**" ++ [nl] ++ fence ++ [nl]
  ++ truncate rawCommand 300 ++ [nl] ++ fence.

(** [stepPatch], the data of the patch that closes an executed step. *)
Definition stepPatchOf (lastResult : ExecutionResult)
    (actualRetries durationMs finished : Z) : list StepAssign :=
  [Set_status (if (exitCode lastResult =? 0)%Z
               then STEP_DONE else STEP_FAILED);
   Set_exit_code (exitCode lastResult);
   Set_retry_count actualRetries;
   Set_duration_ms durationMs;
   Set_finished_at finished;
   Set_result_summary (str "exit=" ++ showZ (exitCode lastResult)
                       ++ str " duration=" ++ showZ durationMs
                       ++ str "ms");
   Set_stdout_tail (truncate (stdout lastResult) STDOUT_TAIL_LENGTH);
   Set_stderr_tail (truncate (stderr lastResult) STDERR_TAIL_LENGTH)].

(** The auto-promotion block: the in-memory step and the stored row
    both become background steps with the suggested ready pattern. *)
Definition promote (mission : MissionRecord)
    (verdict : CommandGuard.GuardVerdict) (step : StepRow) (w : World)
    : StepRow * World :=
  if truthyB (CommandGuard.promotedToBackground verdict)
     && negb (truthyB (background step)) then
    let command := CommandGuard.sanitised verdict in
    let pattern :=
      default (str "listening on|ready|started")
              (truthyS (CommandGuard.suggestedReadyPattern verdict)) in
    let step' :=
      assign (Set_ready_pattern (Some pattern))
             (assign (Set_background true) step) in
    let wa :=
      patch_step (id step)
        [Set_background true; Set_ready_pattern (Some pattern)] w in
    let wb :=
      createMissionLog (mission_projectId mission) (mission_id mission)
        (Some (id step)) thought
        (Text (str "Command auto-promoted to background by guard: "
               ++ dq :: truncate command 100 ++ dq ::
               str " (readyPattern: " ++ dq :: pattern ++ dq :: str ")"))
        wa in
    (step', wb)
  else (step, w).

(** The [try] block around the execution, with its [catch]. *)
Definition runAttempts (step : StepRow) (command : jsstring)
    (timeoutMs maxRetries : Z) (w : World) : ExecutionResult * World :=
  let '(attempted, w') :=
    if (0 <? maxRetries)%Z then
      retryWithBackoff sleep (attemptExecution step command timeoutMs)
        (Z.to_nat maxRetries) 2000 w
    else attemptExecution step command timeoutMs w in
  (match attempted with
   | Resolved r => r
   | Rejected message =>
       mkExec [] (default (str "Step execution failed")
                          (truthyS (Some message))) (-1)
   end, w').

Definition executeStep (mission : MissionRecord) (step : StepRow)
    (w : World) : StepResult * StepRow * World :=
  let rawCommand := rawCommandOf step in
  let timeoutMs :=
    default DEFAULT_STEP_TIMEOUT_MS (truthyZ (timeout_ms step)) in
  let maxRetries :=
    if truthyB (retryable step)
    then default DEFAULT_MAX_RETRIES (truthyZ (max_retries step))
    else 0%Z in
  let actualRetries := 0%Z in
  let startTime := now w in
  let verdict := verdictOf mission step w in
  if negb (CommandGuard.allowed verdict) then
    let w1 := patch_step (id step) (blockedPatch verdict (now w)) w in
    let w2 :=
      createMissionLog (mission_projectId mission) (mission_id mission)
        (Some (id step)) error (Text (blockedLog verdict rawCommand)) w1 in
    (mkStepResult (-2) [] (str "Command blocked: " ++ shownReason verdict)
       (now w2 - startTime) 0, step, w2)
  else
    let command := CommandGuard.sanitised verdict in
    let '(step1, w1) := promote mission verdict step w in
    let w2 :=
      patch_step (id step1)
        [Set_status STEP_IN_PROGRESS; Set_started_at (now w1)] w1 in
    let w3 :=
      createMissionLog (mission_projectId mission) (mission_id mission)
        (Some (id step1)) command_log
        (Text (str "Executing step " ++ showZ (order_index step1) ++ str ": "
               ++ command ++ str " (timeout: " ++ showZ timeoutMs
               ++ str "ms, retryable: "
               ++ showBool (truthyB (retryable step1))
               ++ (if truthyB (background step1)
                   then str ", background, readyPattern: " ++ dq ::
                        default [] (truthyS (ready_pattern step1)) ++ [dq]
                   else [])
               ++ str ")")) w2 in
    let '(lastResult, w4) :=
      runAttempts step1 command timeoutMs maxRetries w3 in
    let durationMs := (now w4 - startTime)%Z in
    let stepPatch :=
      stepPatchOf lastResult actualRetries durationMs (now w4) in
    let w5 := patch_step (id step1) stepPatch w4 in
    let w6 :=
      createMissionLog (mission_projectId mission) (mission_id mission)
        (Some (id step1)) tool_output
        (Output (exitCode lastResult) durationMs
           (truncate (stdout lastResult) STDOUT_TAIL_LENGTH)
           (truncate (stderr lastResult) STDERR_TAIL_LENGTH)) w5 in
    (mkStepResult (exitCode lastResult) (stdout lastResult)
       (stderr lastResult) durationMs actualRetries, step1, w6).

(** The variables of [runMission] that outlive one stage. *)
Record Local : Type := mkLocal {
  missionTokenUsage : list (jsstring * Usage);
  currentStepId : option Z
}.

Inductive Thrown : Type :=
| NoRecord
| Failure (message : jsstring).

(** How a stage of the controller loop ends: it falls through to the
    next iteration, it throws into the outer [catch], or it is stuck in
    a poll. *)
Inductive Outcome : Type :=
| Finished (l : Local) (w : World)
| Threw (e : Thrown) (l : Local) (w : World)
| Stalled (l : Local) (w : World).

Definition outcome_world (o : Outcome) : World :=
  match o with
  | Finished _ w => w
  | Threw _ _ w => w
  | Stalled _ w => w
  end.

Definition bump (u acc : Usage) : Usage :=
  mkUsage (prompt acc + prompt u) (completion acc + completion u)
          (total acc + total u).

Definition alter_usage (role : jsstring) (f : Usage -> Usage)
    (t : list (jsstring * Usage)) : list (jsstring * Usage) :=
  map (fun kv => if jseq (fst kv) role then (fst kv, f (snd kv)) else kv) t.

(** [trackUsage]: the table in memory gets the usage under the role and
    under [total], and is handed to [missions.patch] as it is.  The row of
    the model keeps that object; what the database makes of a raw object
    is not modelled, and no statement reads the column back. *)
Definition trackUsage (mission : MissionRecord) (role : jsstring)
    (usage : Usage) (l : Local) (w : World) : Local * World :=
  let t0 := missionTokenUsage l in
  let t1 := if existsb (fun kv => jseq (fst kv) role) t0 then t0
            else t0 ++ [(role, mkUsage 0 0 0)] in
  let t2 := alter_usage role (bump usage) t1 in
  let t3 := alter_usage (str "total") (bump usage) t2 in
  (mkLocal t3 (currentStepId l),
   patch_mission (mission_id mission) (with_token_usage t3) w).

(** The [if (!step.command)] block of the loop. *)
Definition ensureCommand (mission : MissionRecord) (ctx : StepCommandContext)
    (step : StepRow) (l : Local) (w : World)
    : Thrown + (StepRow * Local * World) :=
  match truthyS (command step) with
  | Some _ => inr (step, l, w)
  | None =>
      match generateStepCommand E ctx with
      | Rejected m => inl (Failure m)
      | Resolved (cmd, usage) =>
          let '(l1, w1) := trackUsage mission (str "coder") usage l w in
          let step' := assign (Set_command (Some cmd)) step in
          let w2 := patch_step (id step) [Set_command (Some cmd)] w1 in
          let w3 :=
            createMissionLog (mission_projectId mission) (mission_id mission)
              (Some (id step)) thought
              (Text (str "AI generated command: `" ++ truncate cmd 200
                     ++ str "`")) w2 in
          inr (step', l1, w3)
      end
  end.

(** The [for] loop over [pendingSteps] in the executing stage, entered
    at [index] with the steps from there on. *)
Fixpoint runWave (mission : MissionRecord) (totalSteps : nat)
    (descriptions : list jsstring) (coderFileTree coderPackageJson : jsstring)
    (index : nat) (steps : list StepRow) (previousOutputs : list jsstring)
    (l : Local) (w : World) : Outcome :=
  match steps with
  | [] => Finished l w
  | step :: rest =>
      match waitForMissionStatus (mission_id mission)
              [EXECUTING; PLANNING; PAUSED; WAITING_INPUT] w with
      | NotFound => Threw NoRecord l w
      | PollsForever => Stalled l w
      | Got latest =>
          if negb (bool_decide (mission_status latest = EXECUTING))
          then Finished l w
          else
            let w1 := consumeUserInput mission (mission_id mission)
                        (Some (id step)) w in
            let l1 := mkLocal (missionTokenUsage l) (Some (id step)) in
            let ctx :=
              mkContext (goal mission) (description step) index totalSteps
                descriptions
                (match previousOutputs with
                 | [] => None
                 | _ => Some (join ([nl] ++ str "---" ++ [nl]) previousOutputs)
                 end)
                coderFileTree coderPackageJson
                (truthyB (background step)) (truthyS (ready_pattern step)) in
            match ensureCommand mission ctx step l1 w1 with
            | inl e => Threw e l1 w1
            | inr (step2, l2, w2) =>
                let '(result, step3, w3) := executeStep mission step2 w2 in
                if negb (res_exitCode result =? 0)%Z
                   && bool_decide (status step3 = STEP_FAILED)
                then
                  Finished l2
                    (patchMissionStatus (mission_id mission) FAILED
                       (with_fail_reason
                          (Some (str "Step " ++ showZ (order_index step3)
                                 ++ str " failed."))) w3)
                else
                  let pushed :=
                    previousOutputs ++
                    [description step3 ++ str ": exit="
                     ++ showZ (res_exitCode result)] in
                  let previousOutputs' :=
                    if (5 <? length pushed)%nat then drop 1 pushed
                    else pushed in
                  runWave mission totalSteps descriptions coderFileTree
                    coderPackageJson (S index) rest previousOutputs' l2 w3
            end
      end
  end.

Definition find_tree_command : jsstring :=
  str "find . -maxdepth 3 -not -path " ++ dq :: str "*/node_modules/*"
  ++ dq :: str " -not -path " ++ dq :: str "*/.git/*" ++ dq ::
  str " | head -100".

(** The [EXECUTING] stage of the controller loop. *)
Definition executingStage (mission : MissionRecord) (l : Local) (w : World)
    : Outcome :=
  let pendingSteps := loadPendingMissionSteps (mission_id mission) w in
  match pendingSteps with
  | [] =>
      Finished l (patchMissionStatus (mission_id mission) VALIDATING
                    (fun m => m) w)
  | _ :: _ =>
      let r := sandbox E (sandbox_calls w)
                 (Call_command find_tree_command None) in
      let w1 := count_call (sleep (Z.of_N (elapsed r)) w) in
      let coderFileTree :=
        match settled r with
        | Resolved ft => trim (stdout ft)
        | Rejected _ => []
        end in
      let coderPackageJson :=
        match read_file E (sandbox_calls w1) (str "package.json") with
        | Resolved text => text
        | Rejected _ => []
        end in
      let w2 := count_call w1 in
      runWave mission (length pendingSteps) (map description pendingSteps)
        coderFileTree coderPackageJson 0 pendingSteps [] l w2
  end.

End Executor.

End MissionWorker.

(* ===================================================================== *)
(** * sandbox-driver.ts *)
(* ===================================================================== *)

Module SandboxDriver.

Import Utils.

Record ExecutionResult : Type := mkResult {
  stdout : jsstring;
  stderr : jsstring;
  exitCode : Z
}.

(** The [execution] setting, with the keys the driver's options read. *)
Record ExecutionSettings : Type := mkExecution {
  sandboxRoot : option jsstring;
  persistSandbox : option bool
}.

(** [process.env], with the variables the driver's options read. *)
Record ProcessEnv : Type := mkProcessEnv {
  OPENJULES_SANDBOX_ROOT : option jsstring;
  OPENJULES_SANDBOX_PERSIST : option jsstring
}.

(** [toLowerCase] on the ASCII letters; no other code unit lower-cases
    to a letter of the flags compared below. *)
Definition toLowerCase (s : jsstring) : jsstring :=
  map (fun c => if (65 <=? c) && (c <=? 90) then c + 32 else c) s.

Definition shouldPersistSandbox (env : ProcessEnv) : bool :=
  let flag :=
    toLowerCase
      (trim (default (str "true") (match OPENJULES_SANDBOX_PERSIST env with
                                   | Some (c :: s) => Some (c :: s)
                                   | _ => None
                                   end))) in
  negb (jseq flag (str "false")) && negb (jseq flag (str "0"))
  && negb (jseq flag (str "no")).

Record SandboxOptions : Type := mkOptions { root : jsstring; persist : bool }.

(** A stream event of a Docker exec, with the time it arrives at, in
    milliseconds after the exec started. *)
Inductive StreamEvent : Type :=
| Stdout (text : jsstring)
| Stderr (text : jsstring)
| End
| Error (message : jsstring).

(** What the container host hands back for one exec: the stream, and the
    exit code [inspect] reports afterwards, if any. *)
Record Exec : Type := mkExecHandle {
  stream : list (Z * StreamEvent);
  inspect_ExitCode : option Z
}.

(** A promise seen from outside: fulfilled or rejected at a time, or
    never settled. *)
Inductive Promise (A : Type) : Type :=
| Fulfilled (at_ms : Z) (value : A)
| RejectedAt (at_ms : Z) (message : jsstring)
| Pending.
Arguments Fulfilled {A} at_ms value.
Arguments RejectedAt {A} at_ms message.
Arguments Pending {A}.

(** What happens while [backgroundCommand] waits: output of the [tail]
    stream, its end or failure, and the periodic [kill -0] checks, each
    with the time at which the callback runs. *)
Inductive BackgroundEvent : Type :=
| Chunk (text : jsstring)
| TailEnd
| TailError (message : jsstring)
| PidCheck (outcome : Settled Z).

Record Instance : Type := mkInstance {
  inst_id : jsstring;
  workspacePath : jsstring;
  repoPath : jsstring;
  container : N;
  containerImage : jsstring;
  shell : jsstring
}.

Definition containerPath : jsstring := str "/workspace/repo".

(** The driver object: its two [Map]s. *)
Record DockerDriver : Type := mkDriver {
  instances : gmap (list N) Instance;
  persistByInstance : gmap (list N) bool
}.

(** The machine the driver runs on: the directories that exist and the
    containers that exist. *)
Record Host : Type := mkHost {
  dirs : gset (list N);
  containers : gset N
}.

Section Driver.

(** Node's [os.homedir()], the backend root, and the [path] module. *)
Variable homedir : jsstring.
Variable backendRoot : jsstring.
Variable path_join : jsstring -> jsstring -> jsstring.
Variable path_relative : jsstring -> jsstring -> jsstring.
Variable path_isAbsolute : jsstring -> bool.

Definition resolveDefaultSandboxRoot : jsstring :=
  path_join (path_join homedir (str ".openjules")) (str "sandboxes").

Definition toAbsoluteSandboxPath (value : jsstring) : jsstring :=
  let trimmed := trim value in
  match trimmed with
  | [] => resolveDefaultSandboxRoot
  | _ :: _ =>
      if path_isAbsolute trimmed then trimmed
      else path_join backendRoot trimmed
  end.

Definition nonempty (s : jsstring) : option jsstring :=
  match s with
  | [] => None
  | _ :: _ => Some s
  end.

(** [resolveSandboxOptions], given the stored [execution] setting
    ([{}] when there is none). *)
Definition resolveSandboxOptions (execution : ExecutionSettings)
    (env : ProcessEnv) : SandboxOptions :=
  let envRoot := OPENJULES_SANDBOX_ROOT env in
  let configuredRoot := trim (default [] (sandboxRoot execution)) in
  let chosen :=
    match envRoot ≫= (fun r => nonempty (trim r)) with
    | Some r => r
    | None => default resolveDefaultSandboxRoot (nonempty configuredRoot)
    end in
  let envPersist := OPENJULES_SANDBOX_PERSIST env in
  let persist :=
    match envPersist with
    | Some v => negb (jseq v (str "false")) && negb (jseq v (str "0"))
    | None => negb (bool_decide (persistSandbox execution = Some false))
    end in
  mkOptions (toAbsoluteSandboxPath chosen) persist.

Definition toContainerWorkdir (i : Instance) (hostWorkdir : option jsstring)
    : jsstring :=
  match hostWorkdir with
  | Some (c :: h) =>
      if startsWith (workspacePath i) (c :: h) then
        str "/workspace/" ++
        map (fun x => if x =? 92 then 47 else x)
            (path_relative (workspacePath i) (c :: h))
      else containerPath
  | _ => containerPath
  end.

(** The promise inside [command]: the demultiplexed stream fills
    [stdout] and [stderr] until it ends or fails. *)
Fixpoint drain (events : list (Z * StreamEvent)) (out err : jsstring)
    : Promise (jsstring * jsstring) :=
  match events with
  | [] => Pending
  | (t, Stdout text) :: rest => drain rest (out ++ text) err
  | (t, Stderr text) :: rest => drain rest out (err ++ text)
  | (t, End) :: _ => Fulfilled t (out, err)
  | (t, Error message) :: _ => RejectedAt t message
  end.

(** [DockerSandboxInstance.command(cmd, workdir, timeoutMs)], given what
    the host's exec for that [Cmd] and [WorkingDir] does. *)
Definition command (host_exec : list jsstring -> jsstring -> Exec)
    (i : Instance) (cmd : jsstring) (workdir : option jsstring)
    (timeoutMs : option Z) : Promise ExecutionResult :=
  let exec :=
    host_exec [default (str "sh") (nonempty (shell i)); str "-lc"; cmd]
              (toContainerWorkdir i workdir) in
  match drain (stream exec) [] [] with
  | Fulfilled t (out, err) =>
      Fulfilled t (mkResult out err (default (-1)%Z (inspect_ExitCode exec)))
  | RejectedAt t message => RejectedAt t message
  | Pending => Pending
  end.

(** The promise [backgroundCommand] returns once the wrapper has
    started: the callbacks that run before the timer, in time order,
    then the timer. *)
Fixpoint monitor (ready : jsstring -> bool) (readyPattern : jsstring)
    (effectiveTimeout : Z) (fullLog : jsstring)
    (events : list (Z * BackgroundEvent)) : Promise ExecutionResult :=
  let timed_out :=
    RejectedAt effectiveTimeout
      (str "Timeout (" ++ showZ effectiveTimeout
       ++ str "ms) waiting for ready pattern " ++ dq :: readyPattern
       ++ dq :: str " in command logs.") in
  match events with
  | [] => timed_out
  | (t, e) :: rest =>
      if (effectiveTimeout <=? t)%Z then timed_out
      else
        match e with
        | Chunk text =>
            let fullLog' := fullLog ++ text in
            if ready fullLog'
            then Fulfilled t (mkResult fullLog' [] 0)
            else monitor ready readyPattern effectiveTimeout fullLog' rest
        | TailEnd =>
            RejectedAt t
              (str "Log monitoring stream ended before ready pattern matched.")
        | TailError message => RejectedAt t message
        | PidCheck (Resolved code) =>
            if (code =? 0)%Z
            then monitor ready readyPattern effectiveTimeout fullLog rest
            else
              RejectedAt t
                (str "Background process died unexpectedly." ++ [nl]
                 ++ str "Last Logs:" ++ [nl] ++ sliceLast 2000 fullLog)
        | PidCheck (Rejected _) =>
            monitor ready readyPattern effectiveTimeout fullLog rest
        end
  end.

Definition delay {A : Type} (t0 : Z) (p : Promise A) : Promise A :=
  match p with
  | Fulfilled t a => Fulfilled (t0 + t) a
  | RejectedAt t m => RejectedAt (t0 + t) m
  | Pending => Pending
  end.

(** The wrapper [backgroundCommand] launches: the command detached
    under [nohup], its output and its pid written next to each other under
    [/tmp]; [uuid] is the random part of the log file name. *)
Definition backgroundWrapper (i : Instance) (cmd uuid : jsstring) : jsstring :=
  let logFile := str "/tmp/bg-" ++ uuid ++ str ".log" in
  let escapedCmd :=
    replaceAll (mkRegExp (Chr 39) false) [39; 92; 39; 39] cmd in
  let sh := default (str "sh") (nonempty (shell i)) in
  str "nohup " ++ sh ++ str " -c '" ++ escapedCmd ++ str "' > " ++ dq ::
  logFile ++ dq :: str " 2>&1 & echo $! > " ++ dq :: logFile
  ++ str ".pid" ++ [dq].

(** [timeoutMs || 120_000] *)
Definition effectiveTimeoutOf (timeoutMs : option Z) : Z :=
  match timeoutMs with
  | Some t => if (t =? 0)%Z then 120000%Z else t
  | None => 120000%Z
  end.

(** [DockerSandboxInstance.backgroundCommand]: [newRegExp] is the
    [RegExp] constructor with the [i] flag (its result as the [test] it
    performs), [events] what happens after the [tail] exec has started,
    timed from there. *)
Definition backgroundCommand
    (newRegExp : jsstring -> Settled (jsstring -> bool))
    (host_exec : list jsstring -> jsstring -> Exec)
    (i : Instance) (cmd readyPattern : jsstring) (workdir : option jsstring)
    (timeoutMs : option Z) (uuid : jsstring)
    (events : list (Z * BackgroundEvent)) : Promise ExecutionResult :=
  match command host_exec i (backgroundWrapper i cmd uuid) workdir None with
  | Pending => Pending
  | RejectedAt t message => RejectedAt t message
  | Fulfilled t0 startRes =>
      if negb (exitCode startRes =? 0)%Z then
        RejectedAt t0
          (str "Failed to spawn background command: "
           ++ default (stdout startRes) (nonempty (stderr startRes)))
      else
        match newRegExp readyPattern with
        | Rejected message => RejectedAt t0 message
        | Resolved ready =>
            delay t0
              (monitor ready readyPattern (effectiveTimeoutOf timeoutMs) []
                       events)
        end
  end.

(** [DockerDriver.spawn] on a host where image pull, container creation
    and start succeed: [hash] and [uuid8] are the two random-looking
    parts of the instance id, [c] the container the host creates.  Of the
    directories the two recursive [fs.mkdir] calls make, the host records
    the workspace and the repository; the sandbox root and the ancestors
    above it are taken to be there already, which is all a statement about
    the workspace alone needs. *)
Definition spawn (execution : ExecutionSettings) (env : ProcessEnv)
    (missionId : Z) (hash uuid8 image : jsstring) (c : N)
    (d : DockerDriver) (h : Host) : Instance * DockerDriver * Host :=
  let options := resolveSandboxOptions execution env in
  let instanceId :=
    str "sandbox-" ++ showZ missionId ++ str "-" ++ hash ++ str "-" ++ uuid8 in
  let workspace := path_join (root options) instanceId in
  let repo := path_join workspace (str "repo") in
  let h' := mkHost ({[workspace]} ∪ {[repo]} ∪ dirs h) ({[c]} ∪ containers h) in
  let instance := mkInstance instanceId workspace repo c image (str "sh") in
  (instance,
   mkDriver (<[instanceId := instance]> (instances d))
            (<[instanceId := persist options]> (persistByInstance d)),
   h').

(** [fs.rm(path, { recursive: true, force: true })], when it succeeds:
    the directory and everything under it are gone. *)
Definition rm_rf (p : jsstring) (ds : gset (list N)) : gset (list N) :=
  filter (fun q => q ≠ p ∧ startsWith (p ++ str "/") q = false) ds.

(** [DockerDriver.teardown]. *)
Definition teardown (env : ProcessEnv) (instanceId : jsstring)
    (d : DockerDriver) (h : Host) : DockerDriver * Host :=
  match instances d !! instanceId with
  | Some tracked =>
      let containers' := containers h ∖ {[container tracked]} in
      let persist :=
        default (shouldPersistSandbox env) (persistByInstance d !! instanceId) in
      let dirs' :=
        if negb persist then rm_rf (workspacePath tracked) (dirs h)
        else dirs h in
      (mkDriver (delete instanceId (instances d))
                (delete instanceId (persistByInstance d)),
       mkHost dirs' containers')
  | None => (d, h)
  end.

End Driver.

End SandboxDriver.

(* ===================================================================== *)
(** * utils.ts: quoting for the shell *)
(* ===================================================================== *)

Module UtilsMore.

(** [shellEscape]: the input between single quotes, each single quote of
    the input written as quote, double-quoted quote, quote. *)
Definition shellEscape (input : jsstring) : jsstring :=
  [39] ++ replaceAll (mkRegExp (Chr 39) false) [39; 34; 39; 34; 39] input
  ++ [39].

End UtilsMore.

(** * Reference: how a POSIX shell reads a quoted word

    Section 2.2 of the Shell Command Language (quoting), for the words the
    backend builds: characters between single quotes stand for themselves;
    between double quotes a backslash quotes dollar, back-tick, double
    quote and backslash, and removes a following newline; outside quotes a
    backslash quotes the next character (and removes a following newline);
    an unquoted blank or operator character ends the word.  Words that
    need an expansion (dollar, back-tick, tilde, glob characters outside
    quotes) are outside this reader. *)
Module PosixShell.

Inductive Quoting : Type := Unquoted | Single | Double.

Definition ends_word (c : N) : bool :=
  (c =? 32) || (c =? 9) || (c =? 10)            (* blank, newline *)
  || (c =? 124) || (c =? 38) || (c =? 59)        (* | & ; *)
  || (c =? 60) || (c =? 62) || (c =? 40) || (c =? 41).  (* < > ( ) *)

Definition expands (c : N) : bool :=
  (c =? 36) || (c =? 96)                         (* $ ` *)
  || (c =? 42) || (c =? 63) || (c =? 91)          (* * ? [ *)
  || (c =? 126) || (c =? 35).                     (* ~ # *)

Definition quotable_in_double (c : N) : bool :=
  (c =? 36) || (c =? 96) || (c =? 34) || (c =? 92).

(** [read_word q s acc]: [acc] is the part of the word read so far and
    [q] the quoting in force; the result is the word and the rest of the
    line, starting at the character that ended the word. *)
Fixpoint read_word (q : Quoting) (s acc : jsstring) {struct s}
    : option (jsstring * jsstring) :=
  match s with
  | [] => match q with Unquoted => Some (acc, []) | _ => None end
  | c :: s' =>
      match q with
      | Unquoted =>
          if c =? 39 then read_word Single s' acc
          else if c =? 34 then read_word Double s' acc
          else if c =? 92 then
            match s' with
            | [] => None
            | d :: s'' =>
                if d =? 10 then read_word Unquoted s'' acc
                else read_word Unquoted s'' (acc ++ [d])
            end
          else if ends_word c then Some (acc, s)
          else if expands c then None
          else read_word Unquoted s' (acc ++ [c])
      | Single =>
          if c =? 39 then read_word Unquoted s' acc
          else read_word Single s' (acc ++ [c])
      | Double =>
          if c =? 34 then read_word Unquoted s' acc
          else if c =? 92 then
            match s' with
            | [] => None
            | d :: s'' =>
                if d =? 10 then read_word Double s'' acc
                else if quotable_in_double d
                     then read_word Double s'' (acc ++ [d])
                     else read_word Double s'' (acc ++ [92; d])
            end
          else if (c =? 36) || (c =? 96) then None
          else read_word Double s' (acc ++ [c])
      end
  end.

(** The rest of a line at which a word can end: nothing, or a blank or
    operator character. *)
Definition word_end (rest : jsstring) : Prop :=
  match rest with
  | [] => True
  | c :: _ => ends_word c = true
  end.

End PosixShell.

(* ===================================================================== *)
(** * services/js: the hooks of the missions service *)
(* ===================================================================== *)

Module MissionHooks.

Import MissionWorker.

Inductive Method : Type := Find | Get | Create | Update | Patch | Remove.

#[export] Instance Method_eq_dec : EqDecision Method.
Proof. solve_decision. Defined.

(** [x || ''] for a value that is a string when present. *)
Definition orEmpty (o : option jsstring) : jsstring := default [] o.

(** [x || fallback] for a value that is a string when present. *)
Definition orElse (o : option jsstring) (fallback : jsstring) : jsstring :=
  match o with
  | Some (c :: s) => c :: s
  | _ => fallback
  end.

(** A row of the [missions] table, with the columns the hooks read or
    write. *)
Record MissionRow : Type := mkMissionRow {
  m_id : Z;
  m_projectId : Z;
  m_goal : jsstring;
  m_trigger_type : jsstring;
  m_status : MissionStatus;
  m_repoUrl : option jsstring;
  m_baseBranch : option jsstring;
  m_latest_user_input : option jsstring;
  m_latest_agent_question : option jsstring;
  m_reviewed_at : option Z;
  m_fail_reason : option jsstring;
  m_result_summary : option jsstring;
  m_createdBy : option Z;
  m_updatedBy : option Z
}.

(** The [data] of a call to the missions service: the columns it sets
    (for a nullable column, [Some None] is an explicit [null]) and the
    keys the hooks read that are not columns.  Every key is optional. *)
Record MissionData : Type := mkData {
  d_projectId : option Z;
  d_goal : option jsstring;
  d_instruction : option jsstring;
  d_trigger_type : option jsstring;
  d_status : option MissionStatus;
  d_repoUrl : option jsstring;
  d_baseBranch : option jsstring;
  d_latest_user_input : option (option jsstring);
  d_latest_agent_question : option (option jsstring);
  d_reviewed_at : option Z;
  d_fail_reason : option (option jsstring);
  d_result_summary : option jsstring;
  d_createdBy : option Z;
  d_updatedBy : option Z;
  d_reviewAction : option jsstring;
  d_planAction : option jsstring;
  d_controlAction : option jsstring;
  d_reason : option jsstring;
  d_message : option jsstring
}.

Definition noData : MissionData :=
  mkData None None None None None None None None None None None None None None
         None None None None None.




Definition set_status (v : MissionStatus) (d : MissionData) : MissionData :=
  mkData (d_projectId d) (d_goal d) (d_instruction d) (d_trigger_type d)
    (Some v) (d_repoUrl d) (d_baseBranch d) (d_latest_user_input d)
    (d_latest_agent_question d) (d_reviewed_at d) (d_fail_reason d)
    (d_result_summary d) (d_createdBy d) (d_updatedBy d) (d_reviewAction d)
    (d_planAction d) (d_controlAction d) (d_reason d) (d_message d).

Definition set_latest_user_input (v : option jsstring) (d : MissionData)
    : MissionData :=
  mkData (d_projectId d) (d_goal d) (d_instruction d) (d_trigger_type d)
    (d_status d) (d_repoUrl d) (d_baseBranch d) (Some v)
    (d_latest_agent_question d) (d_reviewed_at d) (d_fail_reason d)
    (d_result_summary d) (d_createdBy d) (d_updatedBy d) (d_reviewAction d)
    (d_planAction d) (d_controlAction d) (d_reason d) (d_message d).

Definition set_latest_agent_question (v : option jsstring) (d : MissionData)
    : MissionData :=
  mkData (d_projectId d) (d_goal d) (d_instruction d) (d_trigger_type d)
    (d_status d) (d_repoUrl d) (d_baseBranch d) (d_latest_user_input d)
    (Some v) (d_reviewed_at d) (d_fail_reason d)
    (d_result_summary d) (d_createdBy d) (d_updatedBy d) (d_reviewAction d)
    (d_planAction d) (d_controlAction d) (d_reason d) (d_message d).

Definition set_reviewed_at (v : Z) (d : MissionData) : MissionData :=
  mkData (d_projectId d) (d_goal d) (d_instruction d) (d_trigger_type d)
    (d_status d) (d_repoUrl d) (d_baseBranch d) (d_latest_user_input d)
    (d_latest_agent_question d) (Some v) (d_fail_reason d)
    (d_result_summary d) (d_createdBy d) (d_updatedBy d) (d_reviewAction d)
    (d_planAction d) (d_controlAction d) (d_reason d) (d_message d).

Definition set_fail_reason (v : option jsstring) (d : MissionData)
    : MissionData :=
  mkData (d_projectId d) (d_goal d) (d_instruction d) (d_trigger_type d)
    (d_status d) (d_repoUrl d) (d_baseBranch d) (d_latest_user_input d)
    (d_latest_agent_question d) (d_reviewed_at d) (Some v)
    (d_result_summary d) (d_createdBy d) (d_updatedBy d) (d_reviewAction d)
    (d_planAction d) (d_controlAction d) (d_reason d) (d_message d).

Definition set_result_summary (v : jsstring) (d : MissionData) : MissionData :=
  mkData (d_projectId d) (d_goal d) (d_instruction d) (d_trigger_type d)
    (d_status d) (d_repoUrl d) (d_baseBranch d) (d_latest_user_input d)
    (d_latest_agent_question d) (d_reviewed_at d) (d_fail_reason d)
    (Some v) (d_createdBy d) (d_updatedBy d) (d_reviewAction d)
    (d_planAction d) (d_controlAction d) (d_reason d) (d_message d).

Definition set_createdBy (v : Z) (d : MissionData) : MissionData :=
  mkData (d_projectId d) (d_goal d) (d_instruction d) (d_trigger_type d)
    (d_status d) (d_repoUrl d) (d_baseBranch d) (d_latest_user_input d)
    (d_latest_agent_question d) (d_reviewed_at d) (d_fail_reason d)
    (d_result_summary d) (Some v) (d_updatedBy d) (d_reviewAction d)
    (d_planAction d) (d_controlAction d) (d_reason d) (d_message d).

Definition set_updatedBy (v : Z) (d : MissionData) : MissionData :=
  mkData (d_projectId d) (d_goal d) (d_instruction d) (d_trigger_type d)
    (d_status d) (d_repoUrl d) (d_baseBranch d) (d_latest_user_input d)
    (d_latest_agent_question d) (d_reviewed_at d) (d_fail_reason d)
    (d_result_summary d) (d_createdBy d) (Some v) (d_reviewAction d)
    (d_planAction d) (d_controlAction d) (d_reason d) (d_message d).

(** The action a hook has recognised, left in [context.params]. *)
Inductive ActionMark : Type :=
| ReviewAction (action : jsstring)
| PlanAction (action : jsstring)
| ControlAction (action : jsstring).

(** The errors a call can end in: the two Feathers errors the hooks
    throw, and the error of a statement the database refuses. *)
Inductive HookError : Type :=
| BadRequest (message : jsstring)
| NotFound
| GeneralError.

(** What a before hook does to the call: it lets it through with the
    data it leaves in the context, or it throws. *)
Inductive Hooked : Type :=
| Continue (data : MissionData) (mark : option ActionMark)
| Throw (e : HookError).

Definition approve : jsstring := str "approve".
Definition reject : jsstring := str "reject".

(** [enforceMissionReviewAction]: [has_id] is the truthiness of
    [context.id], [mission] the row that [missions.get(context.id)]
    returns ([None] when it throws), [now] the clock.  [toLowerCase] is
    the one on the ASCII letters: no other code unit lower-cases to a
    letter of the action names. *)
Definition enforceMissionReviewAction (method : Method) (has_id : bool)
    (data : MissionData) (mission : option MissionRow) (now : Z) : Hooked :=
  if negb (bool_decide (method = Patch)) || negb has_id then Continue data None
  else
    let reviewAction := SandboxDriver.toLowerCase (orEmpty (d_reviewAction data)) in
    let planAction := SandboxDriver.toLowerCase (orEmpty (d_planAction data)) in
    let controlAction :=
      SandboxDriver.toLowerCase (orEmpty (d_controlAction data)) in
    match reviewAction, planAction, controlAction with
    | [], [], [] => Continue data None
    | _, _, _ =>
        match mission with
        | None => Throw NotFound
        | Some mission =>
            match reviewAction with
            | _ :: _ =>
                if negb (jseq reviewAction approve || jseq reviewAction reject)
                then Throw (BadRequest (str "reviewAction must be approve or reject"))
                else if negb (bool_decide (m_status mission = WAITING_REVIEW))
                then Throw (BadRequest (str "Mission is not waiting review"))
                else if jseq reviewAction approve then
                  Continue
                    (set_result_summary
                       (orElse (d_result_summary data)
                          (str "Mission approved by human reviewer."))
                       (set_fail_reason None
                          (set_reviewed_at now
                             (set_status COMPLETED noData))))
                    (Some (ReviewAction reviewAction))
                else
                  Continue
                    (set_fail_reason
                       (Some (orElse (d_reason data)
                                (str "Mission rejected by reviewer.")))
                       (set_reviewed_at now (set_status FAILED noData)))
                    (Some (ReviewAction reviewAction))
            | [] =>
                match planAction with
                | _ :: _ =>
                    if negb (jseq planAction approve || jseq planAction reject)
                    then Throw (BadRequest
                                  (str "planAction must be approve or reject"))
                    else if negb (bool_decide
                                    (m_status mission = WAITING_PLAN_APPROVAL))
                    then Throw (BadRequest
                                  (str "Mission plan is not waiting approval"))
                    else if jseq planAction approve then
                      Continue
                        (set_fail_reason None (set_status EXECUTING noData))
                        (Some (PlanAction planAction))
                    else
                      Continue
                        (set_fail_reason
                           (Some (orElse (d_reason data)
                                    (str "Mission plan rejected by reviewer.")))
                           (set_status FAILED noData))
                        (Some (PlanAction planAction))
                | [] =>
                    if negb (jseq controlAction (str "pause")
                             || jseq controlAction (str "resume")
                             || jseq controlAction (str "input"))
                    then Throw (BadRequest
                                  (str "controlAction must be pause, resume or input"))
                    else if jseq controlAction (str "pause") then
                      if bool_decide (m_status mission ∈ [COMPLETED; FAILED])
                      then Throw (BadRequest (str "Mission is already finished"))
                      else
                        Continue (set_status PAUSED noData)
                                 (Some (ControlAction controlAction))
                    else if jseq controlAction (str "resume") then
                      if negb (bool_decide
                                 (m_status mission ∈ [PAUSED; WAITING_INPUT]))
                      then Throw (BadRequest
                                    (str "Mission is not paused or waiting input"))
                      else
                        Continue (set_status EXECUTING noData)
                                 (Some (ControlAction controlAction))
                    else
                      let message := trim (orEmpty (d_message data)) in
                      match message with
                      | [] =>
                          Throw (BadRequest
                                   (str "message is required for controlAction=input"))
                      | _ :: _ =>
                          Continue
                            (set_status PLANNING
                               (set_latest_agent_question None
                                  (set_latest_user_input (Some message) noData)))
                            (Some (ControlAction controlAction))
                      end
                end
            end
        end
    end.


(** ** The hooks shared by the services (services/js/auth.ts) *)

Record User : Type := mkUser {
  user_id : Z;
  user_role : jsstring;
  defaultProjectId : option Z
}.

(** [context.params]: [provider] is the truthiness of [params.provider]
    (set for calls from outside), [user] the authenticated user. *)
Record Params : Type := mkParams {
  provider : bool;
  user : option User;
  query_projectId : option Z;
  params_projectId : option Z
}.

Definition isExternal (p : Params) : bool := provider p.

Definition isAdmin (p : Params) : bool :=
  match user p with
  | Some u => jseq (user_role u) (str "admin")
  | None => false
  end.

(** [a ?? b] *)
Definition nullish {A : Type} (a b : option A) : option A :=
  match a with
  | Some x => Some x
  | None => b
  end.

Definition truthyId (o : option Z) : option Z :=
  match o with
  | Some z => if (z =? 0)%Z then None else Some z
  | None => None
  end.

(** [applyProjectScope]: the data and the query project it leaves in
    the context. *)
Definition applyProjectScope (method : Method) (p : Params)
    (data_projectId : option Z) : HookError + (option Z * option Z) :=
  let explicitProjectId :=
    nullish (query_projectId p) (nullish (params_projectId p) data_projectId) in
  let projectId :=
    nullish explicitProjectId (user p ≫= defaultProjectId) in
  if bool_decide (method = Create) then
    match truthyId projectId with
    | None => inl (BadRequest (str "Missing project context"))
    | Some _ => inr (projectId, query_projectId p)
    end
  else if negb (isExternal p) || isAdmin p then
    inr (data_projectId, query_projectId p)
  else
    match truthyId projectId with
    | None => inl (BadRequest (str "Missing project context"))
    | Some _ => inr (data_projectId, projectId)
    end.

(** [stampAuditFields] on the data of a missions call. *)
Definition stampAuditFields (method : Method) (p : Params)
    (data : MissionData) : MissionData :=
  match user p with
  | None => data
  | Some u =>
      let d1 := if bool_decide (method = Create)
                then set_updatedBy (user_id u) (set_createdBy (user_id u) data)
                else data in
      if bool_decide (method = Patch) || bool_decide (method = Update)
      then set_updatedBy (user_id u) d1 else d1
  end.

(** ** The tables *)

(** A row of the [jobs] table, with the columns the hooks write. *)
Record JobRow : Type := mkJob {
  job_id : Z;
  job_projectId : Z;
  job_missionId : option Z;
  job_instruction : option jsstring;
  job_type : option jsstring;
  job_status : jsstring;
  job_payload_repo : jsstring;
  job_payload_branch : jsstring;
  job_finished_at : option Z;
  job_updated_at : Z;
  job_createdBy : option Z
}.

Record Store : Type := mkStore {
  missions : list MissionRow;
  jobs : list JobRow;
  next_mission_id : Z;
  next_job_id : Z
}.

Definition with_job_status (status : jsstring) (finished : option Z)
    (at_ms : Z) (j : JobRow) : JobRow :=
  mkJob (job_id j) (job_projectId j) (job_missionId j) (job_instruction j)
    (job_type j) status (job_payload_repo j) (job_payload_branch j)
    (match finished with Some t => Some t | None => job_finished_at j end)
    at_ms (job_createdBy j).

(** [syncMissionJobStatus]: [mission] is [context.result]. *)
Definition syncMissionJobStatus (mission : MissionRow) (now : Z) (s : Store)
    : Store :=
  if (m_id mission =? 0)%Z then s
  else
    let targetJobStatus :=
      match m_status mission with
      | COMPLETED => Some (str "completed")
      | FAILED => Some (str "failed")
      | WAITING_REVIEW => Some (str "waiting_review")
      | WAITING_PLAN_APPROVAL | PAUSED | WAITING_INPUT =>
          Some (str "waiting_review")
      | _ => None
      end in
    match targetJobStatus with
    | None => s
    | Some target =>
        let finished :=
          if jseq target (str "completed") || jseq target (str "failed")
          then Some now else None in
        mkStore (missions s)
          (map (fun j => if bool_decide (job_missionId j = Some (m_id mission))
                         then with_job_status target finished now j else j)
               (jobs s))
          (next_mission_id s) (next_job_id s)
    end.

(** [jobs.create(data, { provider: undefined, user })] with the hooks of
    the jobs service: the project scope refuses a job without a project.
    The new job also starts a mission runner, which is not part of the
    store. *)
Definition createJob (projectId : Z) (missionId : Z) (instruction : jsstring)
    (repo branch : jsstring) (u : option User) (now : Z) (s : Store)
    : option HookError * Store :=
  if (projectId =? 0)%Z
  then (Some (BadRequest (str "Missing project context")), s)
  else
    (None,
     mkStore (missions s)
       (jobs s ++
        [mkJob (next_job_id s) projectId (Some missionId) (Some instruction)
           (Some (str "mission")) (str "pending") repo branch None now
           (user_id <$> u)])
       (next_mission_id s) (next_job_id s + 1)%Z).

(** [enqueueMissionJob]: [mission] is [context.result]. *)
Definition enqueueMissionJob (method : Method) (p : Params)
    (mission : MissionRow) (now : Z) (s : Store) : option HookError * Store :=
  if (m_id mission =? 0)%Z then (None, s)
  else if negb (bool_decide (m_status mission ∈ [PLANNING; QUEUED]))
  then (None, s)
  else
    let existingJobs :=
      filter (fun j => job_missionId j = Some (m_id mission)
                       ∧ (job_status j = str "pending"
                          ∨ job_status j = str "running"))
             (jobs s) in
    if bool_decide (method = Patch) && negb (bool_decide (existingJobs = []))
    then (None, s)
    else
      createJob (m_projectId mission) (m_id mission) (m_goal mission)
        (orEmpty (m_repoUrl mission)) (orEmpty (m_baseBranch mission))
        (user p) now s.

(** The keys of the data that are not columns of the table: the
    database refuses a statement that names one. *)
Definition names_unknown_column (d : MissionData) : bool :=
  bool_decide (is_Some (d_instruction d)) || bool_decide (is_Some (d_reviewAction d))
  || bool_decide (is_Some (d_planAction d))
  || bool_decide (is_Some (d_controlAction d))
  || bool_decide (is_Some (d_reason d)) || bool_decide (is_Some (d_message d)).

(** The columns a patch writes. *)
Definition apply_data (d : MissionData) (m : MissionRow) : MissionRow :=
  mkMissionRow (m_id m)
    (default (m_projectId m) (d_projectId d))
    (default (m_goal m) (d_goal d))
    (default (m_trigger_type m) (d_trigger_type d))
    (default (m_status m) (d_status d))
    (match d_repoUrl d with Some v => Some v | None => m_repoUrl m end)
    (match d_baseBranch d with Some v => Some v | None => m_baseBranch m end)
    (default (m_latest_user_input m) (d_latest_user_input d))
    (default (m_latest_agent_question m) (d_latest_agent_question d))
    (match d_reviewed_at d with Some v => Some v | None => m_reviewed_at m end)
    (default (m_fail_reason m) (d_fail_reason d))
    (match d_result_summary d with
     | Some v => Some v
     | None => m_result_summary m
     end)
    (match d_createdBy d with Some v => Some v | None => m_createdBy m end)
    (match d_updatedBy d with Some v => Some v | None => m_updatedBy m end).

Definition get_mission (id : Z) (s : Store) : option MissionRow :=
  find (fun m => bool_decide (m_id m = id)) (missions s).

(** The row a patch of [id] reaches under the query's project scope. *)
Definition in_scope (scope : option Z) (m : MissionRow) : bool :=
  match scope with
  | Some projectId => bool_decide (m_projectId m = projectId)
  | None => true
  end.

(** [app.service('missions').patch(id, data, params)] with the hooks
    registered in [services/missions/missions.ts]: before
    [applyProjectScope], [stampAuditFields], [enforceMissionReviewAction];
    after [syncMissionJobStatus], [enqueueMissionJob].  The caller has
    passed [requireAuth].  The result is the patched row or the error,
    and the store the call leaves. *)
Definition patchMission (p : Params) (id : Z) (data : MissionData) (now : Z)
    (s : Store) : (HookError + MissionRow) * Store :=
  match applyProjectScope Patch p (d_projectId data) with
  | inl e => (inl e, s)
  | inr (_, scope) =>
      let stamped := stampAuditFields Patch p data in
      match enforceMissionReviewAction Patch (negb (id =? 0)%Z) stamped
              (get_mission id s) now with
      | Throw e => (inl e, s)
      | Continue data' _ =>
          match get_mission id s with
          | None => (inl NotFound, s)
          | Some row =>
              if negb (in_scope scope row) then (inl NotFound, s)
              else if names_unknown_column data' then (inl GeneralError, s)
              else
                let result := apply_data data' row in
                let s1 :=
                  mkStore (map (fun m => if bool_decide (m_id m = id)
                                         then apply_data data' m else m)
                               (missions s))
                          (jobs s) (next_mission_id s) (next_job_id s) in
                let s2 := syncMissionJobStatus result now s1 in
                match enqueueMissionJob Patch p result now s2 with
                | (Some e, s3) => (inl e, s3)
                | (None, s3) => (inr result, s3)
                end
          end
      end
  end.


End MissionHooks.

(* ===================================================================== *)
(** * Finding the sandbox directories of a mission *)
(* ===================================================================== *)

Module SandboxFiles.

(** An entry of [fs.readdir(root, { withFileTypes: true })]. *)
Record Dirent : Type := mkDirent { name : jsstring; isDirectory : bool }.

(** The name [DockerDriver.spawn] gives the sandbox of a mission. *)
Definition instanceIdOf (missionId : Z) (hash uuid8 : jsstring) : jsstring :=
  str "sandbox-" ++ showZ missionId ++ str "-" ++ hash ++ str "-" ++ uuid8.

Section Files.

(** Node's [path.join] and [path.resolve]. *)
Variable path_join : jsstring -> jsstring -> jsstring.
Variable path_resolve : jsstring -> jsstring.

(** The prefix both scans look for: [`sandbox-${missionId}-`]. *)
Definition sandboxPrefix (missionId : Z) : jsstring :=
  str "sandbox-" ++ showZ missionId ++ str "-".

(** [findSandboxDir] (services/projects): [entries] is what [readdir]
    returns, [None] when it throws. *)
Definition findSandboxDir (root : jsstring) (entries : option (list Dirent))
    (missionId : Z) : option jsstring :=
  match entries with
  | Some entries =>
      let prefix := sandboxPrefix missionId in
      (fun entry => path_join root (name entry)) <$>
        find (fun entry => isDirectory entry && startsWith prefix (name entry))
             entries
  | None => None
  end.

(** [collectSandboxPathsFromRoot] (services/missions). *)
Definition collectSandboxPathsFromRoot (root : jsstring)
    (entries : option (list Dirent)) (missionId : Z) : gset (list N) :=
  match entries with
  | Some entries =>
      let prefix := sandboxPrefix missionId in
      list_to_set
        ((fun entry => path_resolve (path_join root (name entry))) <$>
           filter (fun entry => isDirectory entry = true
                                ∧ startsWith prefix (name entry) = true)
                  entries)
  | None => ∅
  end.

End Files.

End SandboxFiles.

(* ===================================================================== *)
(** * ai-provider.ts: which provider answers for a role *)
(* ===================================================================== *)

Module AiProvider.

Inductive AIRole : Type :=
| Planner | Coder | Reviewer | Thinker | Guard | Troubleshooter.

Record RoleOverride : Type := mkRoleOverride {
  role_provider : option jsstring;
  role_model : option jsstring
}.

Record ProviderConfig : Type := mkConfig {
  apiKey : option jsstring;
  model : option jsstring
}.

(** The value of the [ai] setting. *)
Record AISettings : Type := mkAISettings {
  provider : option jsstring;
  openai : option ProviderConfig;
  anthropic : option ProviderConfig;
  google : option ProviderConfig;
  groq : option ProviderConfig;
  roles : option (AIRole -> option RoleOverride)
}.

Inductive ProviderKind : Type := OpenAI | Anthropic | Google | Groq.

(** The provider object: one of the four remote providers, constructed
    with a key and a model, or the static fallback. *)
Inductive AIProvider : Type :=
| Remote (kind : ProviderKind) (key modelName : jsstring)
| StaticFallbackProvider.

Definition DEFAULT_MODELS (kind : ProviderKind) : jsstring :=
  match kind with
  | OpenAI => str "gpt-5.2"
  | Anthropic => str "claude-sonnet-4-20250514"
  | Google => str "gemini-2.5-flash"
  | Groq => str "llama-3.3-70b-versatile"
  end.

(** [a || b] on strings that may be undefined. *)
Definition orElse (a : option jsstring) (b : option jsstring)
    : option jsstring :=
  match a with
  | Some (c :: s) => Some (c :: s)
  | _ => b
  end.

(** The inner [resolve] of [buildProvider]. *)
Definition resolve (modelOverride : option jsstring)
    (cfg : option ProviderConfig) (defaultModel : jsstring)
    : option (jsstring * jsstring) :=
  match trim <$> (cfg ≫= apiKey) with
  | Some (c :: key) =>
      Some (c :: key,
            default []
              (orElse (trim <$> modelOverride)
                 (orElse (trim <$> (cfg ≫= model))
                    (orElse (Some defaultModel) (Some [])))))
  | _ => None
  end.

(** [buildProvider]; [toLowerCase] on the ASCII letters: no other code
    unit lower-cases to a letter of the four names. *)
Definition buildProvider (providerName : jsstring) (settings : AISettings)
    (modelOverride : option jsstring) : option AIProvider :=
  let name := SandboxDriver.toLowerCase providerName in
  let attempt (kind : ProviderKind) (label : jsstring)
          (cfg : option ProviderConfig) (next : option AIProvider) :=
    if jseq name label then
      match resolve modelOverride cfg (DEFAULT_MODELS kind) with
      | Some (key, modelName) => Some (Remote kind key modelName)
      | None => next
      end
    else next in
  attempt OpenAI (str "openai") (openai settings)
    (attempt Anthropic (str "anthropic") (anthropic settings)
       (attempt Google (str "google") (google settings)
          (attempt Groq (str "groq") (groq settings) None))).

(** [getAIProvider], on the settings [readAISettings] returns. *)
Definition getAIProvider (settings : AISettings) : AIProvider :=
  let provider :=
    SandboxDriver.toLowerCase
      (default (str "openai") (orElse (provider settings) None)) in
  match buildProvider provider settings None with
  | Some result => result
  | None => StaticFallbackProvider
  end.

(** [getAIProviderForRole], on the settings [readAISettings] returns. *)
Definition getAIProviderForRole (settings : AISettings) (role : AIRole)
    : AIProvider :=
  let roleOverride := roles settings ≫= (fun r => r role) in
  let fromRoleProvider :=
    match orElse (roleOverride ≫= role_provider) None with
    | Some roleProviderName =>
        buildProvider roleProviderName settings (roleOverride ≫= role_model)
    | None => None
    end in
  match fromRoleProvider with
  | Some roleProvider => roleProvider
  | None =>
      let fromRoleModel :=
        match orElse (roleOverride ≫= role_model) None with
        | Some roleModel =>
            let globalProvider :=
              SandboxDriver.toLowerCase
                (default (str "openai") (orElse (provider settings) None)) in
            buildProvider globalProvider settings (Some roleModel)
        | None => None
        end in
      match fromRoleModel with
      | Some result => result
      | None => getAIProvider settings
      end
  end.

End AiProvider.

(* ===================================================================== *)
(** * Notions the properties below are stated with *)
(* ===================================================================== *)

Module CaseDefs.

(** Two code units that differ at most in the case of an ASCII letter. *)
Definition same_letter (c c' : N) : Prop := canon true c = canon true c'.

Definition is_letter (c : N) : bool :=
  ((97 <=? c) && (c <=? 122)) || ((65 <=? c) && (c <=? 90)).

Definition range_letter_free (r : N * N) : bool :=
  let '(lo, hi) := r in
  ((hi <? 65) || (90 <? lo)) && ((hi <? 97) || (122 <? lo)) .

(** A pattern without letters (for a pattern without the [i] flag). *)
Fixpoint letter_free (r : regex) : bool :=
  match r with
  | Chr c => negb (is_letter c)
  | Cls _ rs => forallb range_letter_free rs
  | Seq a b | Alt a b => letter_free a && letter_free b
  | Star a | NegLook a | Cap a => letter_free a
  | _ => true
  end.

Definition case_blind (re : RegExp) : bool :=
  ignoreCase re || letter_free (source re).

Definition st_rel (a b : mstate) : Prop :=
  Forall2 same_letter (m_prev a) (m_prev b)
  ∧ Forall2 same_letter (m_rest a) (m_rest b)
  ∧ option_Forall2 (Forall2 same_letter) (m_cap a) (m_cap b).

Definition res_rel : option mstate → option mstate → Prop :=
  option_Forall2 st_rel.

Definition k_rel (k k' : mstate → option mstate) : Prop :=
  ∀ a a', st_rel a a' → res_rel (k a) (k' a').

(** The loop of [*], named. *)
Fixpoint star_loop (body : mstate → (mstate → option mstate) → option mstate)
    (k : mstate → option mstate) (fuel : nat) (st0 : mstate) : option mstate :=
  match fuel with
  | O => k st0
  | S f =>
      match body st0 (fun st' =>
              if (length (m_rest st') <? length (m_rest st0))%nat
              then star_loop body k f st' else None) with
      | Some e => Some e
      | None => k st0
      end
  end.

End CaseDefs.

Module WorkerDefs.
Import Utils MissionWorker.

(** The request [attemptExecution] sends to the sandbox for a step. *)
Definition sandboxCallOf (step : StepRow) (command : jsstring)
    (timeoutMs : Z) : SandboxCall :=
  match truthyB (background step), truthyS (ready_pattern step) with
  | true, Some p => Call_backgroundCommand command p timeoutMs
  | _, _ => Call_command command (Some timeoutMs)
  end.

(** The time the sandbox takes for the requests numbered [n] to [n + k]. *)
Definition attemptsElapsed (E : Env) (call : SandboxCall) (n k : nat) : Z :=
  foldr Z.add 0%Z ((fun i => Z.of_N (elapsed (sandbox E i call))) <$> seq n (S k)).

(** The sum of the per-role entries of a token usage table. *)
Definition usage_sum (t : list (jsstring * Usage)) : Usage :=
  foldr (fun kv acc => if jseq (fst kv) (str "total") then acc
                       else bump (snd kv) acc)
        (mkUsage 0 0 0) t.

(** A table with distinct keys whose [total] entry is the sum of the
    other entries. *)
Definition usage_consistent (t : list (jsstring * Usage)) : Prop :=
  NoDup (fst <$> t) ∧ (str "total", usage_sum t) ∈ t.





End WorkerDefs.

Module ShellDefs.

(** A string with every [q] replaced by [repl]. *)
Definition subst1 (q : N) (repl : jsstring) (s : jsstring) : jsstring :=
  flat_map (fun c => if c =? q then repl else [c]) s.

End ShellDefs.

Module SandboxMoreDefs.
Import Utils SandboxDriver.

(** The text the stream carries on one channel, in order. *)
Definition stdout_of (events : list (Z * StreamEvent)) : jsstring :=
  flat_map (fun te => match snd te with Stdout text => text | _ => [] end)
           events.
Definition stderr_of (events : list (Z * StreamEvent)) : jsstring :=
  flat_map (fun te => match snd te with Stderr text => text | _ => [] end)
           events.

(** An event that settles the promise of [command]. *)
Definition closes (e : StreamEvent) : bool :=
  match e with
  | End | Error _ => true
  | _ => false
  end.

(** The proper ancestors of a POSIX path, the root directory apart: the
    prefixes that end just before a separator. *)
Fixpoint ancestors_from (pre rest : jsstring) : list jsstring :=
  match rest with
  | [] => []
  | c :: rest' =>
      (match pre with
       | [] => []
       | _ => if (c =? 47)%N then [pre] else []
       end)
      ++ ancestors_from (pre ++ [c]) rest'
  end.

Definition ancestors (p : jsstring) : list jsstring := ancestors_from [] p.

(** [fs.mkdir(p, { recursive: true })], when it succeeds: the directory
    is there afterwards, and so is every ancestor that was missing. *)
Definition mkdir_p (p : jsstring) (ds : gset (list N)) : gset (list N) :=
  {[p]} ∪ list_to_set (ancestors p) ∪ ds.

(** The log text of the chunks among the given events, in order. *)
Definition chunks_of (events : list (Z * BackgroundEvent)) : jsstring :=
  flat_map (fun te => match snd te with Chunk text => text | _ => [] end)
           events.

End SandboxMoreDefs.

Module IsolationDefs.
Import Utils MissionWorker.

(** What a stage working on mission [mid] with the steps [ids] may do to
    the store: patch the row of the mission, patch the rows of those
    steps, and append logs of the mission.  No row is added or removed,
    and no row keeps its place with another id or mission. *)
Definition confined (mid : Z) (ids : list Z) (w w' : World) : Prop :=
  Forall2 (fun m m' => mission_id m' = mission_id m
                       ∧ (mission_id m ≠ mid → m' = m))
          (missions w) (missions w')
  ∧ Forall2 (fun r r' => id r' = id r ∧ missionId r' = missionId r
                         ∧ (id r ∉ ids → r' = r))
            (mission_steps w) (mission_steps w')
  ∧ (∃ added, mission_logs w' = mission_logs w ++ added
              ∧ Forall (fun entry => log_missionId entry = mid) added)
  ∧ next_step_id w' = next_step_id w
  ∧ commandGuard w' = commandGuard w.

End IsolationDefs.

Module HookDefs.
Import MissionWorker MissionHooks.

(** The status moves an action of a patch can make. *)
Definition action_moves (from to : MissionStatus) : bool :=
  match to with
  | COMPLETED => bool_decide (from = WAITING_REVIEW)
  | FAILED => bool_decide (from ∈ [WAITING_REVIEW; WAITING_PLAN_APPROVAL])
  | EXECUTING => bool_decide (from ∈ [WAITING_PLAN_APPROVAL; PAUSED; WAITING_INPUT])
  | PAUSED => negb (bool_decide (from ∈ [COMPLETED; FAILED]))
  | PLANNING => true
  | _ => false
  end.

(** A patch names an action when one of the three action keys holds a
    non-empty string. *)
Definition names_action (d : MissionData) : Prop :=
  orEmpty (d_reviewAction d) ≠ [] ∨ orEmpty (d_planAction d) ≠ []
  ∨ orEmpty (d_controlAction d) ≠ [].


(** The request [{ status }] of the worker's [patchMissionStatus]. *)
Definition statusPatch (status : MissionStatus) : MissionData :=
  set_status status noData.

Record action_data (old : MissionRow) (d : MissionData) : Prop := {
  ad_status : ∃ st, d_status d = Some st ∧ action_moves (m_status old) st = true;
  ad_projectId : d_projectId d = None;
  ad_goal : d_goal d = None;
  ad_trigger_type : d_trigger_type d = None;
  ad_repoUrl : d_repoUrl d = None;
  ad_baseBranch : d_baseBranch d = None;
  ad_createdBy : d_createdBy d = None;
  ad_updatedBy : d_updatedBy d = None;
  ad_columns : names_unknown_column d = false
}.

(** The project a call resolves to: the query's, else the params', else
    the data's, else the user's default. *)
Definition resolvedProject (p : Params) (data : MissionData) : option Z :=
  nullish (query_projectId p)
    (nullish (params_projectId p)
       (nullish (d_projectId data) (user p ≫= defaultProjectId))).

End HookDefs.

Module NameDefs.
Import SandboxFiles.

Definition is_digit_unit (c : N) : Prop := 48 <= c <= 57.

(** The number a string of decimal digits stands for. *)
Definition decimal (s : jsstring) : N :=
  fold_left (fun a c => 10 * a + (c - 48)) s 0.

(** An entry of a sandbox root that, when a directory, is a sandbox
    that [spawn] made. *)
Definition spawned (entry : Dirent) : Prop :=
  isDirectory entry = true →
  ∃ m hash uuid8, (0 <= m)%Z ∧ name entry = instanceIdOf m hash uuid8.

End NameDefs.

Module AiDefs.
Import AiProvider.

(** The settings of a provider, and the provider a name stands for. *)
Definition config_of (kind : ProviderKind) (settings : AISettings)
    : option ProviderConfig :=
  match kind with
  | OpenAI => openai settings
  | Anthropic => anthropic settings
  | Google => google settings
  | Groq => groq settings
  end.

Definition kind_of_name (name : jsstring) : option ProviderKind :=
  if jseq name (str "openai") then Some OpenAI
  else if jseq name (str "anthropic") then Some Anthropic
  else if jseq name (str "google") then Some Google
  else if jseq name (str "groq") then Some Groq
  else None.

End AiDefs.

(* ===================================================================== *)
(** * Sample inputs *)
(* ===================================================================== *)

Module Samples.

Import CommandGuard.

(** A [RegExp] constructor that rejects every source, and one under
    which every source behaves as the pattern [foo]. *)
Definition noRegExp : jsstring -> jsstring -> option bool := fun _ _ => None.
Definition fooRegExp : jsstring -> jsstring -> option bool :=
  fun _ text => Some (test (mkRegExp (lit "foo") true) text).

(** Guard models: one that approves, one that refuses, one that is down. *)
Definition approving : jsstring -> bool -> AiOutcome :=
  fun _ _ => AiObject true (str "fine").
Definition refusing : jsstring -> bool -> AiOutcome :=
  fun _ _ => AiObject false (str "too risky").
Definition offline : jsstring -> bool -> AiOutcome :=
  fun _ _ => AiThrows None.

(** [{ aiReview: true }] and [{ customDenyPatterns: ['foo'] }]. *)
Definition withAiReview : option CommandGuardSettings :=
  Some (mkSettings None None None None None None None None (Some true)).
Definition withCustomDeny : option CommandGuardSettings :=
  Some (mkSettings None None None None None None (Some [str "foo"]) None None).

Definition unquotedHeredoc (X : jsstring) : jsstring :=
  str "cat > f <<E" ++ nl :: X ++ nl :: str "E".

(** The [npm-start] entry of the rule table. *)
Definition npm_start_rule : DenyRule :=
  default (mkRule [] BlockHanging (re_i Eps) []) (DENY_RULES !! 7%nat).


(** A sandbox whose answers depend on the command: [false] exits 1,
    [echo big] and [echo exact] print one unit more than, and exactly,
    the tail limits, [flaky] fails to start twice before it succeeds;
    background commands time out. *)
Definition sampleSandbox (n : nat) (c : MissionWorker.SandboxCall)
    : MissionWorker.SandboxReply :=
  match c with
  | MissionWorker.Call_command cmd _ =>
      if jseq cmd (str "false") then
        MissionWorker.mkReply
          (Utils.Resolved (MissionWorker.mkExec [] (str "boom") 1)) 5
      else if jseq cmd (str "echo big") then
        MissionWorker.mkReply
          (Utils.Resolved
             (MissionWorker.mkExec
                (replicate (S MissionWorker.STDOUT_TAIL_LENGTH) 97)
                (replicate (S MissionWorker.STDERR_TAIL_LENGTH) 98) 0)) 5
      else if jseq cmd (str "echo exact") then
        MissionWorker.mkReply
          (Utils.Resolved
             (MissionWorker.mkExec
                (replicate MissionWorker.STDOUT_TAIL_LENGTH 97)
                (replicate MissionWorker.STDERR_TAIL_LENGTH 98) 0)) 5
      else if jseq cmd (str "flaky") then
        if (n <? 2)%nat
        then MissionWorker.mkReply (Utils.Rejected (str "socket hang up")) 10
        else MissionWorker.mkReply
               (Utils.Resolved (MissionWorker.mkExec (str "ok") [] 0)) 10
      else
        MissionWorker.mkReply
          (Utils.Resolved (MissionWorker.mkExec (str "ok") [] 0)) 7
  | MissionWorker.Call_backgroundCommand _ _ t =>
      MissionWorker.mkReply (Utils.Rejected (str "Timeout")) (Z.to_N t)
  end.

Definition sampleEnv : MissionWorker.Env :=
  MissionWorker.mkEnv noRegExp offline sampleSandbox
    (fun _ _ => Utils.Rejected (str "ENOENT"))
    (fun _ => Utils.Resolved (str "echo generated", MissionWorker.mkUsage 1 2 3)).

(** Mission 1 of project 1, executing. *)
Definition mission1 : MissionWorker.MissionRecord :=
  MissionWorker.mkMission 1 1 (str "create a simple nodejs helloworld api")
    MissionWorker.EXECUTING None None [].

(** A pending step of mission 1 as [createStepsFromPlan] stores it. *)
Definition pendingStep (i : Z) (cmd : string) (retryable : bool)
    : MissionWorker.StepRow :=
  MissionWorker.mkStep i 1 1 i (str "step") (Some (str cmd))
    MissionWorker.STEP_PENDING None None (Some 0%Z)
    (Some (if retryable then 2 else 0)%Z) (Some retryable) (Some 300000%Z)
    None None None None None (Some false) None.

Definition worldWith (steps : list MissionWorker.StepRow)
    : MissionWorker.World :=
  MissionWorker.mkWorld [mission1] steps [] 10 ∅ 1000 0.

Definition local0 : MissionWorker.Local :=
  MissionWorker.mkLocal [(str "total", MissionWorker.mkUsage 0 0 0)] None.

(** A wave whose first step fails, one whose first step is destructive,
    and single steps with long, exact-length and flaky executions. *)
Definition failingWorld : MissionWorker.World :=
  worldWith [pendingStep 1 "false" false; pendingStep 2 "echo ok" false].
Definition destructiveWorld : MissionWorker.World :=
  worldWith [pendingStep 1 "rm -rf /" false; pendingStep 2 "echo ok" false].
Definition flakyWorld : MissionWorker.World :=
  worldWith [pendingStep 1 "flaky" true].

(** A mission with history: step 1 done, step 2 failed, steps 3 and 4
    still pending; and a new plan of two steps. *)
Definition withStatus (st : MissionWorker.StepStatus)
    (r : MissionWorker.StepRow) : MissionWorker.StepRow :=
  MissionWorker.assign (MissionWorker.Set_status st) r.

Definition historyWorld : MissionWorker.World :=
  worldWith [withStatus MissionWorker.STEP_DONE (pendingStep 1 "npm init" false);
             withStatus MissionWorker.STEP_FAILED (pendingStep 2 "npm test" false);
             pendingStep 3 "npm run build" false;
             pendingStep 4 "git diff" false].

Definition newPlan : list MissionWorker.PlanStep :=
  [MissionWorker.mkPlanStep (str "set up TypeScript") None None None None None;
   MissionWorker.mkPlanStep (str "produce final diff") None (Some 60000%Z)
     (Some true) None None].

(** A POSIX [path] module without normalisation, a home directory and
    a backend root. *)
Definition posix_join (a b : jsstring) : jsstring := a ++ str "/" ++ b.
Definition posix_relative (from to : jsstring) : jsstring :=
  drop (S (length from)) to.
Definition posix_isAbsolute (p : jsstring) : bool := startsWith (str "/") p.
Definition home : jsstring := str "/home/openjules".
Definition backend : jsstring := str "/srv/openjules/apps/backend".

(** No environment variable set, no [execution] setting stored. *)
Definition noEnv : SandboxDriver.ProcessEnv :=
  SandboxDriver.mkProcessEnv None None.
Definition noExecution : SandboxDriver.ExecutionSettings :=
  SandboxDriver.mkExecution None None.

(** [persistSandbox: false] in the settings, and
    [OPENJULES_SANDBOX_PERSIST=true] in the environment. *)
Definition noPersistExecution : SandboxDriver.ExecutionSettings :=
  SandboxDriver.mkExecution None (Some false).
Definition persistEnv : SandboxDriver.ProcessEnv :=
  SandboxDriver.mkProcessEnv None (Some (str "true")).

Definition emptyDriver : SandboxDriver.DockerDriver :=
  SandboxDriver.mkDriver ∅ ∅.
Definition emptyHost : SandboxDriver.Host := SandboxDriver.mkHost ∅ ∅.

(** Spawn for mission 7, then tear the instance down. *)
Definition spawnThenTeardown (execution : SandboxDriver.ExecutionSettings)
    (env : SandboxDriver.ProcessEnv) : jsstring * SandboxDriver.Host :=
  let '(instance, d, h) :=
    SandboxDriver.spawn home backend posix_join posix_isAbsolute execution env
      7 (str "0a1b2c3d") (str "4e5f6a7b") (str "node:20-bookworm-slim") 1
      emptyDriver emptyHost in
  (SandboxDriver.workspacePath instance,
   (SandboxDriver.teardown env (SandboxDriver.inst_id instance) d h).2).

(** A host that holds the default sandbox root under [home], with the
    directories above it, and nothing else. *)
Definition rootHost : SandboxDriver.Host :=
  SandboxDriver.mkHost
    (list_to_set [str "/home"; str "/home/openjules";
                  str "/home/openjules/.openjules";
                  str "/home/openjules/.openjules/sandboxes"]) ∅.

Definition sampleInstance : SandboxDriver.Instance :=
  SandboxDriver.mkInstance (str "sandbox-7-0a1b2c3d-4e5f6a7b")
    (str "/tmp/sandboxes/sandbox-7-0a1b2c3d-4e5f6a7b")
    (str "/tmp/sandboxes/sandbox-7-0a1b2c3d-4e5f6a7b/repo")
    1 (str "node:20-bookworm-slim") (str "sh").

(** A host on which a command prints a line and ends after a minute,
    and one on which it prints a line and never ends. *)
Definition slowHost : list jsstring -> jsstring -> SandboxDriver.Exec :=
  fun _ _ =>
    SandboxDriver.mkExecHandle
      [(10%Z, SandboxDriver.Stdout (str "working")); (60000%Z, SandboxDriver.End)]
      (Some 0%Z).
Definition hangingHost : list jsstring -> jsstring -> SandboxDriver.Exec :=
  fun _ _ =>
    SandboxDriver.mkExecHandle [(10%Z, SandboxDriver.Stdout (str "working"))]
      None.

End Samples.

(* ===================================================================== *)
(** * More sample inputs *)
(* ===================================================================== *)

Module MoreSamples.

Import MissionWorker MissionHooks SandboxFiles AiProvider.

(** A background step of mission 1 that waits for [listening]. *)
Definition backgroundStep : MissionWorker.StepRow :=
  MissionWorker.mkStep 1 1 1 1 (str "start server") (Some (str "npm start"))
    MissionWorker.STEP_PENDING None None (Some 0%Z) (Some 2%Z) (Some true)
    (Some 5000%Z) None None None None None (Some true)
    (Some (str "listening")).

(** A host on which every command ends at once with exit code 0. *)
Definition quickHost : list jsstring -> jsstring -> SandboxDriver.Exec :=
  fun _ _ => SandboxDriver.mkExecHandle [(5%Z, SandboxDriver.End)] (Some 0%Z).

(** A [RegExp] constructor under which every pattern is [listening]. *)
Definition listeningRegExp : jsstring -> Utils.Settled (jsstring -> bool) :=
  fun _ => Utils.Resolved (includes (str "listening")).

(** A server that logs chunks and is seen alive in between. *)
Definition serverLog : list (Z * SandboxDriver.BackgroundEvent) :=
  [(100%Z, SandboxDriver.Chunk (str "starting "));
   (500%Z, SandboxDriver.PidCheck (Utils.Resolved 0%Z));
   (900%Z, SandboxDriver.Chunk (str "listening on 3000"));
   (950%Z, SandboxDriver.Chunk (str "GET /"))].

(** Mission 2 of project 1, with one pending step, beside mission 1
    and its failing wave. *)
Definition mission2 : MissionWorker.MissionRecord :=
  MissionWorker.mkMission 2 1 (str "add a health check")
    MissionWorker.EXECUTING None None [].
Definition otherStep : MissionWorker.StepRow :=
  MissionWorker.mkStep 3 1 2 1 (str "step") (Some (str "echo other"))
    MissionWorker.STEP_PENDING None None (Some 0%Z) (Some 0%Z) (Some false)
    (Some 300000%Z) None None None None None (Some false) None.
Definition twoMissionWorld : MissionWorker.World :=
  MissionWorker.mkWorld [Samples.mission1; mission2]
    [Samples.pendingStep 1 "false" false; otherStep;
     Samples.pendingStep 2 "echo ok" false] [] 10 ∅ 1000 0.


(** A member of project 1 calling from outside, and one of project 2. *)
Definition member1 : Params :=
  mkParams true (Some (mkUser 5 (str "member") (Some 1%Z))) None None.
Definition member2 : Params :=
  mkParams true (Some (mkUser 6 (str "member") (Some 2%Z))) None None.

(** Mission 1 of project 1 in a given status, created by user 4. *)
Definition missionRow (status : MissionStatus) : MissionRow :=
  mkMissionRow 1 1 (str "create a simple nodejs helloworld api") (str "manual")
    status None None None None None None None (Some 4%Z) (Some 4%Z).

(** The job of mission 1, in a given status. *)
Definition jobRow (status : jsstring) : JobRow :=
  mkJob 1 1 (Some 1%Z) (Some (str "create a simple nodejs helloworld api"))
    (Some (str "mission")) status [] [] None 0 (Some 4%Z).

(** A store with mission 1 and its job, and an empty one. *)
Definition storeWith (status : MissionStatus) (job : jsstring) : Store :=
  mkStore [missionRow status] [jobRow job] 2 2.

(** The requests [{ reviewAction: 'approve' }] and [{ goal }]. *)
Definition approveReview : MissionData :=
  mkData None None None None None None None None None None None None None None
         (Some (str "approve")) None None None None.


(** A sandbox root with the sandboxes of missions 12 and 1 and a file. *)
Definition rootEntries : list Dirent :=
  [mkDirent (instanceIdOf 12 (str "0a1b2c3d") (str "4e5f6a7b")) true;
   mkDirent (str "notes.txt") false;
   mkDirent (instanceIdOf 1 (str "99887766") (str "55443322")) true].

(** The per-role overrides with a planner that asks for a model of
    Anthropic, and settings that hold a key for OpenAI only. *)
Definition plannerOverride : RoleOverride :=
  mkRoleOverride (Some (str "anthropic")) (Some (str "claude-opus")).
Definition plannerOnly (role : AIRole) : option RoleOverride :=
  match role with
  | Planner => Some plannerOverride
  | _ => None
  end.
Definition openaiOnly : AISettings :=
  mkAISettings (Some (str "openai"))
    (Some (mkConfig (Some (str " sk-test ")) None)) None None None
    (Some plannerOnly).




End MoreSamples.

(* ===================================================================== *)
(** * Properties of the command guard *)
(* ===================================================================== *)

Module GuardFacts.

Import CommandGuard.







Lemma find_app_or {A : Type} (f : A → bool) (l1 l2 : list A) :
  find f (l1 ++ l2) =
  match find f l1 with Some x => Some x | None => find f l2 end.
Proof. induction l1 as [|a l1 IH]; simpl; [done|]. destruct (f a); done. Qed.

Lemma find_all_false {A : Type} (f : A → bool) (l : list A) :
  Forall (fun x => f x = false) l → find f l = None.
Proof. induction 1 as [|a l Ha _ IH]; simpl; [done|]. by rewrite Ha. Qed.

Lemma find_exists {A : Type} (f : A → bool) (l : list A) (x : A) :
  x ∈ l → f x = true → ∃ y, find f l = Some y ∧ y ∈ l ∧ f y = true.
Proof.
  induction 1 as [x l|x a l _ IH]; simpl; intros Hx.
  - rewrite Hx. exists x. split; [done|]. split; [left|done].
  - destruct (f a) eqn:Ha.
    + exists a. split; [done|]. split; [left|done].
    + destruct (IH Hx) as (y & Hy & Hin & Hfy). exists y.
      split; [done|]. split; [by right|done].
Qed.

Lemma find_fires {A : Type} (f : A → bool) (l : list A) (y : A) :
  find f l = Some y → y ∈ l ∧ f y = true.
Proof.
  induction l as [|a l IH]; simpl; [done|].
  destruct (f a) eqn:Ha.
  - intros [= <-]. split; [left|done].
  - intros H. destruct (IH H). split; [by right|done].
Qed.

Lemma DENY_RULES_blocks :
  DENY_RULES = destructive_block ++ hanging_block ++ remaining_block.
Proof. reflexivity. Qed.

Lemma destructive_block_category :
  Forall (fun r => category r = BlockDestructive) destructive_block.
Proof. compute_done. Qed.

Lemma hanging_block_category :
  Forall (fun r => category r = BlockHanging) hanging_block.
Proof. compute_done. Qed.

Lemma remaining_block_category :
  Forall (fun r => category r ≠ BlockHanging
                   ∧ category r ≠ BlockDestructive) remaining_block.
Proof. compute_done. Qed.

Lemma category_eqb_eq (a b : Category) : category_eqb a b = true ↔ a = b.
Proof. destruct a, b; simpl; split; (done || discriminate). Qed.

(** With no destructive rule firing and some hanging rule firing, the
    first rule of the table that fires is a hanging rule. *)
Lemma first_fired_is_hanging (f : DenyRule → bool) (r : DenyRule) :
  (∀ d, d ∈ DENY_RULES → category d = BlockDestructive → f d = false) →
  r ∈ DENY_RULES → category r = BlockHanging → f r = true →
  ∃ r', find f DENY_RULES = Some r' ∧ category r' = BlockHanging.
Proof.
  intros Hd Hr Hcat Hf.
  assert (Hnone : find f destructive_block = None).
  { apply find_all_false. apply Forall_forall. intros d Hin.
    apply Hd.
    - rewrite DENY_RULES_blocks. apply elem_of_app. by left.
    - by apply (proj1 (Forall_forall _ _) destructive_block_category). }
  assert (Hin : r ∈ hanging_block).
  { rewrite DENY_RULES_blocks in Hr.
    apply elem_of_app in Hr as [Hr|Hr].
    - apply (proj1 (Forall_forall _ _) destructive_block_category) in Hr.
      congruence.
    - apply elem_of_app in Hr as [Hr|Hr]; [done|].
      apply (proj1 (Forall_forall _ _) remaining_block_category) in Hr.
      by destruct Hr. }
  destruct (find_exists f hanging_block r Hin Hf) as (y & Hy & Hyin & _).
  exists y. split.
  - rewrite DENY_RULES_blocks, find_app_or, Hnone, find_app_or, Hy. done.
  - by apply (proj1 (Forall_forall _ _) hanging_block_category).
Qed.


(** With [isBackground] set no hanging rule fires, so no verdict is a
    promotion to background. *)
Lemma background_never_promoted
    (compile : jsstring → jsstring → option bool) (model : jsstring → bool → AiOutcome)
    (cg : option CommandGuardSettings) (command : jsstring) :
  promotedToBackground (guardCommand compile model cg command true) = None.
Proof.
  unfold guardCommand.
  destruct (negb (r_enabled (resolveGuardSettings cg))); [done|].
  destruct (find _ (r_customAllowPatterns _)); [done|].
  destruct (find (rule_fires _ true _) DENY_RULES) as [r|] eqn:Hfind.
  - apply find_fires in Hfind as [_ Hf]. unfold rule_fires in Hf.
    unfold rule_verdict.
    destruct (category_eqb (category r) BlockHanging) eqn:Hc; [|done].
    simpl in Hf. rewrite andb_false_r in Hf. done.
  - destruct (find _ (r_customDenyPatterns _)); [done|].
    destruct (r_aiReview _); [|done].
    destruct (negb _); done.
Qed.

(** C4, as the code has it: when the guard is on, no allow pattern
    matches, hanging rules are enabled, the step is not a background step,
    some hanging rule matches the command (quotes and quoted heredoc bodies
    stripped) and no destructive rule fires before it, the verdict is
    allowed, promoted to background, with the ready pattern guessed from the
    trimmed command; for [npm start] the guess is the fallback
    [listening on|ready|started|running]; and on a background step the
    same command is never promoted. *)
Theorem hanging_hit_promotes
    (compile : jsstring → jsstring → option bool) (model : jsstring → bool → AiOutcome)
    (cg : option CommandGuardSettings) (command : jsstring) (r : DenyRule) :
  r_enabled (resolveGuardSettings cg) = true →
  find (fun raw => custom_test compile raw (trim command))
       (r_customAllowPatterns (resolveGuardSettings cg)) = None →
  r_blockHanging (resolveGuardSettings cg) = true →
  (∀ d, d ∈ DENY_RULES → category d = BlockDestructive →
        rule_fires (resolveGuardSettings cg) false (trim command) d = false) →
  r ∈ DENY_RULES →
  category r = BlockHanging →
  test (pattern r) (stripQuotedStrings (stripHeredocBodies (trim command)))
    = true →
  (allowed (guardCommand compile model cg command false) = true
   ∧ promotedToBackground (guardCommand compile model cg command false)
     = Some true
   ∧ suggestedReadyPattern (guardCommand compile model cg command false)
     = Some (guessReadyPattern (trim command)))
  ∧ guessReadyPattern (str "npm start")
    = str "listening on|ready|started|running"
  ∧ promotedToBackground (guardCommand compile model cg command true) = None.
Proof.
  intros Hen Hallow Hhang Hdestr Hr Hcat Htest.
  split; [|split; [by vm_compute | apply background_never_promoted]].
  assert (Hf : rule_fires (resolveGuardSettings cg) false (trim command) r
               = true).
  { unfold rule_fires. rewrite Hcat. simpl. rewrite Hhang. simpl. exact Htest. }
  destruct (first_fired_is_hanging _ r Hdestr Hr Hcat Hf) as (r' & Hfind & Hc').
  unfold guardCommand. rewrite Hen. change (negb true) with false. cbv iota.
  rewrite Hallow, Hfind.
  unfold rule_verdict. rewrite (proj2 (category_eqb_eq _ _) Hc'). done.
Qed.

(** C8, as the code has it: the verdict is a function of the command,
    the background flag, the settings and, when [aiReview] is on, of what
    the guard model answers about the trimmed command. *)
Theorem verdict_determined
    (compile : jsstring → jsstring → option bool)
    (model1 model2 : jsstring → bool → AiOutcome)
    (cg : option CommandGuardSettings) (command : jsstring)
    (isBackground : bool) :
  r_aiReview (resolveGuardSettings cg) = false
  ∨ model1 (trim command) isBackground = model2 (trim command) isBackground →
  guardCommand compile model1 cg command isBackground
  = guardCommand compile model2 cg command isBackground.
Proof.
  intros H. unfold guardCommand.
  destruct (negb (r_enabled (resolveGuardSettings cg))); [done|].
  destruct (find _ (r_customAllowPatterns _)); [done|].
  destruct (find (rule_fires _ _ _) DENY_RULES); [done|].
  destruct (find _ (r_customDenyPatterns _)); [done|].
  destruct (r_aiReview (resolveGuardSettings cg)) eqn:Hai; [|done].
  destruct H as [H|H]; [discriminate|]. by rewrite H.
Qed.


Lemma startsWith_app (p x : jsstring) : startsWith p (p ++ x) = true.
Proof. induction p as [|a p IH]; simpl; [done|]. by rewrite N.eqb_refl. Qed.

Lemma jseq_true (a b : jsstring) : jseq a b = true → a = b.
Proof. unfold jseq. intros H. by apply bool_decide_eq_true_1 in H. Qed.

Lemma rule_ids_determine_category :
  Forall (fun r => Forall (fun r' => id r' = id r → category r' = category r)
                          DENY_RULES) DENY_RULES.
Proof. compute_done. Qed.

Lemma rule_ids_not_custom :
  Forall (fun r => startsWith (str "custom:") (id r) = false) DENY_RULES.
Proof. compute_done. Qed.

Lemma rule_ids_not_ai_review (c : Category) :
  existsb (fun r => category_eqb (category r) c && jseq (id r) (str "ai-review"))
          DENY_RULES = false.
Proof. destruct c; vm_compute; reflexivity. Qed.

(** A verdict built from a table rule names that rule's category only. *)
Lemma rule_verdict_deniedBy (c : Category) (trimmed : jsstring) (r : DenyRule) :
  r ∈ DENY_RULES → category r ≠ c →
  deniedBy c (rule_verdict trimmed r) = false.
Proof.
  intros Hin Hne. unfold deniedBy, rule_verdict.
  destruct (category_eqb (category r) BlockHanging); [done|].
  cbn [allowed rule negb andb].
  destruct (existsb _ DENY_RULES) eqn:He; [|done].
  apply existsb_exists in He as (r' & Hin' & Hb).
  apply andb_true_iff in Hb as [Hc Hid].
  apply category_eqb_eq in Hc. apply jseq_true in Hid.
  apply list_elem_of_In in Hin'.
  pose proof (proj1 (Forall_forall _ _) rule_ids_determine_category r Hin) as H.
  pose proof (proj1 (Forall_forall _ _) H r' Hin' Hid). congruence.
Qed.

Lemma custom_rule_deniedBy (c : Category) (raw : jsstring) (v : GuardVerdict) :
  rule v = Some (str "custom:" ++ raw) → deniedBy c v = false.
Proof.
  intros Hr. unfold deniedBy. rewrite Hr.
  destruct (existsb _ DENY_RULES) eqn:He; [|by rewrite andb_false_r].
  apply existsb_exists in He as (r' & Hin' & Hb).
  apply andb_true_iff in Hb as [_ Hid]. apply jseq_true in Hid.
  apply list_elem_of_In in Hin'.
  pose proof (proj1 (Forall_forall _ _) rule_ids_not_custom r' Hin') as H.
  cbv beta in H. rewrite Hid, startsWith_app in H. discriminate.
Qed.

























(** The same body in the unquoted form is denied by [backtick-injection]. *)
Lemma unquoted_heredoc_backticks_denied :
  rule (guardCommand Samples.noRegExp Samples.offline None
          (Samples.unquotedHeredoc (str "`id`")) false)
  = Some (str "backtick-injection")
  ∧ deniedBy BlockShellInjection
      (guardCommand Samples.noRegExp Samples.offline None
         (Samples.unquotedHeredoc (str "`id`")) false) = true.
Proof. split; vm_compute; reflexivity. Qed.


Lemma npm_start_rule_in_table : Samples.npm_start_rule ∈ DENY_RULES.
Proof. apply (list_elem_of_lookup_2 _ 7%nat). reflexivity. Qed.

(** [hanging_hit_promotes] at [npm start] under the default settings. *)
Lemma hanging_hit_promotes_npm_start :
  (allowed (guardCommand Samples.noRegExp Samples.offline None
              (str "npm start") false) = true
   ∧ promotedToBackground (guardCommand Samples.noRegExp Samples.offline None
                             (str "npm start") false) = Some true
   ∧ suggestedReadyPattern (guardCommand Samples.noRegExp Samples.offline None
                              (str "npm start") false)
     = Some (guessReadyPattern (trim (str "npm start"))))
  ∧ guessReadyPattern (str "npm start")
    = str "listening on|ready|started|running"
  ∧ promotedToBackground (guardCommand Samples.noRegExp Samples.offline None
                            (str "npm start") true) = None.
Proof.
  apply (hanging_hit_promotes Samples.noRegExp Samples.offline None
           (str "npm start") Samples.npm_start_rule).
  - reflexivity.
  - reflexivity.
  - reflexivity.
  - apply (proj1 (Forall_forall
             (fun d => category d = BlockDestructive →
                       rule_fires (resolveGuardSettings None) false
                         (trim (str "npm start")) d = false) DENY_RULES)).
    apply (bool_decide_unpack _). vm_compute. exact I.
  - exact npm_start_rule_in_table.
  - reflexivity.
  - vm_compute. reflexivity.
Defined.

(** C4 as stated fails: for [npm start] the suggested pattern is the
    fallback, not [ready on|started server]; and a command that matches a
    hanging rule can still be blocked, by a destructive rule that comes
    first in the table. *)
Lemma npm_start_gets_fallback_pattern :
  suggestedReadyPattern (guardCommand Samples.noRegExp Samples.offline None
                           (str "npm start") false)
  = Some (str "listening on|ready|started|running")
  ∧ suggestedReadyPattern (guardCommand Samples.noRegExp Samples.offline None
                             (str "npm start") false)
    ≠ Some (str "ready on|started server")
  ∧ test (pattern Samples.npm_start_rule)
         (stripQuotedStrings (stripHeredocBodies (str "rm -rf / ; npm start")))
    = true
  ∧ allowed (guardCommand Samples.noRegExp Samples.offline None
               (str "rm -rf / ; npm start") false) = false.
Proof.
  split; [by vm_compute|]. split; [by vm_compute|].
  split; by vm_compute.
Qed.

(** [verdict_determined] with [aiReview] off: an approving and a refusing
    guard model give the same verdict. *)
Lemma verdict_determined_without_review :
  guardCommand Samples.noRegExp Samples.approving None (str "echo hi") false
  = guardCommand Samples.noRegExp Samples.refusing None (str "echo hi") false.
Proof.
  apply (verdict_determined Samples.noRegExp Samples.approving Samples.refusing
           None (str "echo hi") false).
  left. reflexivity.
Defined.

(** C8 as stated fails: with [aiReview] on, the same command under the
    same settings is allowed when the guard model approves and denied
    when it refuses. *)
Lemma ai_review_verdict_varies :
  allowed (guardCommand Samples.noRegExp Samples.approving Samples.withAiReview
             (str "echo hi") false) = true
  ∧ allowed (guardCommand Samples.noRegExp Samples.refusing Samples.withAiReview
               (str "echo hi") false) = false
  ∧ guardCommand Samples.noRegExp Samples.approving Samples.withAiReview
      (str "echo hi") false
    ≠ guardCommand Samples.noRegExp Samples.refusing Samples.withAiReview
        (str "echo hi") false.
Proof.
  split; [by vm_compute|]. split; [by vm_compute|].
  intros H. apply (f_equal allowed) in H. vm_compute in H. discriminate.
Qed.









(** A denial by a custom pattern: the rule is [custom:] and the pattern,
    the reason is tagged [[custom]] and quotes the pattern. *)
Lemma custom_pattern_denial :
  allowed (guardCommand Samples.fooRegExp Samples.offline
             Samples.withCustomDeny (str "echo foo") false) = false
  ∧ rule (guardCommand Samples.fooRegExp Samples.offline
            Samples.withCustomDeny (str "echo foo") false)
    = Some (str "custom:foo")
  ∧ reason (guardCommand Samples.fooRegExp Samples.offline
              Samples.withCustomDeny (str "echo foo") false)
    = Some (str "[custom] Blocked by custom deny pattern: foo").
Proof. repeat split; vm_compute; reflexivity. Qed.

End GuardFacts.

(* ===================================================================== *)
(** * Properties of the step executor and the controller *)
(* ===================================================================== *)

Module WorkerFacts.

Import Utils MissionWorker.




Lemma id_assign (a : StepAssign) (r : StepRow) : id (assign a r) = id r.
Proof. by destruct a. Qed.

Lemma id_assigns (data : list StepAssign) (r : StepRow) :
  id (assigns data r) = id r.
Proof.
  unfold assigns. revert r.
  induction data as [|a data IH]; intros r; simpl; [done|].
  by rewrite IH, id_assign.
Qed.

Lemma get_step_patch_step (i j : Z) (data : list StepAssign) (w : World) :
  get_step j (patch_step i data w)
  = if bool_decide (j = i) then assigns data <$> get_step j w
    else get_step j w.
Proof.
  unfold get_step, patch_step, set_steps. cbn [mission_steps].
  induction (mission_steps w) as [|r rows IH]; [by case_bool_decide|].
  cbn [map find].
  destruct (bool_decide (id r = i)) eqn:Hri.
  - apply bool_decide_eq_true_1 in Hri. rewrite id_assigns.
    destruct (bool_decide (id r = j)) eqn:Hrj.
    + apply bool_decide_eq_true_1 in Hrj.
      rewrite bool_decide_eq_true_2 by congruence. done.
    + exact IH.
  - destruct (bool_decide (id r = j)) eqn:Hrj; [|exact IH].
    apply bool_decide_eq_true_1 in Hrj. apply bool_decide_eq_false_1 in Hri.
    rewrite bool_decide_eq_false_2 by congruence. done.
Qed.

Lemma get_step_same (i : Z) (data : list StepAssign) (w : World) :
  get_step i (patch_step i data w) = assigns data <$> get_step i w.
Proof. rewrite get_step_patch_step. by rewrite bool_decide_eq_true_2. Qed.

Lemma same_store_trans (w1 w2 w3 : World) :
  same_store w1 w2 → same_store w2 w3 → same_store w1 w3.
Proof.
  intros (?&?&?&?&?) (?&?&?&?&?). repeat split; congruence.
Qed.

Lemma same_store_sleep (ms : Z) (w : World) : same_store w (sleep ms w).
Proof. by repeat split. Qed.

Lemma attemptExecution_frame (E : Env) (step : StepRow) (cmd : jsstring)
    (timeoutMs : Z) (w : World) :
  same_store w (attemptExecution E step cmd timeoutMs w).2.
Proof. by repeat split. Qed.

Lemma retryLoop_frame {A : Type} (fn : World → Settled A * World)
    (base : Z) (left attempt : nat) (w : World) :
  (∀ w0, same_store w0 (fn w0).2) →
  same_store w (retryLoop sleep fn base attempt left w).2.
Proof.
  intros Hfn. revert attempt w.
  induction left as [|left IH]; intros attempt w; cbn [retryLoop];
    pose proof (Hfn w) as Hw; destruct (fn w) as [[a|e] w']; try done.
  eapply same_store_trans; [exact Hw|].
  eapply same_store_trans; [|apply IH]. apply same_store_sleep.
Qed.

Lemma attempts_frame (E : Env) (step : StepRow) (cmd : jsstring)
    (timeoutMs maxRetries : Z) (w : World) :
  same_store w
    (if (0 <? maxRetries)%Z
     then retryWithBackoff sleep (attemptExecution E step cmd timeoutMs)
            (Z.to_nat maxRetries) 2000 w
     else attemptExecution E step cmd timeoutMs w).2.
Proof.
  destruct (0 <? maxRetries)%Z.
  - apply retryLoop_frame. intros w0. apply attemptExecution_frame.
  - apply attemptExecution_frame.
Qed.

Lemma runAttempts_frame (E : Env) (step : StepRow) (cmd : jsstring)
    (timeoutMs maxRetries : Z) (w : World) :
  same_store w (runAttempts E step cmd timeoutMs maxRetries w).2.
Proof.
  unfold runAttempts.
  pose proof (attempts_frame E step cmd timeoutMs maxRetries w) as H.
  destruct (if (0 <? maxRetries)%Z then _ else _) as [a w']. exact H.
Qed.

Lemma get_step_same_store (i : Z) (w w' : World) :
  same_store w w' → get_step i w' = get_step i w.
Proof. intros (_&H&_). unfold get_step. by rewrite H. Qed.


Lemma promote_frame (E : Env) (mission : MissionRecord)
    (v : CommandGuard.GuardVerdict) (step : StepRow) (w : World) :
  id (promote mission v step w).1 = id step
  ∧ status (promote mission v step w).1 = status step
  ∧ order_index (promote mission v step w).1 = order_index step
  ∧ description (promote mission v step w).1 = description step
  ∧ missions (promote mission v step w).2 = missions w
  ∧ (∀ r0, get_step (id step) w = Some r0 →
           is_Some (get_step (id step) (promote mission v step w).2)).
Proof.
  unfold promote.
  destruct (truthyB (CommandGuard.promotedToBackground v)
            && negb (truthyB (background step))); cbn [fst snd].
  - repeat split; try done. intros r0 Hr0.
    unfold createMissionLog, get_step. cbn [mission_steps].
    change (find _ ?rows) with
      (get_step (id step)
         (patch_step (id step)
            [Set_background true;
             Set_ready_pattern
               (Some (default (str "listening on|ready|started")
                        (truthyS (CommandGuard.suggestedReadyPattern v))))] w)).
    rewrite get_step_same, Hr0. by eexists.
  - repeat split; try done. all: intros r0 ->; by eexists.
Qed.

(** What [executeStep] does when the guard denies the command. *)
Lemma executeStep_blocked (E : Env) (mission : MissionRecord) (step : StepRow)
    (w : World) :
  CommandGuard.allowed (verdictOf E mission step w) = false →
  executeStep E mission step w
  = (mkStepResult (-2) []
       (str "Command blocked: " ++ shownReason (verdictOf E mission step w))
       (now w - now w) 0,
     step,
     createMissionLog (mission_projectId mission) (mission_id mission)
       (Some (id step)) error
       (Text (blockedLog (verdictOf E mission step w) (rawCommandOf step)))
       (patch_step (id step)
          (blockedPatch (verdictOf E mission step w) (now w)) w)).
Proof. intros H. unfold executeStep. rewrite H. reflexivity. Qed.

(** What [executeStep] does when the guard lets the command through. *)
Lemma executeStep_allowed (E : Env) (mission : MissionRecord) (step : StepRow)
    (w : World) (r0 : StepRow) :
  CommandGuard.allowed (verdictOf E mission step w) = true →
  get_step (id step) w = Some r0 →
  ∃ (last : ExecutionResult) (dur fin : Z) (step1 : StepRow) (w4 : World)
    (r3 : StepRow),
    executeStep E mission step w
    = (mkStepResult (exitCode last) (stdout last) (stderr last) dur 0,
       step1,
       createMissionLog (mission_projectId mission) (mission_id mission)
         (Some (id step)) tool_output
         (Output (exitCode last) dur
            (truncate (stdout last) STDOUT_TAIL_LENGTH)
            (truncate (stderr last) STDERR_TAIL_LENGTH))
         (patch_step (id step) (stepPatchOf last 0 dur fin) w4))
    ∧ id step1 = id step ∧ status step1 = status step
    ∧ order_index step1 = order_index step
    ∧ description step1 = description step
    ∧ missions w4 = missions w
    ∧ get_step (id step) w4 = Some r3.
Proof.
  intros Hallow Hr0. unfold executeStep. rewrite Hallow. cbn [negb].
  destruct (promote_frame E mission (verdictOf E mission step w) step w)
    as (Hid & Hst & Hord & Hdesc & Hmis & Hsome).
  destruct (promote mission (verdictOf E mission step w) step w)
    as [step1 w1] eqn:Hp. cbn [fst snd] in *.
  destruct (Hsome r0 Hr0) as [r1 Hr1]. rewrite !Hid.
  match goal with
  | |- context [runAttempts E step1 ?c ?t ?m ?w3] =>
      pose proof (runAttempts_frame E step1 c t m w3) as Hframe;
      destruct (runAttempts E step1 c t m w3) as [last w4] eqn:Hrun
  end.
  cbn [snd] in Hframe.
  exists last, (now w4 - now w)%Z, (now w4), step1, w4.
  eexists. split; [reflexivity|].
  repeat split; try done.
  - destruct Hframe as (-> & _). done.
  - rewrite (get_step_same_store _ _ _ Hframe).
    unfold createMissionLog, get_step. cbn [mission_steps].
    change (find _ ?rows) with
      (get_step (id step)
         (patch_step (id step)
            [Set_status STEP_IN_PROGRESS; Set_started_at (now w1)] w1)).
    rewrite get_step_same, Hr1. reflexivity.
Qed.


(** [executeStep] never writes to the missions table and never touches
    the [status] of the in-memory step object. *)
Lemma executeStep_frame (E : Env) (mission : MissionRecord) (step : StepRow)
    (w : World) :
  missions (executeStep E mission step w).2 = missions w
  ∧ id (executeStep E mission step w).1.2 = id step
  ∧ status (executeStep E mission step w).1.2 = status step
  ∧ order_index (executeStep E mission step w).1.2 = order_index step
  ∧ description (executeStep E mission step w).1.2 = description step.
Proof.
  destruct (CommandGuard.allowed (verdictOf E mission step w)) eqn:Hallow.
  - unfold executeStep. rewrite Hallow. cbn [negb].
    destruct (promote_frame E mission (verdictOf E mission step w) step w)
      as (Hid & Hst & Hord & Hdesc & Hmis & _).
    destruct (promote mission (verdictOf E mission step w) step w)
      as [step1 w1]. cbn [fst snd] in *.
    match goal with
    | |- context [runAttempts E step1 ?c ?t ?m ?w3] =>
        pose proof (runAttempts_frame E step1 c t m w3) as Hframe;
        destruct (runAttempts E step1 c t m w3) as [last w4]
    end.
    cbn [fst snd] in *. destruct Hframe as (Hm & _).
    repeat split; try done.
    unfold createMissionLog, patch_step, set_steps. cbn [missions].
    by rewrite Hm.
  - rewrite executeStep_blocked by done. by repeat split.
Qed.


(** [truncate] cuts by code units, so it can split a surrogate pair: 4999
    letters followed by U+1F600 are well formed, the string cut at 5000 is
    not. *)
Lemma truncate_splits_pair :
  wellFormed (replicate 4999 97 ++ [55357; 56832]) = true
  ∧ wellFormed (truncate (replicate 4999 97 ++ [55357; 56832])
                  STDOUT_TAIL_LENGTH) = false.
Proof. vm_compute. done. Qed.


(** C10: whatever the sandbox does and however many attempts the retry
    loop makes, [executeStep] returns [retries = 0] and leaves
    [retry_count = 0] on the stored row: an executed step is patched with
    the never-incremented [actualRetries], a blocked one keeps the 0 the
    row was created with. *)
Theorem retry_count_stays_zero (E : Env) (mission : MissionRecord)
    (step : StepRow) (w : World) (r0 : StepRow) :
  get_step (id step) w = Some r0 →
  retry_count r0 = Some 0%Z →
  retries (executeStep E mission step w).1.1 = 0%Z
  ∧ ∃ r, get_step (id step) (executeStep E mission step w).2 = Some r
         ∧ retry_count r = Some 0%Z.
Proof.
  intros Hr0 Hzero.
  destruct (CommandGuard.allowed (verdictOf E mission step w)) eqn:Hallow.
  - destruct (executeStep_allowed E mission step w r0 Hallow Hr0)
      as (last & dur & fin & step1 & w4 & r3 & Heq & _ & _ & _ & _ & _ & Hr3).
    rewrite Heq. cbn [fst snd retries]. split; [done|].
    exists (assigns (stepPatchOf last 0 dur fin) r3). split; [|reflexivity].
    change (get_step (id step) (createMissionLog _ _ _ _ _ ?w0))
      with (get_step (id step) w0).
    by rewrite get_step_same, Hr3.
  - rewrite executeStep_blocked by done. cbn [fst snd retries].
    split; [done|].
    exists (assigns (blockedPatch (verdictOf E mission step w) (now w)) r0).
    split; [|exact Hzero].
    change (get_step (id step) (createMissionLog _ _ _ _ _ ?w0))
      with (get_step (id step) w0).
    by rewrite get_step_same, Hr0.
Qed.


Lemma get_mission_patch_mission (i j : Z) (f : MissionRecord → MissionRecord)
    (w : World) :
  (∀ m, mission_id (f m) = mission_id m) →
  get_mission j (patch_mission i f w)
  = if bool_decide (j = i) then f <$> get_mission j w else get_mission j w.
Proof.
  intros Hf. unfold get_mission, patch_mission, set_missions. cbn [missions].
  induction (missions w) as [|m rows IH]; [by case_bool_decide|].
  cbn [map find].
  destruct (bool_decide (mission_id m = i)) eqn:Hmi.
  - apply bool_decide_eq_true_1 in Hmi. rewrite Hf.
    destruct (bool_decide (mission_id m = j)) eqn:Hmj.
    + apply bool_decide_eq_true_1 in Hmj.
      rewrite bool_decide_eq_true_2 by congruence. done.
    + exact IH.
  - destruct (bool_decide (mission_id m = j)) eqn:Hmj; [|exact IH].
    apply bool_decide_eq_true_1 in Hmj. apply bool_decide_eq_false_1 in Hmi.
    rewrite bool_decide_eq_false_2 by congruence. done.
Qed.

Lemma mission_states_patch_mission (i : Z) (f : MissionRecord → MissionRecord)
    (w : World) :
  (∀ m, mission_id (f m) = mission_id m
        ∧ mission_status (f m) = mission_status m
        ∧ fail_reason (f m) = fail_reason m) →
  mission_states (patch_mission i f w) = mission_states w.
Proof.
  intros Hf. unfold mission_states, patch_mission, set_missions.
  cbn [missions]. induction (missions w) as [|m rows IH]; [done|].
  cbn [map]. rewrite IH. f_equal.
  destruct (bool_decide (mission_id m = i)); [|done].
  destruct (Hf m) as (-> & -> & ->). done.
Qed.

(** [consumeUserInput] moves the user's input to the log: it leaves the
    steps, the settings, and the status and failure reason of every
    mission alone. *)
Lemma consumeUserInput_frame (mission : MissionRecord) (mid : Z)
    (stepId : option Z) (w : World) :
  mission_steps (consumeUserInput mission mid stepId w) = mission_steps w
  ∧ commandGuard (consumeUserInput mission mid stepId w) = commandGuard w
  ∧ mission_states (consumeUserInput mission mid stepId w) = mission_states w
  ∧ (∀ m, get_mission mid w = Some m →
          ∃ m', get_mission mid (consumeUserInput mission mid stepId w)
                = Some m'
                ∧ mission_status m' = mission_status m
                ∧ fail_reason m' = fail_reason m).
Proof.
  unfold consumeUserInput.
  destruct (get_mission mid w) as [latest|] eqn:Hget;
    [|by repeat split; try done; intros m [=]].
  destruct (truthyS (latest_user_input latest)) as [input|].
  - split; [done|]. split; [done|]. split.
    + rewrite mission_states_patch_mission by done. done.
    + intros m [= <-].
      rewrite get_mission_patch_mission by done.
      rewrite bool_decide_eq_true_2 by done.
      change (get_mission mid (createMissionLog _ _ _ _ _ w))
        with (get_mission mid w).
      rewrite Hget. by eexists.
  - repeat split; try done. intros m [= <-]. by eexists.
Qed.


Lemma verdictOf_same_settings (E : Env) (mission : MissionRecord)
    (step : StepRow) (w w' : World) :
  commandGuard w' = commandGuard w →
  verdictOf E mission step w' = verdictOf E mission step w.
Proof. intros H. unfold verdictOf. by rewrite H. Qed.



Lemma ensureCommand_frame (E : Env) (mission : MissionRecord)
    (ctx : StepCommandContext) (step : StepRow) (l : Local) (w : World) :
  match ensureCommand E mission ctx step l w with
  | inl _ => True
  | inr (step2, _, w2) =>
      mission_states w2 = mission_states w ∧ status step2 = status step
  end.
Proof.
  unfold ensureCommand. destruct (truthyS (command step)); [done|].
  destruct (generateStepCommand E ctx) as [[cmd usage]|]; [|done].
  unfold trackUsage. split; [|done].
  change (mission_states (createMissionLog _ _ _ _ _ (patch_step _ _ ?w0)))
    with (mission_states w0).
  by rewrite mission_states_patch_mission.
Qed.

Lemma mission_states_missions (w w' : World) :
  missions w' = missions w → mission_states w' = mission_states w.
Proof. intros H. unfold mission_states. by rewrite H. Qed.

(** The wave never changes the status or the failure reason of a
    mission: the in-memory step objects it tests were loaded [PENDING]
    and their [status] field is never assigned, so the branch that would
    patch the mission to [FAILED] is not taken. *)
Lemma runWave_keeps_mission_states (E : Env) (mission : MissionRecord)
    (totalSteps : nat) (descriptions : list jsstring) (tree pkg : jsstring)
    (steps : list StepRow) :
  Forall (fun step => status step = STEP_PENDING) steps →
  ∀ (index : nat) (previousOutputs : list jsstring) (l : Local) (w : World),
    mission_states
      (outcome_world (runWave E mission totalSteps descriptions tree pkg
                        index steps previousOutputs l w))
    = mission_states w.
Proof.
  induction 1 as [|step rest Hpending _ IH]; intros index prev l w; [done|].
  cbn [runWave].
  destruct (waitForMissionStatus _ _ w) as [latest| |]; try done.
  destruct (negb (bool_decide (mission_status latest = EXECUTING))); [done|].
  destruct (consumeUserInput_frame mission (mission_id mission)
              (Some (id step)) w) as (_ & _ & Hstates & _).
  match goal with
  | |- context [ensureCommand E mission ?ctx step ?l1 ?w1] =>
      pose proof (ensureCommand_frame E mission ctx step l1 w1) as Hens;
      destruct (ensureCommand E mission ctx step l1 w1)
        as [e|[[step2 l2] w2]]
  end; [by cbn [outcome_world]|].
  destruct Hens as [Hstates2 Hstatus2].
  destruct (executeStep_frame E mission step2 w2) as (Hm & _ & Hst & _).
  destruct (executeStep E mission step2 w2) as [[result step3] w3].
  cbn [fst snd] in Hm, Hst.
  rewrite Hst, Hstatus2, Hpending.
  rewrite (bool_decide_eq_false_2 (STEP_PENDING = STEP_FAILED)) by done.
  rewrite andb_false_r. rewrite IH.
  rewrite (mission_states_missions _ _ Hm). congruence.
Qed.

Lemma loadPending_all_pending (mid : Z) (w : World) :
  Forall (fun step => status step = STEP_PENDING)
         (loadPendingMissionSteps mid w).
Proof.
  unfold loadPendingMissionSteps. rewrite merge_sort_Permutation.
  unfold find_pending. apply Forall_forall. intros r Hr.
  apply list_elem_of_filter in Hr as [[_ Hs] _]. exact Hs.
Qed.

(** The executing stage with pending steps left never moves the mission
    out of [EXECUTING], whatever the steps' exit codes. *)
Lemma executingStage_keeps_mission_states (E : Env) (mission : MissionRecord)
    (l : Local) (w : World) :
  loadPendingMissionSteps (mission_id mission) w ≠ [] →
  mission_states (outcome_world (executingStage E mission l w))
  = mission_states w.
Proof.
  intros Hne. unfold executingStage.
  pose proof (loadPending_all_pending (mission_id mission) w) as Hall.
  destruct (loadPendingMissionSteps (mission_id mission) w) as [|s0 rest];
    [done|].
  by rewrite runWave_keeps_mission_states.
Qed.


(** C1 fails on the code: the first step of the wave exits 1 and is
    stored [FAILED], yet the mission stays [EXECUTING] without a failure
    reason and the wave goes on to run the second step. *)
Lemma failed_step_leaves_mission_executing :
  let w' := outcome_world
              (executingStage Samples.sampleEnv Samples.mission1
                 Samples.local0 Samples.failingWorld) in
  (status <$> get_step 1 w') = Some STEP_FAILED
  ∧ (exit_code <$> get_step 1 w') = Some (Some 1%Z)
  ∧ mission_states w' = [(1%Z, EXECUTING, None)]
  ∧ (status <$> get_step 2 w') = Some STEP_DONE.
Proof. vm_compute. done. Qed.



(** [retry_count_stays_zero] on a retryable step whose execution is
    attempted three times. *)
Lemma retry_count_stays_zero_flaky :
  retries (executeStep Samples.sampleEnv Samples.mission1
             (Samples.pendingStep 1 "flaky" true) Samples.flakyWorld).1.1 = 0%Z
  ∧ ∃ r, get_step 1 (executeStep Samples.sampleEnv Samples.mission1
                       (Samples.pendingStep 1 "flaky" true)
                       Samples.flakyWorld).2 = Some r
         ∧ retry_count r = Some 0%Z.
Proof.
  apply (retry_count_stays_zero Samples.sampleEnv Samples.mission1
           (Samples.pendingStep 1 "flaky" true) Samples.flakyWorld
           (Samples.pendingStep 1 "flaky" true)).
  - reflexivity.
  - reflexivity.
Defined.

(** On that step the sandbox is asked three times (two failures, two
    backoff sleeps of 2 s and 4 s, one success) and the step ends [DONE]
    with [retry_count] 0. *)
Lemma flaky_step_three_attempts :
  let w' := (executeStep Samples.sampleEnv Samples.mission1
               (Samples.pendingStep 1 "flaky" true) Samples.flakyWorld).2 in
  sandbox_calls w' = 3%nat
  ∧ now w' = (1000 + 10 + 2000 + 10 + 4000 + 10)%Z
  ∧ (status <$> get_step 1 w') = Some STEP_DONE
  ∧ (retry_count <$> get_step 1 w') = Some (Some 0%Z).
Proof. vm_compute. done. Qed.

(** Scenario 2 of the specification, run: the destructive step ends
    [BLOCKED] with [rm-rf-root] in its summary, the mission is still
    [EXECUTING], and the next step has run. *)
Lemma rm_rf_root_wave :
  let w' := outcome_world
              (executingStage Samples.sampleEnv Samples.mission1
                 Samples.local0 Samples.destructiveWorld) in
  (status <$> get_step 1 w') = Some STEP_BLOCKED
  ∧ includes (str "rm-rf-root") <$> (get_step 1 w' ≫= result_summary)
    = Some true
  ∧ mission_states w' = [(1%Z, EXECUTING, None)]
  ∧ (status <$> get_step 2 w') = Some STEP_DONE.
Proof. vm_compute. done. Qed.


Lemma filter_ext_in {A : Type} (P1 P2 : A → Prop)
    `{!∀ x, Decision (P1 x), !∀ x, Decision (P2 x)} (l : list A) :
  (∀ x, x ∈ l → P1 x ↔ P2 x) → filter P1 l = filter P2 l.
Proof.
  induction l as [|a l IH]; intros Hext; [done|].
  assert (Ha : P1 a ↔ P2 a) by (apply Hext; left).
  assert (Hl : filter P1 l = filter P2 l)
    by (apply IH; intros x Hx; apply Hext; by right).
  destruct (decide (P1 a)).
  - rewrite !filter_cons_True by tauto. by rewrite Hl.
  - rewrite !filter_cons_False by tauto. exact Hl.
Qed.

Lemma NoDup_fmap_inj_on {A B : Type} (f : A → B) (l : list A) (x y : A) :
  NoDup (f <$> l) → x ∈ l → y ∈ l → f x = f y → x = y.
Proof.
  induction l as [|a l IH]; intros Hnd Hx Hy Hf; [by apply elem_of_nil in Hx|].
  rewrite fmap_cons in Hnd. apply NoDup_cons in Hnd as [Ha Hnd].
  apply elem_of_cons in Hx as [->|Hx]; apply elem_of_cons in Hy as [->|Hy].
  - done.
  - exfalso. apply Ha. rewrite Hf. by apply list_elem_of_fmap_2.
  - exfalso. apply Ha. rewrite <- Hf. by apply list_elem_of_fmap_2.
  - by apply IH.
Qed.

Lemma mission_steps_remove_all (rows : list StepRow) (w : World) :
  mission_steps (foldl (fun acc row => remove_step (id row) acc) w rows)
  = filter (fun r => id r ∉ id <$> rows) (mission_steps w).
Proof.
  revert w. induction rows as [|a rows IH]; intros w.
  - cbn [foldl fmap list_fmap]. symmetry.
    induction (mission_steps w) as [|r l IHl]; [done|].
    rewrite filter_cons_True by apply not_elem_of_nil. by rewrite IHl.
  - cbn [foldl]. rewrite IH. unfold remove_step, set_steps.
    cbn [mission_steps]. rewrite list_filter_filter.
    apply list_filter_iff. intros r. rewrite fmap_cons, not_elem_of_cons.
    tauto.
Qed.

(** With unique row ids, [removePendingMissionSteps] removes exactly the
    [PENDING] rows of the mission. *)
Lemma removePending_steps (mission : MissionRecord) (w : World) :
  NoDup (id <$> mission_steps w) →
  mission_steps (removePendingMissionSteps mission w)
  = filter (fun r => ¬ (missionId r = mission_id mission
                        ∧ status r = STEP_PENDING)) (mission_steps w).
Proof.
  intros Hnd. unfold removePendingMissionSteps.
  rewrite mission_steps_remove_all. apply filter_ext_in. intros r Hr.
  unfold find_pending. split.
  - intros Hnot Hp. apply Hnot. apply list_elem_of_fmap_2.
    by apply list_elem_of_filter.
  - intros Hnp Hin. apply list_elem_of_fmap in Hin as (r' & Hid & Hr').
    apply list_elem_of_filter in Hr' as [Hp' Hr'].
    assert (r = r') as -> by (by apply (NoDup_fmap_inj_on id (mission_steps w))).
    done.
Qed.


(** The creation loop appends one [PENDING] row per plan step, numbered
    consecutively from [startOrder + index + 1]. *)
Lemma createSteps_loop_spec (mission : MissionRecord) (startOrder : Z)
    (plan : list PlanStep) :
  ∀ (index : nat) (created : list StepRow) (w : World),
  ∃ new : list StepRow,
    (createSteps_loop mission startOrder index plan created w).1
    = created ++ new
    ∧ mission_steps (createSteps_loop mission startOrder index plan created w).2
      = mission_steps w ++ new
    ∧ length new = length plan
    ∧ ∀ (i : nat) (c : StepRow), new !! i = Some c →
        status c = STEP_PENDING
        ∧ missionId c = mission_id mission
        ∧ retry_count c = Some 0%Z
        ∧ order_index c = (startOrder + Z.of_nat (index + i) + 1)%Z.
Proof.
  induction plan as [|step plan IH]; intros index created w.
  - exists []. cbn [createSteps_loop fst snd]. rewrite !app_nil_r.
    repeat split; try done. all: intros i c Hc; by rewrite lookup_nil in Hc.
  - cbn [createSteps_loop]. unfold create_step.
    match goal with
    | |- context [createSteps_loop _ _ (S index) plan (created ++ [?row]) ?w1] =>
        destruct (IH (S index) (created ++ [row]) w1)
          as (new & Hc & Hs & Hlen & Hnew);
        exists (row :: new)
    end.
    rewrite Hc, Hs. cbn [mission_steps set_next_step_id set_steps].
    rewrite <- !app_assoc. split; [done|]. split; [done|].
    split; [cbn [length]; by rewrite Hlen|].
    intros [|i] c Hi.
    + cbn in Hi. injection Hi as <-. cbn [status missionId retry_count order_index].
      rewrite Nat.add_0_r. done.
    + cbn in Hi. destruct (Hnew i c Hi) as (? & ? & ? & Ho).
      repeat split; try done. rewrite Ho. f_equal. f_equal. lia.
Qed.

Lemma Forall_patch_step (P : StepRow → Prop) (i : Z) (data : list StepAssign)
    (w : World) :
  (∀ r, P r → P (assigns data r)) →
  Forall P (mission_steps w) → Forall P (mission_steps (patch_step i data w)).
Proof.
  intros Hdata Hall. unfold patch_step, set_steps. cbn [mission_steps].
  induction Hall as [|r rows Hr _ IH]; cbn [map]; constructor; [|exact IH].
  destruct (bool_decide (id r = i)); auto.
Qed.

(** No call of [executeStep] leaves a row with a [retry_count] other
    than 0 in a table that had none. *)
Lemma executeStep_keeps_retry_counts_zero (E : Env) (mission : MissionRecord)
    (step : StepRow) (w : World) :
  Forall (fun r => retry_count r = Some 0%Z) (mission_steps w) →
  Forall (fun r => retry_count r = Some 0%Z)
         (mission_steps (executeStep E mission step w).2).
Proof.
  intros Hall.
  destruct (CommandGuard.allowed (verdictOf E mission step w)) eqn:Hallow.
  - unfold executeStep. rewrite Hallow. cbn [negb].
    assert (Hp : Forall (fun r => retry_count r = Some 0%Z)
                   (mission_steps
                      (promote mission (verdictOf E mission step w) step w).2)).
    { unfold promote.
      destruct (truthyB (CommandGuard.promotedToBackground _)
                && negb (truthyB (background step))); [|exact Hall].
      cbn [snd]. unfold createMissionLog. cbn [mission_steps].
      by apply Forall_patch_step. }
    destruct (promote mission (verdictOf E mission step w) step w)
      as [step1 w1]. cbn [snd] in Hp.
    match goal with
    | |- context [runAttempts E step1 ?c ?t ?m ?w3] =>
        pose proof (runAttempts_frame E step1 c t m w3) as Hframe;
        assert (H3 : Forall (fun r => retry_count r = Some 0%Z)
                       (mission_steps w3))
          by (unfold createMissionLog; cbn [mission_steps];
              by apply Forall_patch_step);
        destruct (runAttempts E step1 c t m w3) as [last w4]
    end.
    cbn [snd] in *. destruct Hframe as (_ & Hsteps & _).
    unfold createMissionLog. cbn [mission_steps].
    apply Forall_patch_step; [done|]. by rewrite Hsteps.
  - rewrite executeStep_blocked by done. cbn [snd].
    unfold createMissionLog. cbn [mission_steps].
    by apply Forall_patch_step.
Qed.

(** Every row of a new plan wave is created with [retry_count] 0. *)
Lemma created_steps_retry_count_zero (mission : MissionRecord)
    (plan : list PlanStep) (w : World) :
  Forall (fun r => retry_count r = Some 0%Z)
         (createStepsFromPlan mission plan w).1.
Proof.
  unfold createStepsFromPlan.
  match goal with
  | |- context [createSteps_loop mission ?start 0 plan [] w] =>
      destruct (createSteps_loop_spec mission start plan 0 [] w)
        as (new & -> & _ & _ & Hnew)
  end.
  cbn [app]. apply Forall_forall. intros c Hc.
  apply list_elem_of_lookup in Hc as [i Hi].
  by destruct (Hnew i c Hi) as (_ & _ & ? & _).
Qed.

#[local] Instance order_desc_transitive : Transitive order_desc.
Proof. intros a b c. unfold order_desc. lia. Qed.

#[local] Instance order_desc_total : Total order_desc.
Proof. intros a b. unfold order_desc. lia. Qed.

(** The row that [$sort: { order_index: -1 }, $limit: 1] returns has the
    greatest [order_index] of the mission's rows. *)
Lemma find_max_order_spec (mid : Z) (w : World) :
  let rows := filter (fun r => missionId r = mid) (mission_steps w) in
  (rows = [] ∧ find_max_order mid w = [])
  ∨ ∃ top, find_max_order mid w = [top] ∧ top ∈ rows
           ∧ ∀ r, r ∈ rows → (order_index r ≤ order_index top)%Z.
Proof.
  intros rows. unfold find_max_order. fold rows.
  pose proof (merge_sort_Permutation order_desc rows) as Hperm.
  pose proof (StronglySorted_merge_sort order_desc rows) as Hsorted.
  destruct (merge_sort order_desc rows) as [|top rest].
  - left. split; [|done]. by apply Permutation_nil_l in Hperm.
  - right. exists top. split; [done|]. split.
    + rewrite <- Hperm. left.
    + intros r Hr. rewrite <- Hperm in Hr.
      apply StronglySorted_inv in Hsorted as [_ Hall].
      apply elem_of_cons in Hr as [->|Hr]; [lia|].
      by apply (proj1 (Forall_forall _ _) Hall r Hr).
Qed.


(** C9: with unique row ids, replanning removes exactly the [PENDING]
    rows of the mission, so every [DONE] and [FAILED] row (and every row
    of another mission) is still there, unchanged; the new wave has one
    [PENDING] row per plan step, appended after the kept rows, numbered
    [start + 1, start + 2, ...] where [start] is the greatest
    [order_index] among the mission's rows that exist when the wave is
    created (0 when there is none): strictly above every existing step of
    the mission, strictly increasing, without gaps. *)
Theorem replan_keeps_history (mission : MissionRecord) (plan : list PlanStep)
    (w : World) :
  NoDup (id <$> mission_steps w) →
  let mid := mission_id mission in
  let kept := filter (fun r => ¬ (missionId r = mid ∧ status r = STEP_PENDING))
                     (mission_steps w) in
  let created := (replan mission plan w).1 in
  let w' := (replan mission plan w).2 in
  mission_steps w' = kept ++ created
  ∧ (∀ r, r ∈ mission_steps w → status r = STEP_DONE ∨ status r = STEP_FAILED →
          r ∈ mission_steps w')
  ∧ (∀ r, r ∈ mission_steps w → r ∉ mission_steps w' →
          missionId r = mid ∧ status r = STEP_PENDING)
  ∧ length created = length plan
  ∧ (∃ start : Z,
        ((∃ r, r ∈ kept ∧ missionId r = mid ∧ order_index r = start)
         ∨ start = 0%Z)
        ∧ (∀ r, r ∈ kept → missionId r = mid → (order_index r ≤ start)%Z)
        ∧ (∀ i c, created !! i = Some c →
                  status c = STEP_PENDING ∧ missionId c = mid
                  ∧ order_index c = (start + Z.of_nat i + 1)%Z))
  ∧ (∀ r c, r ∈ kept → missionId r = mid → c ∈ created →
            (order_index r < order_index c)%Z)
  ∧ (∀ i c c', created !! i = Some c → created !! S i = Some c' →
               order_index c' = (order_index c + 1)%Z).
Proof.
  intros Hnd mid kept created w'.
  pose proof (removePending_steps mission w Hnd) as Hkept. fold mid kept in Hkept.
  unfold replan, createStepsFromPlan in created, w'.
  set (wr := removePendingMissionSteps mission w) in *.
  set (start := match find_max_order (mission_id mission) wr with
                | r :: _ => order_index r
                | [] => 0%Z
                end) in *.
  destruct (createSteps_loop_spec mission start plan 0 [] wr)
    as (new & Hc & Hs & Hlen & Hnew).
  fold created in Hc. fold w' in Hs. cbn [app] in Hc. rewrite Hkept in Hs.
  assert (Hstart :
    ((∃ r, r ∈ kept ∧ missionId r = mid ∧ order_index r = start)
     ∨ start = 0%Z)
    ∧ ∀ r, r ∈ kept → missionId r = mid → (order_index r ≤ start)%Z).
  { destruct (find_max_order_spec (mission_id mission) wr)
      as [[Hnil Hfind]|(top & Hfind & Htop & Hmax)];
      subst start; rewrite Hfind; rewrite Hkept in *.
    - split; [by right|]. intros r Hr Hm. exfalso.
      assert (r ∈ filter (fun r => missionId r = mission_id mission) kept)
        by (by apply list_elem_of_filter).
      rewrite Hnil in *. by eapply elem_of_nil.
    - apply list_elem_of_filter in Htop as [Hm Htop]. split.
      + left. by exists top.
      + intros r Hr Hmr. apply Hmax. by apply list_elem_of_filter. }
  destruct Hstart as [Hattained Hbound].
  assert (Hidx : ∀ i c, created !! i = Some c →
            status c = STEP_PENDING ∧ missionId c = mid
            ∧ order_index c = (start + Z.of_nat i + 1)%Z).
  { intros i c Hi. rewrite Hc in Hi.
    destruct (Hnew i c Hi) as (? & ? & _ & Ho). by repeat split. }
  split; [by rewrite Hs, Hc|]. split; [|split; [|split; [|split; [|split]]]].
  - intros r Hr Hst. rewrite Hs. apply elem_of_app. left.
    apply list_elem_of_filter. split; [|done].
    intros [_ Hp]. destruct Hst; congruence.
  - intros r Hr Hnot.
    destruct (decide (missionId r = mid ∧ status r = STEP_PENDING)) as [|Hn];
      [done|].
    exfalso. apply Hnot. rewrite Hs. apply elem_of_app. left.
    by apply list_elem_of_filter.
  - by rewrite Hc.
  - exists start. split; [exact Hattained|]. split; [exact Hbound|exact Hidx].
  - intros r c Hr Hm Hcin. apply list_elem_of_lookup in Hcin as [i Hi].
    destruct (Hidx i c Hi) as (_ & _ & ->). specialize (Hbound r Hr Hm). lia.
  - intros i c c' Hi Hi'.
    destruct (Hidx i c Hi) as (_ & _ & ->).
    destruct (Hidx (S i) c' Hi') as (_ & _ & ->). lia.
Qed.

(** [replan_keeps_history] on a mission with a done, a failed and two
    pending steps: the new wave is numbered 3 and 4. *)
Lemma replan_keeps_history_sample :
  order_index <$> (replan Samples.mission1 Samples.newPlan
                     Samples.historyWorld).1 = [3%Z; 4%Z]
  ∧ length (mission_steps (replan Samples.mission1 Samples.newPlan
                             Samples.historyWorld).2) = 4%nat.
Proof.
  destruct (replan_keeps_history Samples.mission1 Samples.newPlan
              Samples.historyWorld) as (Hsteps & _).
  - apply (bool_decide_unpack _). vm_compute. exact I.
  - split; [vm_compute; reflexivity|]. rewrite Hsteps.
    vm_compute. reflexivity.
Defined.

End WorkerFacts.

(* ===================================================================== *)
(** * Properties of the sandbox driver *)
(* ===================================================================== *)

Module SandboxFacts.

Import Utils SandboxDriver.

Lemma rm_rf_removes (p : jsstring) (ds : gset (list N)) : p ∉ rm_rf p ds.
Proof. unfold rm_rf. rewrite elem_of_filter. by intros [[Hne _] _]. Qed.

(** C3, as the code has it: after [spawn] and [teardown] of the same
    instance, the workspace directory is absent exactly when the resolved
    [persist] option is [false]; the container is gone and the
    bookkeeping is forgotten either way.  The option is [true] by
    default: with [OPENJULES_SANDBOX_PERSIST] unset it is [false] only
    for [persistSandbox = false], and when the variable is set it alone
    decides ([false] for the values [false] and [0]). *)
Theorem teardown_removes_unless_persist
    (homedir backendRoot : jsstring)
    (path_join : jsstring → jsstring → jsstring)
    (path_isAbsolute : jsstring → bool)
    (execution : ExecutionSettings) (env : ProcessEnv) (missionId : Z)
    (hash uuid8 image : jsstring) (c : N) (d : DockerDriver) (h : Host) :
  let options :=
    resolveSandboxOptions homedir backendRoot path_join path_isAbsolute
      execution env in
  let spawned :=
    spawn homedir backendRoot path_join path_isAbsolute execution env
      missionId hash uuid8 image c d h in
  let instance := spawned.1.1 in
  let after := teardown env (inst_id instance) (spawned.1.2) (spawned.2) in
  (workspacePath instance ∉ dirs (after.2) ↔ persist options = false)
  ∧ (container instance ∉ containers (after.2))
  ∧ instances (after.1) !! inst_id instance = None
  ∧ persist options
    = match OPENJULES_SANDBOX_PERSIST env with
      | Some v => negb (jseq v (str "false")) && negb (jseq v (str "0"))
      | None =>
          match persistSandbox execution with
          | Some false => false
          | _ => true
          end
      end.
Proof.
  intros options spawned instance after.
  unfold after, teardown, instance, spawned, spawn. fold options.
  cbn [fst snd inst_id instances persistByInstance workspacePath container
       dirs containers].
  rewrite !lookup_insert_eq. cbn [default workspacePath container].
  split; [|split; [|split]].
  - destruct (persist options); cbn [negb dirs].
    + split; [|done]. intros Hnot. exfalso. apply Hnot.
      apply elem_of_union. left. apply elem_of_union. left.
      by apply elem_of_singleton.
    + split; [done|]. intros _. apply rm_rf_removes.
  - cbn [containers]. intros Hin.
    apply elem_of_difference in Hin as [_ Hin]. apply Hin.
    by apply elem_of_singleton.
  - cbn [instances]. apply lookup_delete_eq.
  - unfold options, resolveSandboxOptions. cbn [persist].
    destruct (OPENJULES_SANDBOX_PERSIST env); [done|].
    by destruct (persistSandbox execution) as [[|]|].
Qed.

(** C3 as stated fails: with neither the environment variable nor the
    setting, the workspace directory is still there after teardown; and
    with [persistSandbox = false] but [OPENJULES_SANDBOX_PERSIST=true] it
    is there too. *)
Lemma default_teardown_keeps_directory :
  persist (resolveSandboxOptions Samples.home Samples.backend
             Samples.posix_join Samples.posix_isAbsolute
             Samples.noExecution Samples.noEnv) = true
  ∧ (Samples.spawnThenTeardown Samples.noExecution Samples.noEnv).1
    ∈ dirs (Samples.spawnThenTeardown Samples.noExecution Samples.noEnv).2
  ∧ (Samples.spawnThenTeardown Samples.noPersistExecution Samples.persistEnv).1
    ∈ dirs (Samples.spawnThenTeardown Samples.noPersistExecution
              Samples.persistEnv).2.
Proof.
  split; [reflexivity|].
  split; apply (bool_decide_unpack _); vm_compute; exact I.
Qed.

(** With the setting [persistSandbox = false] and no environment
    variable, the directory is removed. *)
Lemma no_persist_teardown_removes_directory :
  (Samples.spawnThenTeardown Samples.noPersistExecution Samples.noEnv).1
  ∉ dirs (Samples.spawnThenTeardown Samples.noPersistExecution Samples.noEnv).2.
Proof. apply (bool_decide_unpack _). vm_compute. exact I. Qed.

(** [command] never looks at [timeoutMs]. *)
Lemma command_ignores_timeout
    (path_relative : jsstring → jsstring → jsstring)
    (host_exec : list jsstring → jsstring → Exec) (i : Instance)
    (cmd : jsstring) (workdir : option jsstring) (t1 t2 : option Z) :
  command path_relative host_exec i cmd workdir t1
  = command path_relative host_exec i cmd workdir t2.
Proof. reflexivity. Qed.

(** C7 fails on the code: a foreground command given [timeoutMs = 1000]
    whose stream ends after a minute settles after a minute, and one
    whose stream never ends never settles. *)
Lemma command_outlives_timeout :
  command Samples.posix_relative Samples.slowHost Samples.sampleInstance
    (str "npm install") None (Some 1000%Z)
  = Fulfilled 60000 (mkResult (str "working") [] 0)
  ∧ command Samples.posix_relative Samples.hangingHost Samples.sampleInstance
      (str "npm install") None (Some 1000%Z)
    = Pending.
Proof. split; reflexivity. Qed.

(** The background path does honour its timeout: once the wrapper has
    started, the promise settles no later than [effectiveTimeout]. *)
Lemma monitor_settles_by_timeout (ready : jsstring → bool)
    (readyPattern : jsstring)
    (effectiveTimeout : Z) (events : list (Z * BackgroundEvent)) :
  ∀ fullLog,
    match monitor ready readyPattern effectiveTimeout fullLog events with
    | Fulfilled t _ => (t < effectiveTimeout)%Z
    | RejectedAt t _ => (t ≤ effectiveTimeout)%Z
    | Pending => False
    end.
Proof.
  induction events as [|[t e] events IH]; intros fullLog; cbn [monitor].
  - lia.
  - destruct (Z.leb_spec effectiveTimeout t); [lia|].
    destruct e as [text| |message|[code|message]]; try lia; try apply IH.
    + destruct (ready (fullLog ++ text)); [lia|apply IH].
    + destruct (code =? 0)%Z; [apply IH|lia].
Qed.



(** So does [backgroundCommand] as a whole, counted from the moment its
    start-up command has returned (that command is itself a foreground
    [command], without a timeout). *)
Lemma backgroundCommand_settles_after_start
    (path_relative : jsstring → jsstring → jsstring)
    (newRegExp : jsstring → Settled (jsstring → bool))
    (host_exec : list jsstring → jsstring → Exec) (i : Instance)
    (cmd readyPattern : jsstring) (workdir : option jsstring)
    (timeoutMs : Z) (uuid : jsstring) (events : list (Z * BackgroundEvent))
    (t0 : Z) (started : ExecutionResult) :
  (0 < timeoutMs)%Z →
  command path_relative host_exec i (backgroundWrapper i cmd uuid) workdir None
  = Fulfilled t0 started →
  match backgroundCommand path_relative newRegExp host_exec i cmd readyPattern
          workdir (Some timeoutMs) uuid events with
  | Fulfilled t _ => (t < t0 + timeoutMs)%Z
  | RejectedAt t _ => (t ≤ t0 + timeoutMs)%Z
  | Pending => False
  end.
Proof.
  intros Hpos Hstart. unfold backgroundCommand. rewrite Hstart.
  destruct (negb (exitCode started =? 0)%Z); [lia|].
  destruct (newRegExp readyPattern) as [ready|message]; [|lia].
  assert (Heff : effectiveTimeoutOf (Some timeoutMs) = timeoutMs).
  { unfold effectiveTimeoutOf. destruct (Z.eqb_spec timeoutMs 0); [lia|done]. }
  rewrite Heff.
  pose proof (monitor_settles_by_timeout ready readyPattern timeoutMs events [])
    as Hm.
  destruct (monitor ready readyPattern timeoutMs [] events);
    cbn [delay]; [lia|lia|done].
Qed.

End SandboxFacts.

(* ===================================================================== *)
(** * The deny rules do not depend on the case of a command *)
(* ===================================================================== *)

Module CaseFacts.
Import CommandGuard CaseDefs GuardFacts.

Lemma same_letter_cases (c c' : N) :
  same_letter c c' → c = c' ∨ (is_letter c = true ∧ is_letter c' = true).
Proof.
  unfold same_letter, canon, is_letter. cbn [andb]. intros Heq. revert Heq.
  destruct (N.leb_spec 97 c), (N.leb_spec c 122), (N.leb_spec 97 c'),
    (N.leb_spec c' 122), (N.leb_spec 65 c), (N.leb_spec c 90),
    (N.leb_spec 65 c'), (N.leb_spec c' 90); cbn [andb orb]; intros Heq;
    try (left; lia); try (right; done); lia.
Qed.

Lemma blind_pred (p : N → bool) (c c' : N) :
  (∀ x, is_letter x = true → p x = false) ∨ (∀ x, is_letter x = true → p x = true) →
  same_letter c c' → p c = p c'.
Proof.
  intros Hp H. destruct (same_letter_cases _ _ H) as [->|[H1 H2]]; [done|].
  destruct Hp as [Hp|Hp]; by rewrite (Hp _ H1), (Hp _ H2).
Qed.

Lemma is_space_letter x : is_letter x = true → is_space x = false.
Proof.
  unfold is_letter, is_space. intros H.
  repeat match goal with
  | |- context [?a =? ?b] => destruct (N.eqb_spec a b); [subst; by vm_compute in H|]
  end. cbn [orb].
  destruct (N.leb_spec 8192 x); [|done].
  apply orb_true_iff in H as [H|H]; apply andb_true_iff in H as [_ H];
    apply N.leb_le in H; lia.
Qed.

Lemma is_lt_letter x : is_letter x = true → is_line_terminator x = false.
Proof.
  unfold is_letter, is_line_terminator. intros H.
  repeat match goal with
  | |- context [?a =? ?b] => destruct (N.eqb_spec a b); [subst; by vm_compute in H|]
  end. done.
Qed.

Lemma is_digit_letter x :
  is_letter x = true → (48 <=? x) && (x <=? 57) = false.
Proof.
  unfold is_letter. intros H.
  destruct (N.leb_spec 48 x), (N.leb_spec x 57); try done.
  apply orb_true_iff in H as [H|H]; apply andb_true_iff in H as [H _];
    apply N.leb_le in H; lia.
Qed.

Lemma is_word_letter x : is_letter x = true → is_word x = true.
Proof. unfold is_letter, is_word. intros ->. done. Qed.

Lemma is_word_same c c' : same_letter c c' → is_word c = is_word c'.
Proof. apply blind_pred. right. apply is_word_letter. Qed.

Lemma chr_same (ic : bool) (p c c' : N) :
  ic || negb (is_letter p) = true →
  same_letter c c' →
  (canon ic c =? canon ic p) = (canon ic c' =? canon ic p).
Proof.
  intros Hb H. destruct ic.
  - unfold same_letter in H. by rewrite H.
  - cbn [orb] in Hb. unfold canon. cbn [andb].
    destruct (same_letter_cases _ _ H) as [->|[H1 H2]]; [done|].
    destruct (N.eqb_spec c p) as [->|?]; [by rewrite H1 in Hb|].
    destruct (N.eqb_spec c' p) as [->|?]; [by rewrite H2 in Hb|]. done.
Qed.

Lemma letter_outside_range (lo hi x : N) :
  range_letter_free (lo, hi) = true → is_letter x = true →
  (lo <=? x) && (x <=? hi) = false.
Proof.
  unfold range_letter_free, is_letter. intros Hb Hx.
  apply not_true_is_false. intros Hin.
  apply andb_true_iff in Hin as [Hlo%N.leb_le Hhi%N.leb_le].
  apply andb_true_iff in Hb as [Hb1 Hb2].
  apply orb_true_iff in Hb1, Hb2, Hx.
  rewrite !N.ltb_lt in Hb1, Hb2. rewrite !andb_true_iff, !N.leb_le in Hx. lia.
Qed.

Lemma range_same (ic : bool) (r : N * N) (c c' : N) :
  ic || range_letter_free r = true →
  same_letter c c' → in_range ic c r = in_range ic c' r.
Proof.
  intros Hb H. destruct r as [lo hi]. destruct ic.
  - unfold in_range. unfold same_letter in H. by rewrite H.
  - cbn [orb] in Hb. unfold in_range, canon. cbn [andb orb].
    rewrite !orb_false_r.
    destruct (same_letter_cases _ _ H) as [->|[H1 H2]]; [done|].
    by rewrite !letter_outside_range.
Qed.

Lemma class_same (ic : bool) (rs : list (N * N)) (c c' : N) :
  ic || forallb range_letter_free rs = true →
  same_letter c c' → in_class ic c rs = in_class ic c' rs.
Proof.
  intros Hb H. unfold in_class. induction rs as [|r rs IH]; [done|].
  cbn [existsb]. rewrite (range_same ic r c c'); [|destruct ic; [done|]|done].
  - f_equal. apply IH. destruct ic; [done|]. cbn [orb forallb] in *.
    by apply andb_true_iff in Hb as [_ ?].
  - cbn [orb forallb] in *. by apply andb_true_iff in Hb as [? _].
Qed.

Lemma step1_rel (p : N → bool) (st st' : mstate) (k k' : mstate → option mstate) :
  (∀ c c', same_letter c c' → p c = p c') →
  st_rel st st' → k_rel k k' → res_rel (step1 p st k) (step1 p st' k').
Proof.
  intros Hp (Hprev & Hrest & Hcap) Hk. unfold step1.
  destruct Hrest as [|c c' rest rest' Hc Hrest]; [constructor|].
  rewrite (Hp c c' Hc). destruct (p c'); [|constructor].
  apply Hk. split; [|split]; cbn; [by constructor|done|done].
Qed.

Lemma mt_ext (ic : bool) (r : regex) :
  ∀ (st : mstate) (k1 k2 : mstate → option mstate),
    (∀ a, k1 a = k2 a) → mt ic r st k1 = mt ic r st k2.
Proof.
  induction r as [|c|neg rs| | | | | | | |r1 IH1 r2 IH2|r1 IH1 r2 IH2|r IH|r IH|r IH];
    intros st k1 k2 Hk; cbn [mt]; try done.
  - unfold step1. destruct (m_rest st); [done|]. by destruct (_ =? _).
  - unfold step1. destruct (m_rest st); [done|]. by destruct (xorb _ _).
  - unfold step1. destruct (m_rest st); [done|]. by destruct (negb _).
  - unfold step1. destruct (m_rest st); [done|]. by destruct (is_space _).
  - unfold step1. destruct (m_rest st); [done|]. by destruct (negb _).
  - unfold step1. destruct (m_rest st); [done|]. by destruct (_ && _).
  - by destruct (at_word_boundary st).
  - by destruct (m_prev st).
  - by destruct (m_rest st).
  - apply IH1. intros a. by apply IH2.
  - rewrite (IH1 st k1 k2 Hk). destruct (mt ic r1 st k2); [done|]. by apply IH2.
  - generalize (length (m_rest st)) as fuel. intros fuel. revert st.
    induction fuel as [|f IHf]; intros st; [done|].
    rewrite (IH st _ (fun st' =>
               if (length (m_rest st') <? length (m_rest st))%nat
               then (fix loop (fuel : nat) (st0 : mstate) {struct fuel} :=
                       match fuel with
                       | O => k2 st0
                       | S f0 =>
                           match mt ic r st0 (fun st'0 =>
                             if (length (m_rest st'0) <? length (m_rest st0))%nat
                             then loop f0 st'0 else None) with
                           | Some e => Some e
                           | None => k2 st0
                           end
                       end) f st'
               else None)).
    + rewrite Hk. done.
    + intros a. destruct (_ <? _)%nat; [|done]. apply IHf.
  - destruct (mt ic r st Some); [done|]. apply Hk.
  - apply IH. intros a. apply Hk.
Qed.

Lemma mt_Star (ic : bool) (r : regex) (st : mstate) (k : mstate → option mstate) :
  mt ic (Star r) st k = star_loop (mt ic r) k (length (m_rest st)) st.
Proof.
  cbn [mt]. generalize (length (m_rest st)) as fuel. intros fuel. revert st.
  induction fuel as [|f IH]; intros st; [done|].
  cbn [star_loop].
  erewrite mt_ext; [reflexivity|].
  intros a. cbv beta. destruct (_ <? _)%nat; [|done]. apply IH.
Qed.


Lemma st_rel_lengths (a b : mstate) :
  st_rel a b → length (m_rest a) = length (m_rest b).
Proof. intros (_ & H & _). by apply Forall2_length in H. Qed.

Lemma word_boundary_same (a b : mstate) :
  st_rel a b → at_word_boundary a = at_word_boundary b.
Proof.
  intros (Hp & Hr & _). unfold at_word_boundary.
  destruct Hp as [|c c' ? ? Hc _], Hr as [|d d' ? ? Hd _];
    rewrite ?(is_word_same _ _ Hc), ?(is_word_same _ _ Hd); done.
Qed.

Lemma star_loop_rel (body body' : mstate → (mstate → option mstate) → option mstate)
    (k k' : mstate → option mstate) :
  (∀ st st' k1 k1', st_rel st st' → k_rel k1 k1' →
      res_rel (body st k1) (body' st' k1')) →
  k_rel k k' →
  ∀ fuel st st', st_rel st st' →
    res_rel (star_loop body k fuel st) (star_loop body' k' fuel st').
Proof.
  intros Hbody Hk. induction fuel as [|f IH]; intros st st' Hst; cbn [star_loop].
  - by apply Hk.
  - match goal with
    | |- res_rel (match ?x with _ => _ end) (match ?y with _ => _ end) =>
        assert (Hb : res_rel x y)
    end.
    { apply Hbody; [done|]. intros a a' Ha.
      rewrite (st_rel_lengths _ _ Ha), (st_rel_lengths _ _ Hst).
      destruct (_ <? _)%nat; [by apply IH|constructor]. }
    destruct Hb; [by constructor|by apply Hk].
Qed.

Lemma mt_rel (ic : bool) (r : regex) :
  ic || letter_free r = true →
  ∀ st st' k k', st_rel st st' → k_rel k k' →
    res_rel (mt ic r st k) (mt ic r st' k').
Proof.
  induction r as [|c|neg rs| | | | | | | |r1 IH1 r2 IH2|r1 IH1 r2 IH2|r IH|r IH|r IH];
    intros Hb st st' k k' Hst Hk.
  - by apply Hk.
  - cbn [mt]. apply step1_rel; [|done|done]. intros x x' Hx.
    by apply chr_same.
  - cbn [mt]. apply step1_rel; [|done|done]. intros x x' Hx.
    by rewrite (class_same ic rs x x').
  - cbn [mt]. apply step1_rel; [|done|done]. intros x x' Hx. f_equal.
    revert Hx. apply blind_pred. left. apply is_lt_letter.
  - cbn [mt]. apply step1_rel; [|done|done]. intros x x'.
    apply blind_pred. left. apply is_space_letter.
  - cbn [mt]. apply step1_rel; [|done|done]. intros x x' Hx. f_equal.
    revert Hx. apply blind_pred. left. apply is_space_letter.
  - cbn [mt]. apply step1_rel; [|done|done]. intros x x'.
    apply (blind_pred (fun x => (48 <=? x) && (x <=? 57))). left.
    apply is_digit_letter.
  - cbn [mt]. rewrite (word_boundary_same _ _ Hst).
    destruct (at_word_boundary st'); [by apply Hk|constructor].
  - cbn [mt]. pose proof Hst as (Hp & _ & _).
    destruct Hp; [by apply Hk|constructor].
  - cbn [mt]. pose proof Hst as (_ & Hr & _).
    destruct Hr; [by apply Hk|constructor].
  - cbn [mt]. assert (H1 : ic || letter_free r1 = true ∧ ic || letter_free r2 = true).
    { destruct ic; [done|]. cbn [orb letter_free] in *.
      by apply andb_true_iff in Hb. }
    destruct H1 as [H1 H2]. apply IH1; [done|done|].
    intros a a' Ha. by apply IH2.
  - cbn [mt]. assert (H1 : ic || letter_free r1 = true ∧ ic || letter_free r2 = true).
    { destruct ic; [done|]. cbn [orb letter_free] in *.
      by apply andb_true_iff in Hb. }
    destruct H1 as [H1 H2].
    pose proof (IH1 H1 st st' k k' Hst Hk) as Hr1.
    destruct Hr1; [by constructor|]. by apply IH2.
  - rewrite !mt_Star. rewrite (st_rel_lengths _ _ Hst).
    apply star_loop_rel; [|done|done].
    intros a a' k1 k1' Ha Hk1. apply IH; [|done|done].
    destruct ic; [done|exact Hb].
  - cbn [mt].
    assert (Hn : res_rel (mt ic r st Some) (mt ic r st' Some)).
    { apply IH; [destruct ic; [done|exact Hb]|done|].
      intros a a' Ha. by constructor. }
    destruct Hn; [constructor|by apply Hk].
  - cbn [mt]. apply IH; [destruct ic; [done|exact Hb]|done|].
    intros a a' Ha. apply Hk. destruct Ha as (Hp' & Hr' & _).
    destruct Hst as (Hp & Hr & _).
    split; [done|split; [done|]]. cbn. constructor.
    rewrite (Forall2_length _ _ _ Hr), (Forall2_length _ _ _ Hr').
    by apply Forall2_take.
Qed.

Lemma search_rel (re : RegExp) :
  case_blind re = true →
  ∀ rest rest' prev prev',
    Forall2 same_letter prev prev' → Forall2 same_letter rest rest' →
    option_Forall2 (fun x y => st_rel x.1 y.1 ∧ st_rel x.2 y.2)
      (search re prev rest) (search re prev' rest').
Proof.
  intros Hb rest rest' prev prev' Hp Hr. revert prev prev' Hp.
  assert (Hk : k_rel Some Some) by (intros x y Hxy; by constructor).
  induction Hr as [|c c' rest rest' Hc Hr IH]; intros prev prev' Hp.
  - cbn [search].
    assert (Hst : st_rel (MState prev [] None) (MState prev' [] None)).
    { split; [done|split; [constructor|constructor]]. }
    pose proof (mt_rel (ignoreCase re) (source re) Hb _ _ Some Some Hst Hk)
      as Hm.
    destruct Hm as [a b Hab|]; constructor. done.
  - cbn [search].
    assert (Hst : st_rel (MState prev (c :: rest) None)
                         (MState prev' (c' :: rest') None)).
    { split; [done|split; [by constructor|constructor]]. }
    pose proof (mt_rel (ignoreCase re) (source re) Hb _ _ Some Some Hst Hk)
      as Hm.
    destruct Hm as [a b Hab|].
    + constructor. done.
    + apply IH. by constructor.
Qed.

(** A pattern with the [i] flag, or without letters, gives the same
    [test] on two texts that differ only in the case of ASCII letters. *)
Lemma test_same_letters (re : RegExp) (s s' : jsstring) :
  case_blind re = true → Forall2 same_letter s s' → test re s = test re s'.
Proof.
  intros Hb Hs. unfold test.
  pose proof (search_rel re Hb s s' [] [] (List.Forall2_nil _) Hs) as H.
  by destruct H.
Qed.

Lemma DENY_RULES_case_blind :
  Forall (fun r => case_blind (pattern r) = true) DENY_RULES.
Proof. repeat constructor. Qed.


Lemma Forall2_rev_same {A : Type} (P : A → A → Prop) (l k : list A) :
  Forall2 P l k → Forall2 P (rev l) (rev k).
Proof.
  induction 1 as [|x y l k Hxy _ IH]; [constructor|].
  cbn [rev]. apply Forall2_app; [done|]. by repeat constructor.
Qed.

Lemma trimStart_same (s s' : jsstring) :
  Forall2 same_letter s s' → Forall2 same_letter (trimStart s) (trimStart s').
Proof.
  induction 1 as [|c c' s s' Hc Hs IH]; [constructor|].
  cbn [trimStart].
  rewrite (blind_pred is_space c c' (or_introl is_space_letter) Hc).
  destruct (is_space c'); [done|by constructor].
Qed.

Lemma trim_same (s s' : jsstring) :
  Forall2 same_letter s s' → Forall2 same_letter (trim s) (trim s').
Proof.
  intros H. unfold trim, trimEnd.
  by apply Forall2_rev_same, trimStart_same, Forall2_rev_same, trimStart_same.
Qed.

Lemma find_agree {A : Type} (f g : A → bool) (l : list A) :
  Forall (fun x => f x = g x) l → find f l = find g l.
Proof.
  induction 1 as [|x l Hx _ IH]; [done|]. cbn [find]. by rewrite Hx, IH.
Qed.


(** X1: a command the destructive rules deny stays denied, by the same
    rule and for the same reason, when letters of it change case, as long
    as no custom allow pattern matches the new spelling: every rule of the
    table is either case-insensitive or free of letters. *)
Theorem destructive_denial_ignores_case
    (compile : jsstring → jsstring → option bool)
    (model : jsstring → bool → AiOutcome)
    (cg : option CommandGuardSettings) (c c' : jsstring) (bg : bool) :
  Forall2 same_letter c c' →
  find (fun raw => custom_test compile raw (trim c'))
       (r_customAllowPatterns (resolveGuardSettings cg)) = None →
  deniedBy BlockDestructive (guardCommand compile model cg c bg) = true →
  allowed (guardCommand compile model cg c' bg) = false
  ∧ rule (guardCommand compile model cg c' bg)
    = rule (guardCommand compile model cg c bg)
  ∧ reason (guardCommand compile model cg c' bg)
    = reason (guardCommand compile model cg c bg).
Proof.
  intros Hcc Hallow Hden. unfold guardCommand in *.
  destruct (negb (r_enabled (resolveGuardSettings cg))); [done|].
  rewrite Hallow.
  destruct (find (fun raw => custom_test compile raw (trim c))
              (r_customAllowPatterns _)); [done|].
  destruct (find (rule_fires _ bg (trim c)) DENY_RULES) as [r|] eqn:Hfind.
  - assert (Hcat : category r = BlockDestructive).
    { destruct (decide (category r = BlockDestructive)) as [|Hne]; [done|].
      apply find_fires in Hfind as [Hin _].
      pose proof (rule_verdict_deniedBy BlockDestructive (trim c) r Hin Hne).
      change (deniedBy BlockDestructive (rule_verdict (trim c) r) = true)
        in Hden. congruence. }
    assert (HD : find (rule_fires (resolveGuardSettings cg) bg (trim c))
                   destructive_block = Some r).
    { rewrite DENY_RULES_blocks, find_app_or in Hfind.
      destruct (find _ destructive_block); [done|].
      apply find_fires in Hfind as [Hin _].
      apply elem_of_app in Hin as [Hin|Hin].
      - apply (proj1 (Forall_forall _ _) hanging_block_category) in Hin.
        congruence.
      - apply (proj1 (Forall_forall _ _) remaining_block_category) in Hin.
        by destruct Hin. }
    assert (HD' : find (rule_fires (resolveGuardSettings cg) bg (trim c'))
                    destructive_block = Some r).
    { rewrite <- HD. apply find_agree. apply Forall_forall. intros d Hd.
      pose proof (proj1 (Forall_forall _ _) destructive_block_category d Hd)
        as Hdc.
      unfold rule_fires. rewrite Hdc. cbn [textToCheck]. f_equal.
      symmetry. apply test_same_letters; [|by apply trim_same].
      apply (proj1 (Forall_forall _ _) DENY_RULES_case_blind).
      rewrite DENY_RULES_blocks. apply elem_of_app. by left. }
    rewrite DENY_RULES_blocks, find_app_or, HD'.
    unfold rule_verdict. rewrite Hcat. done.
  - exfalso. destruct (find _ (r_customDenyPatterns _)) as [raw|].
    + by rewrite (custom_rule_deniedBy BlockDestructive raw) in Hden.
    + destruct (r_aiReview _); [|done].
      destruct (negb _); [|done].
      unfold deniedBy in Hden. cbn [allowed rule negb andb] in Hden.
      by rewrite rule_ids_not_ai_review in Hden.
Qed.

(** [destructive_denial_ignores_case] at [rm -rf /] written in capitals. *)
Lemma destructive_denial_ignores_case_upper :
  allowed (guardCommand Samples.noRegExp Samples.offline None
             (str "RM -RF /") false) = false
  ∧ rule (guardCommand Samples.noRegExp Samples.offline None
            (str "RM -RF /") false)
    = rule (guardCommand Samples.noRegExp Samples.offline None
              (str "rm -rf /") false)
  ∧ reason (guardCommand Samples.noRegExp Samples.offline None
              (str "RM -RF /") false)
    = reason (guardCommand Samples.noRegExp Samples.offline None
                (str "rm -rf /") false).
Proof.
  apply (destructive_denial_ignores_case Samples.noRegExp
           Samples.offline None (str "rm -rf /") (str "RM -RF /") false).
  - repeat constructor.
  - reflexivity.
  - vm_compute. reflexivity.
Defined.

End CaseFacts.

(* ===================================================================== *)
(** * Retries, token usage and waves of the mission worker *)
(* ===================================================================== *)

Module WorkerMore.
Import Utils MissionWorker WorkerDefs WorkerFacts.

Lemma attemptExecution_call (E : Env) (step : StepRow) (cmd : jsstring)
    (timeoutMs : Z) (w : World) :
  attemptExecution E step cmd timeoutMs w
  = (settled (sandbox E (sandbox_calls w) (sandboxCallOf step cmd timeoutMs)),
     count_call
       (sleep (Z.of_N (elapsed (sandbox E (sandbox_calls w)
                                  (sandboxCallOf step cmd timeoutMs)))) w)).
Proof. reflexivity. Qed.

Lemma attemptsElapsed_0 (E : Env) (call : SandboxCall) (n : nat) :
  attemptsElapsed E call n 0 = Z.of_N (elapsed (sandbox E n call)).
Proof. unfold attemptsElapsed. cbn. lia. Qed.

Lemma attemptsElapsed_S (E : Env) (call : SandboxCall) (n k : nat) :
  attemptsElapsed E call n (S k)
  = (Z.of_N (elapsed (sandbox E n call)) + attemptsElapsed E call (S n) k)%Z.
Proof. reflexivity. Qed.

(** The retry loop when the first [k] attempts are rejected and the next
    one resolves. *)
Lemma retryLoop_resolves (E : Env) (step : StepRow) (cmd : jsstring)
    (timeoutMs : Z) (r : ExecutionResult) (k : nat) :
  ∀ (attempt left : nat) (w : World),
    (k ≤ left)%nat →
    (∀ i, (i < k)%nat →
          ∃ m, settled (sandbox E (sandbox_calls w + i)
                          (sandboxCallOf step cmd timeoutMs)) = Rejected m) →
    settled (sandbox E (sandbox_calls w + k) (sandboxCallOf step cmd timeoutMs))
    = Resolved r →
    ∃ w',
      retryLoop sleep (attemptExecution E step cmd timeoutMs) 2000 attempt left w
      = (Resolved r, w')
      ∧ sandbox_calls w' = (sandbox_calls w + k + 1)%nat
      ∧ now w'
        = (now w
           + attemptsElapsed E (sandboxCallOf step cmd timeoutMs)
               (sandbox_calls w) k
           + 2000 * 2 ^ Z.of_nat attempt * (2 ^ Z.of_nat k - 1))%Z.
Proof.
  induction k as [|k IH]; intros attempt left w Hle Hrej Hres.
  - rewrite Nat.add_0_r in Hres.
    destruct left; cbn [retryLoop]; rewrite attemptExecution_call, Hres;
      (eexists; split; [reflexivity|]);
      rewrite attemptsElapsed_0; cbn [sandbox_calls now count_call sleep];
      split; lia.
  - destruct left as [|left]; [lia|].
    destruct (Hrej 0%nat ltac:(lia)) as [m Hm]. rewrite Nat.add_0_r in Hm.
    cbn [retryLoop]. rewrite attemptExecution_call, Hm.
    set (w1 := sleep _ (count_call _)).
    destruct (IH (S attempt) left w1) as (w' & Hrun & Hcalls & Hnow).
    + lia.
    + intros i Hi. destruct (Hrej (S i) ltac:(lia)) as [m' Hm'].
      exists m'. rewrite <- Hm'. f_equal. f_equal.
      subst w1. cbn [sandbox_calls sleep count_call]. lia.
    + rewrite <- Hres. f_equal. f_equal.
      subst w1. cbn [sandbox_calls sleep count_call]. lia.
    + exists w'. split; [exact Hrun|].
      subst w1. cbn [sandbox_calls sleep count_call now] in *.
      split; [lia|]. rewrite Hnow, attemptsElapsed_S.
      rewrite !Nat2Z.inj_succ, !Z.pow_succ_r by lia.
      assert (0 < 2 ^ Z.of_nat attempt)%Z by (apply Z.pow_pos_nonneg; lia).
      lia.
Qed.

(** The retry loop when every attempt is rejected. *)
Lemma retryLoop_exhausted (E : Env) (step : StepRow) (cmd : jsstring)
    (timeoutMs : Z) (left : nat) :
  ∀ (attempt : nat) (w : World),
    (∀ i, (i ≤ left)%nat →
          ∃ m, settled (sandbox E (sandbox_calls w + i)
                          (sandboxCallOf step cmd timeoutMs)) = Rejected m) →
    ∃ m w',
      retryLoop sleep (attemptExecution E step cmd timeoutMs) 2000 attempt left w
      = (Rejected m, w')
      ∧ settled (sandbox E (sandbox_calls w + left)
                   (sandboxCallOf step cmd timeoutMs)) = Rejected m
      ∧ sandbox_calls w' = (sandbox_calls w + left + 1)%nat
      ∧ now w'
        = (now w
           + attemptsElapsed E (sandboxCallOf step cmd timeoutMs)
               (sandbox_calls w) left
           + 2000 * 2 ^ Z.of_nat attempt * (2 ^ Z.of_nat left - 1))%Z.
Proof.
  induction left as [|left IH]; intros attempt w Hrej.
  - destruct (Hrej 0%nat ltac:(lia)) as [m Hm]. rewrite Nat.add_0_r in Hm.
    cbn [retryLoop]. rewrite attemptExecution_call, Hm.
    exists m. eexists. split; [reflexivity|].
    rewrite Nat.add_0_r, attemptsElapsed_0.
    cbn [sandbox_calls now count_call sleep]. repeat split; [done|lia|lia].
  - destruct (Hrej 0%nat ltac:(lia)) as [m0 Hm0]. rewrite Nat.add_0_r in Hm0.
    cbn [retryLoop]. rewrite attemptExecution_call, Hm0.
    set (w1 := sleep _ (count_call _)).
    destruct (IH (S attempt) w1) as (m & w' & Hrun & Hlast & Hcalls & Hnow).
    + intros i Hi. destruct (Hrej (S i) ltac:(lia)) as [m' Hm'].
      exists m'. rewrite <- Hm'. f_equal. f_equal.
      subst w1. cbn [sandbox_calls sleep count_call]. lia.
    + exists m, w'. split; [exact Hrun|].
      subst w1. cbn [sandbox_calls sleep count_call now] in *.
      split; [|split; [lia|]].
      * rewrite <- Hlast. f_equal. f_equal. lia.
      * rewrite Hnow, attemptsElapsed_S.
        rewrite !Nat2Z.inj_succ, !Z.pow_succ_r by lia.
        assert (0 < 2 ^ Z.of_nat attempt)%Z by (apply Z.pow_pos_nonneg; lia).
        lia.
Qed.

(** X2: a step whose sandbox request fails [k] times and then succeeds,
    with [k] within the retries the step is allowed: the executor makes
    [k + 1] requests, waits 2 s, 4 s, ... between them ([2000 * (2^k - 1)]
    ms in all), and returns the result of the request that succeeded. *)
Theorem runAttempts_backoff (E : Env) (step : StepRow) (cmd : jsstring)
    (timeoutMs maxRetries : Z) (w : World) (k : nat) (r : ExecutionResult) :
  (k ≤ Z.to_nat maxRetries)%nat →
  (∀ i, (i < k)%nat →
        ∃ m, settled (sandbox E (sandbox_calls w + i)
                        (sandboxCallOf step cmd timeoutMs)) = Rejected m) →
  settled (sandbox E (sandbox_calls w + k) (sandboxCallOf step cmd timeoutMs))
  = Resolved r →
  (runAttempts E step cmd timeoutMs maxRetries w).1 = r
  ∧ sandbox_calls (runAttempts E step cmd timeoutMs maxRetries w).2
    = (sandbox_calls w + k + 1)%nat
  ∧ now (runAttempts E step cmd timeoutMs maxRetries w).2
    = (now w
       + attemptsElapsed E (sandboxCallOf step cmd timeoutMs) (sandbox_calls w) k
       + 2000 * (2 ^ Z.of_nat k - 1))%Z.
Proof.
  intros Hk Hrej Hres. unfold runAttempts.
  destruct (Z.ltb_spec 0 maxRetries) as [Hpos|Hneg].
  - unfold retryWithBackoff.
    destruct (retryLoop_resolves E step cmd timeoutMs r k 0 (Z.to_nat maxRetries)
                w Hk Hrej Hres) as (w' & -> & Hcalls & Hnow).
    cbn [fst snd]. split; [done|]. split; [done|].
    rewrite Hnow. change (2 ^ Z.of_nat 0)%Z with 1%Z. lia.
  - assert (k = 0%nat) as -> by lia. rewrite Nat.add_0_r in Hres.
    rewrite attemptExecution_call, Hres. cbn [fst snd].
    rewrite attemptsElapsed_0. cbn [sandbox_calls now count_call sleep].
    split; [done|]. split; lia.
Qed.

(** [runAttempts_backoff] on a request that fails twice: three requests of
    10 ms each and 2 s + 4 s of waiting. *)
Lemma runAttempts_backoff_flaky :
  (runAttempts Samples.sampleEnv (Samples.pendingStep 1 "flaky" true)
     (str "flaky") 300000 2 Samples.flakyWorld).1
  = mkExec (str "ok") [] 0
  ∧ sandbox_calls
      (runAttempts Samples.sampleEnv (Samples.pendingStep 1 "flaky" true)
         (str "flaky") 300000 2 Samples.flakyWorld).2 = 3%nat
  ∧ now (runAttempts Samples.sampleEnv (Samples.pendingStep 1 "flaky" true)
           (str "flaky") 300000 2 Samples.flakyWorld).2
    = (1000 + 30 + 6000)%Z.
Proof.
  destruct (runAttempts_backoff Samples.sampleEnv
              (Samples.pendingStep 1 "flaky" true) (str "flaky") 300000 2
              Samples.flakyWorld 2 (mkExec (str "ok") [] 0))
    as (Hres & Hcalls & Hnow).
  - vm_compute. lia.
  - intros [|[|i]] Hi; [by eexists..|lia].
  - reflexivity.
  - split; [exact Hres|]. split; [exact Hcalls|]. rewrite Hnow.
    vm_compute. reflexivity.
Defined.

(** X3: a step whose every sandbox request fails: after [maxRetries + 1]
    requests the executor gives up and reports exit code -1 with empty
    output and the message of the last failure as stderr ([Step execution
    failed] when that message is empty). *)
Theorem runAttempts_exhausted (E : Env) (step : StepRow) (cmd : jsstring)
    (timeoutMs maxRetries : Z) (w : World) :
  (∀ i, (i ≤ Z.to_nat maxRetries)%nat →
        ∃ m, settled (sandbox E (sandbox_calls w + i)
                        (sandboxCallOf step cmd timeoutMs)) = Rejected m) →
  ∃ m,
    settled (sandbox E (sandbox_calls w + Z.to_nat maxRetries)
               (sandboxCallOf step cmd timeoutMs)) = Rejected m
    ∧ (runAttempts E step cmd timeoutMs maxRetries w).1
      = mkExec [] (match m with
                   | [] => str "Step execution failed"
                   | _ :: _ => m
                   end) (-1)
    ∧ sandbox_calls (runAttempts E step cmd timeoutMs maxRetries w).2
      = (sandbox_calls w + Z.to_nat maxRetries + 1)%nat
    ∧ now (runAttempts E step cmd timeoutMs maxRetries w).2
      = (now w
         + attemptsElapsed E (sandboxCallOf step cmd timeoutMs)
             (sandbox_calls w) (Z.to_nat maxRetries)
         + 2000 * (2 ^ Z.of_nat (Z.to_nat maxRetries) - 1))%Z.
Proof.
  intros Hrej. unfold runAttempts.
  destruct (Z.ltb_spec 0 maxRetries) as [Hpos|Hneg].
  - unfold retryWithBackoff.
    destruct (retryLoop_exhausted E step cmd timeoutMs (Z.to_nat maxRetries) 0 w
                Hrej) as (m & w' & -> & Hlast & Hcalls & Hnow).
    exists m. cbn [fst snd]. split; [done|]. split; [by destruct m|].
    split; [done|]. rewrite Hnow. change (2 ^ Z.of_nat 0)%Z with 1%Z. lia.
  - assert (Z.to_nat maxRetries = 0%nat) as Hz by lia. rewrite Hz in *.
    destruct (Hrej 0%nat ltac:(lia)) as [m Hm]. exists m.
    split; [exact Hm|]. rewrite Nat.add_0_r in Hm.
    rewrite attemptExecution_call, Hm. cbn [fst snd].
    rewrite attemptsElapsed_0. cbn [sandbox_calls now count_call sleep].
    split; [by destruct m|]. split; lia.
Qed.

(** [runAttempts_exhausted] on a background step that never becomes
    ready within its 5 s: three requests, then exit code -1. *)
Lemma runAttempts_exhausted_background :
  ∃ m,
    (runAttempts Samples.sampleEnv MoreSamples.backgroundStep
       (str "npm start") 5000 2 Samples.flakyWorld).1 = mkExec [] m (-1)
    ∧ m = str "Timeout"
    ∧ sandbox_calls
        (runAttempts Samples.sampleEnv MoreSamples.backgroundStep
           (str "npm start") 5000 2 Samples.flakyWorld).2 = 3%nat
    ∧ now (runAttempts Samples.sampleEnv MoreSamples.backgroundStep
             (str "npm start") 5000 2 Samples.flakyWorld).2
      = (1000 + 15000 + 6000)%Z.
Proof.
  destruct (runAttempts_exhausted Samples.sampleEnv
              MoreSamples.backgroundStep (str "npm start") 5000 2
              Samples.flakyWorld)
    as (m & Hlast & Hres & Hcalls & Hnow).
  - intros i _. by eexists.
  - injection Hlast as <-. exists (str "Timeout").
    split; [exact Hres|]. split; [reflexivity|]. split; [exact Hcalls|].
    rewrite Hnow. vm_compute. reflexivity.
Defined.


(** ** Token usage *)

Lemma bump_zero (u : Usage) : bump (mkUsage 0 0 0) u = u.
Proof. destruct u. unfold bump. cbn. f_equal; lia. Qed.

Lemma bump_swap (u v acc : Usage) :
  bump u (bump v acc) = bump v (bump u acc).
Proof. unfold bump. cbn. f_equal; lia. Qed.

Lemma usage_sum_app (t1 t2 : list (jsstring * Usage)) (k : jsstring) :
  usage_sum (t1 ++ [(k, mkUsage 0 0 0)]) = usage_sum t1.
Proof.
  induction t1 as [|kv t1 IH]; cbn [app usage_sum foldr fst snd].
  - destruct (jseq k (str "total")); [done|]. done.
  - fold (usage_sum (t1 ++ [(k, mkUsage 0 0 0)])). fold (usage_sum t1).
    by rewrite IH.
Qed.

Lemma alter_usage_keys (role : jsstring) (f : Usage → Usage)
    (t : list (jsstring * Usage)) :
  fst <$> alter_usage role f t = fst <$> t.
Proof.
  unfold alter_usage. induction t as [|kv t IH]; [done|].
  cbn [map fmap list_fmap]. cbn [fmap list_fmap] in IH. rewrite IH.
  by destruct (jseq kv.1 role).
Qed.

Lemma jseq_eq (a b : jsstring) : jseq a b = true ↔ a = b.
Proof. unfold jseq. apply bool_decide_eq_true. Qed.

Lemma alter_usage_absent (role : jsstring) (f : Usage → Usage)
    (t : list (jsstring * Usage)) :
  role ∉ fst <$> t → alter_usage role f t = t.
Proof.
  unfold alter_usage. induction t as [|kv t IH]; [done|].
  cbn [map fmap list_fmap]. intros Hnot.
  apply not_elem_of_cons in Hnot as [Hne Hnot].
  rewrite (IH Hnot).
  destruct (jseq kv.1 role) eqn:Hj; [|done].
  apply jseq_eq in Hj. congruence.
Qed.

(** Adding [u] to the entry of a role other than [total] adds [u] to the sum. *)
Lemma usage_sum_alter_role (role : jsstring) (u : Usage)
    (t : list (jsstring * Usage)) :
  role ≠ str "total" → NoDup (fst <$> t) → role ∈ fst <$> t →
  usage_sum (alter_usage role (bump u) t) = bump u (usage_sum t).
Proof.
  intros Hrole. induction t as [|kv t IH]; intros Hnd Hin.
  - by apply elem_of_nil in Hin.
  - cbn [fmap list_fmap] in Hnd, Hin. apply NoDup_cons in Hnd as [Hnot Hnd].
    unfold alter_usage. cbn [map]. fold (alter_usage role (bump u) t).
    destruct (jseq kv.1 role) eqn:Hj.
    + apply jseq_eq in Hj. rewrite alter_usage_absent by (by rewrite <- Hj).
      cbn [usage_sum foldr fst snd]. fold (usage_sum t).
      destruct (jseq kv.1 (str "total")) eqn:Ht.
      * apply jseq_eq in Ht. congruence.
      * unfold bump. cbn. f_equal; lia.
    + cbn [usage_sum foldr]. fold (usage_sum (alter_usage role (bump u) t)).
      fold (usage_sum t).
      assert (Hin' : role ∈ fst <$> t).
      { apply elem_of_cons in Hin as [Heq|?]; [|done].
        assert (jseq kv.1 role = true) by (by apply jseq_eq). congruence. }
      rewrite (IH Hnd Hin').
      destruct (jseq kv.1 (str "total")); [done|]. apply bump_swap.
Qed.

(** Changing the [total] entry leaves the sum of the others alone. *)
Lemma usage_sum_alter_total (f : Usage → Usage) (t : list (jsstring * Usage)) :
  usage_sum (alter_usage (str "total") f t) = usage_sum t.
Proof.
  unfold alter_usage. induction t as [|kv t IH]; [done|].
  cbn [map usage_sum foldr].
  fold (usage_sum (map (fun kv0 => if jseq kv0.1 (str "total")
                                    then (kv0.1, f kv0.2) else kv0) t)).
  fold (usage_sum t). rewrite IH.
  destruct (jseq kv.1 (str "total")) eqn:Ht; cbn [fst snd]; by rewrite Ht.
Qed.

Lemma alter_usage_elem (role : jsstring) (f : Usage → Usage)
    (t : list (jsstring * Usage)) (k : jsstring) (u : Usage) :
  (k, u) ∈ t →
  (k, if jseq k role then f u else u) ∈ alter_usage role f t.
Proof.
  intros Hin. unfold alter_usage.
  apply (list_elem_of_fmap_2 (fun kv => if jseq kv.1 role then (kv.1, f kv.2) else kv))
    in Hin.
  cbn [fst snd] in Hin. destruct (jseq k role); exact Hin.
Qed.

(** [trackUsage] for a role that is not called [total]. *)
Lemma trackUsage_other_role (mission : MissionRecord) (role : jsstring)
    (usage : Usage) (l : Local) (w : World) :
  role ≠ str "total" →
  usage_consistent (missionTokenUsage l) →
  usage_consistent (missionTokenUsage (trackUsage mission role usage l w).1)
  ∧ usage_sum (missionTokenUsage (trackUsage mission role usage l w).1)
    = bump usage (usage_sum (missionTokenUsage l)).
Proof.
  intros Hrole [Hnd Htot]. unfold trackUsage. cbn [fst snd missionTokenUsage].
  set (t0 := missionTokenUsage l) in *.
  set (t1 := if existsb (fun kv => jseq kv.1 role) t0 then t0
             else t0 ++ [(role, mkUsage 0 0 0)]).
  assert (H1 : NoDup (fst <$> t1) ∧ role ∈ fst <$> t1
               ∧ usage_sum t1 = usage_sum t0
               ∧ (str "total", usage_sum t0) ∈ t1).
  { subst t1. destruct (existsb _ t0) eqn:Hex.
    - split; [done|]. split; [|done].
      apply existsb_exists in Hex as (kv & Hin & Hj). apply jseq_eq in Hj.
      rewrite <- Hj. apply list_elem_of_fmap_2. by apply list_elem_of_In.
    - assert (Hnot : role ∉ fst <$> t0).
      { intros Hin. apply list_elem_of_fmap in Hin as (kv & -> & Hin).
        assert (existsb (fun kv0 => jseq kv0.1 kv.1) t0 = true); [|congruence].
        apply existsb_exists. exists kv. split; [by apply list_elem_of_In|].
        by apply jseq_eq. }
      rewrite fmap_app. cbn [fmap list_fmap fst].
      split; [|split; [|split]].
      + apply NoDup_app. split; [done|]. split; [|apply NoDup_singleton].
        intros x Hx Hx'. apply list_elem_of_singleton in Hx'. by subst.
      + apply elem_of_app. right. by apply list_elem_of_singleton.
      + apply (usage_sum_app t0 [] role).
      + apply elem_of_app. by left. }
  destruct H1 as (Hnd1 & Hin1 & Hsum1 & Htot1).
  assert (Hsum3 : usage_sum (alter_usage (str "total") (bump usage)
                               (alter_usage role (bump usage) t1))
                  = bump usage (usage_sum t0)).
  { rewrite usage_sum_alter_total, usage_sum_alter_role by done.
    by rewrite Hsum1. }
  split; [|exact Hsum3].
  split; [by rewrite !alter_usage_keys|]. rewrite Hsum3.
  pose proof (alter_usage_elem role (bump usage) t1 _ _ Htot1) as H2.
  assert (Hj : jseq (str "total") role = false).
  { destruct (jseq (str "total") role) eqn:Hj; [|done].
    apply jseq_eq in Hj. congruence. }
  rewrite Hj in H2.
  pose proof (alter_usage_elem (str "total") (bump usage) _ _ _ H2) as H3.
  assert (Hjt : jseq (str "total") (str "total") = true) by (by apply jseq_eq).
  rewrite Hjt in H3. exact H3.
Qed.

(** X4: [trackUsage] keeps the in-memory usage table consistent for the
    two roles the worker tracks, [planner] and [coder]: the [total] entry
    stays the sum of the entries of the roles, whatever the order of the
    calls, and each call adds its usage to that sum.  Nothing is said of
    the copy handed to [missions.patch]: the table goes there as a raw
    object and what the row holds afterwards is the database layer's
    business. *)
Theorem trackUsage_keeps_total (mission : MissionRecord) (role : jsstring)
    (usage : Usage) (l : Local) (w : World) :
  role ∈ [str "planner"; str "coder"] →
  usage_consistent (missionTokenUsage l) →
  usage_consistent (missionTokenUsage (trackUsage mission role usage l w).1)
  ∧ usage_sum (missionTokenUsage (trackUsage mission role usage l w).1)
    = bump usage (usage_sum (missionTokenUsage l)).
Proof.
  intros Hrole. apply trackUsage_other_role.
  apply elem_of_cons in Hrole as [->|Hrole]; [done|].
  apply list_elem_of_singleton in Hrole as ->. done.
Qed.

(** [trackUsage_keeps_total] at the first call of the planner. *)
Lemma trackUsage_keeps_total_planner :
  usage_consistent
    (missionTokenUsage
       (trackUsage Samples.mission1 (str "planner") (mkUsage 1 2 3)
          Samples.local0 (Samples.worldWith [])).1)
  ∧ usage_sum
      (missionTokenUsage
         (trackUsage Samples.mission1 (str "planner") (mkUsage 1 2 3)
            Samples.local0 (Samples.worldWith [])).1)
    = mkUsage 1 2 3.
Proof.
  destruct (trackUsage_keeps_total Samples.mission1 (str "planner")
              (mkUsage 1 2 3) Samples.local0 (Samples.worldWith []))
    as (Hcons & Hsum).
  - left.
  - split; [apply NoDup_singleton|left].
  - split; [exact Hcons|]. rewrite Hsum. reflexivity.
Defined.



(** ** A wave consumes its pending steps *)



Lemma missionId_assign (a : StepAssign) (r : StepRow) :
  missionId (assign a r) = missionId r.
Proof. by destruct a. Qed.

Lemma missionId_assigns (data : list StepAssign) (r : StepRow) :
  missionId (assigns data r) = missionId r.
Proof.
  unfold assigns. revert r.
  induction data as [|a data IH]; intros r; simpl; [done|].
  by rewrite IH, missionId_assign.
Qed.












End WorkerMore.

(* ===================================================================== *)
(** * Quoting for the shell *)
(* ===================================================================== *)

Module ShellFacts.
Import Utils SandboxDriver UtilsMore PosixShell ShellDefs.

(** Where a one-unit pattern first matches. *)
Lemma search_chr_none (q : N) (rest : jsstring) :
  ∀ prev, q ∉ rest → search (mkRegExp (Chr q) false) prev rest = None.
Proof.
  induction rest as [|c rest IH]; intros prev Hq; [done|].
  apply not_elem_of_cons in Hq as [Hne Hq].
  cbn [search mt ignoreCase source step1 m_rest canon andb].
  destruct (N.eqb_spec c q) as [->|_]; [done|]. by apply IH.
Qed.

Lemma search_chr_some (q : N) (pre post : jsstring) :
  ∀ prev, q ∉ pre →
    search (mkRegExp (Chr q) false) prev (pre ++ q :: post)
    = Some (MState (rev pre ++ prev) (q :: post) None,
            MState (q :: rev pre ++ prev) post None).
Proof.
  induction pre as [|c pre IH]; intros prev Hq.
  - cbn [app search mt ignoreCase source step1 m_rest m_prev m_cap canon andb rev].
    by rewrite N.eqb_refl.
  - apply not_elem_of_cons in Hq as [Hne Hq].
    cbn [app search mt ignoreCase source step1 m_rest canon andb].
    destruct (N.eqb_spec c q) as [->|_]; [done|].
    rewrite (IH (c :: prev) Hq). cbn [rev]. by rewrite <- !app_assoc.
Qed.

Lemma split_at_first (q : N) (s : jsstring) :
  q ∉ s ∨ ∃ pre post, s = pre ++ q :: post ∧ q ∉ pre.
Proof.
  induction s as [|c s IH]; [left; apply not_elem_of_nil|].
  destruct (N.eq_dec c q) as [->|Hne].
  - right. exists [], s. split; [done|apply not_elem_of_nil].
  - destruct IH as [Hnot|(pre & post & -> & Hpre)].
    + left. by apply not_elem_of_cons.
    + right. exists (c :: pre), post. split; [done|by apply not_elem_of_cons].
Qed.

Lemma subst1_absent (q : N) (repl s : jsstring) : q ∉ s → subst1 q repl s = s.
Proof.
  induction s as [|c s IH]; [done|]. intros Hq.
  apply not_elem_of_cons in Hq as [Hne Hq]. cbn [subst1 flat_map].
  destruct (N.eqb_spec c q); [congruence|]. cbn [app]. f_equal. by apply IH.
Qed.

Lemma subst1_app (q : N) (repl a b : jsstring) :
  subst1 q repl (a ++ b) = subst1 q repl a ++ subst1 q repl b.
Proof. unfold subst1. apply flat_map_app. Qed.

(** [s.replace(/q/g, repl)] replaces every [q]. *)
Lemma replaceAll_chr (q : N) (repl s : jsstring) :
  replaceAll (mkRegExp (Chr q) false) repl s = subst1 q repl s.
Proof.
  unfold replaceAll. generalize (@nil N) as prev.
  assert (H : ∀ fuel rest prev, (length rest < fuel)%nat →
            replaceAll_from (mkRegExp (Chr q) false) repl fuel prev rest
            = subst1 q repl rest).
  { induction fuel as [|fuel IH]; intros rest prev Hlen; [lia|].
    cbn [replaceAll_from].
    destruct (split_at_first q rest) as [Hnot|(pre & post & -> & Hpre)].
    - rewrite search_chr_none by done. by rewrite subst1_absent.
    - rewrite search_chr_some by done. cbn [m_rest m_prev].
      rewrite length_app. cbn [length].
      replace (length pre + S (length post) - S (length post))%nat
        with (length pre) by lia.
      rewrite take_app_length.
      destruct (Nat.ltb_spec (length post) (S (length post))); [|lia].
      rewrite IH by (rewrite length_app in Hlen; cbn [length] in Hlen; lia).
      rewrite subst1_app, (subst1_absent q repl pre) by done.
      cbn [subst1 flat_map]. by rewrite N.eqb_refl. }
  intros prev. apply H. lia.
Qed.

Lemma read_unquoted_end (rest acc : jsstring) :
  word_end rest → read_word Unquoted rest acc = Some (acc, rest).
Proof.
  destruct rest as [|c rest]; [done|]. cbn [word_end read_word]. intros Hc.
  destruct (N.eqb_spec c 39) as [->|_]; [done|].
  destruct (N.eqb_spec c 34) as [->|_]; [done|].
  destruct (N.eqb_spec c 92) as [->|_]; [done|].
  by rewrite Hc.
Qed.

(** Reading, inside single quotes, a text whose single quotes were each
    written as [repl], where [repl] closes the quotes, yields one quote
    and opens them again. *)
Lemma read_single_escaped (repl : jsstring) :
  (∀ rest acc, read_word Unquoted (repl ++ rest) acc
               = read_word Single rest (acc ++ [39])) →
  ∀ s rest acc,
    read_word Single (subst1 39 (39 :: repl) s ++ 39 :: rest) acc
    = read_word Unquoted rest (acc ++ s).
Proof.
  intros Hrepl. induction s as [|c s IH]; intros rest acc.
  - cbn. by rewrite app_nil_r.
  - cbn [subst1 flat_map]. fold (subst1 39 (39 :: repl) s).
    destruct (N.eqb_spec c 39) as [->|Hne].
    + cbn [app read_word N.eqb Pos.eqb]. rewrite <- app_assoc.
      rewrite Hrepl, IH. by rewrite <- app_assoc.
    + cbn [app read_word].
      destruct (N.eqb_spec c 39); [done|]. rewrite IH. by rewrite <- app_assoc.
Qed.

(** X6: [shellEscape] quotes its input for the shell: read as a shell
    word, its output is the input, code unit for code unit, whatever the
    input contains. *)
Theorem shellEscape_reads_back (input rest : jsstring) :
  word_end rest →
  read_word Unquoted (shellEscape input ++ rest) [] = Some (input, rest).
Proof.
  intros Hrest. unfold shellEscape. rewrite replaceAll_chr.
  cbn [app read_word N.eqb Pos.eqb]. rewrite <- app_assoc. cbn [app].
  rewrite (read_single_escaped [34; 39; 34; 39]); [by apply read_unquoted_end|].
  intros rest' acc. reflexivity.
Qed.

(** [shellEscape_reads_back] on an input with a single quote. *)
Lemma shellEscape_reads_back_quote :
  read_word Unquoted (shellEscape (str "it's") ++ str " && ls") []
  = Some (str "it's", str " && ls").
Proof.
  apply (shellEscape_reads_back (str "it's") (str " && ls")).
  reflexivity.
Defined.

(** X7: the wrapper [backgroundCommand] runs hands the command to the
    inner shell unchanged: the argument after [-c], read as a shell word,
    is the command, and what follows is the redirection to the log file. *)
Theorem backgroundWrapper_passes_command (i : Instance) (cmd uuid : jsstring) :
  let tail :=
    str " > " ++ dq :: (str "/tmp/bg-" ++ uuid ++ str ".log") ++
    dq :: str " 2>&1 & echo $! > " ++ dq ::
    (str "/tmp/bg-" ++ uuid ++ str ".log") ++ str ".pid" ++ [dq] in
  ∃ word,
    backgroundWrapper i cmd uuid
    = str "nohup " ++ default (str "sh") (nonempty (shell i)) ++ str " -c "
      ++ word ++ tail
    ∧ read_word Unquoted (word ++ tail) [] = Some (cmd, tail).
Proof.
  intros tail.
  exists ([39] ++ subst1 39 [39; 92; 39; 39] cmd ++ [39]). split.
  - unfold backgroundWrapper. rewrite replaceAll_chr. subst tail.
    cbn [app]. rewrite <- !app_assoc. cbn [app]. reflexivity.
  - cbn [app read_word N.eqb Pos.eqb]. rewrite <- app_assoc. cbn [app].
    rewrite (read_single_escaped [92; 39; 39]); [by apply read_unquoted_end|].
    intros rest' acc. reflexivity.
Qed.

End ShellFacts.

(* ===================================================================== *)
(** * Output, readiness and teardown of the sandbox driver *)
(* ===================================================================== *)

Module SandboxMore.
Import Utils SandboxDriver SandboxMoreDefs.

Lemma drain_spec (pre : list (Z * StreamEvent)) :
  Forall (fun te => closes (snd te) = false) pre →
  ∀ out err rest,
    drain (pre ++ rest) out err
    = drain rest (out ++ stdout_of pre) (err ++ stderr_of pre).
Proof.
  induction 1 as [|[t e] pre He _ IH]; intros out err rest.
  - cbn. by rewrite !app_nil_r.
  - cbn [app drain]. destruct e as [text|text| |message]; try done.
    + rewrite IH. cbn [stdout_of stderr_of flat_map snd app].
      by rewrite <- app_assoc.
    + rewrite IH. cbn [stdout_of stderr_of flat_map snd app].
      by rewrite <- app_assoc.
Qed.

(** X8: what a foreground command returns is decided by the first [end]
    or [error] event of its stream: at [end], stdout and stderr are the
    texts received until then on each channel, in order and kept apart,
    and the exit code is the one Docker reports, -1 if it reports none; at
    [error] the promise rejects and the output received so far is dropped;
    without either event it never settles. *)
Theorem command_collects_output
    (path_relative : jsstring → jsstring → jsstring)
    (host_exec : list jsstring → jsstring → Exec) (i : Instance)
    (cmd : jsstring) (workdir : option jsstring) (timeoutMs : option Z)
    (pre : list (Z * StreamEvent)) :
  let exec :=
    host_exec [default (str "sh") (nonempty (shell i)); str "-lc"; cmd]
              (toContainerWorkdir path_relative i workdir) in
  Forall (fun te => closes (snd te) = false) pre →
  (∀ t post, stream exec = pre ++ (t, End) :: post →
     command path_relative host_exec i cmd workdir timeoutMs
     = Fulfilled t (mkResult (stdout_of pre) (stderr_of pre)
                      (default (-1)%Z (inspect_ExitCode exec))))
  ∧ (∀ t message post, stream exec = pre ++ (t, Error message) :: post →
       command path_relative host_exec i cmd workdir timeoutMs
       = RejectedAt t message)
  ∧ (stream exec = pre →
     command path_relative host_exec i cmd workdir timeoutMs = Pending).
Proof.
  intros exec Hpre. unfold command. fold exec.
  split; [|split].
  - intros t post ->. by rewrite drain_spec.
  - intros t message post ->. by rewrite drain_spec.
  - intros ->. rewrite <- (app_nil_r pre). by rewrite drain_spec.
Qed.

(** [command_collects_output] on a command that ends after a minute. *)
Lemma command_collects_output_slow :
  command Samples.posix_relative Samples.slowHost Samples.sampleInstance
    (str "npm test") None (Some 1000%Z)
  = Fulfilled 60000 (mkResult (str "working") [] 0).
Proof.
  destruct (command_collects_output Samples.posix_relative
              Samples.slowHost Samples.sampleInstance (str "npm test") None
              (Some 1000%Z) [(10%Z, Stdout (str "working"))])
    as (Hend & _ & _).
  - repeat constructor.
  - apply (Hend 60000%Z []). reflexivity.
Defined.

Lemma monitor_fulfilled (ready : jsstring → bool) (readyPattern : jsstring)
    (effectiveTimeout : Z) (events : list (Z * BackgroundEvent)) :
  ∀ fullLog t r,
    monitor ready readyPattern effectiveTimeout fullLog events = Fulfilled t r →
    exitCode r = 0%Z ∧ stderr r = [] ∧ ready (stdout r) = true
    ∧ (t < effectiveTimeout)%Z
    ∧ ∃ n, stdout r = fullLog ++ chunks_of (take n events).
Proof.
  induction events as [|[t0 e] events IH]; intros fullLog t r; cbn [monitor];
    [done|].
  destruct (Z.leb_spec effectiveTimeout t0); [done|].
  destruct e as [text| |message|[code|message]]; try done.
  - destruct (ready (fullLog ++ text)) eqn:Hready.
    + intros [= <- <-]. cbn [exitCode stderr stdout]. repeat split; try done.
      exists 1%nat. cbn. by rewrite app_nil_r.
    + intros Hm. destruct (IH _ _ _ Hm) as (? & ? & ? & ? & n & Hn).
      repeat split; try done. exists (S n). rewrite Hn.
      cbn [take chunks_of flat_map snd]. by rewrite <- app_assoc.
  - destruct (code =? 0)%Z; [|done].
    intros Hm. destruct (IH _ _ _ Hm) as (? & ? & ? & ? & n & Hn).
    repeat split; try done. exists (S n). by rewrite Hn.
  - intros Hm. destruct (IH _ _ _ Hm) as (? & ? & ? & ? & n & Hn).
    repeat split; try done. exists (S n). by rewrite Hn.
Qed.

(** X9: [backgroundCommand] resolves only when the log has matched the
    ready pattern: a fulfilled result has exit code 0, an empty stderr, and
    as stdout the log received up to the chunk that completed the match;
    it comes after a wrapper that exited 0 and before the timeout has run
    out ([timeoutMs], or two minutes when that is missing or 0). *)
Theorem backgroundCommand_resolves_ready
    (path_relative : jsstring → jsstring → jsstring)
    (newRegExp : jsstring → Settled (jsstring → bool))
    (host_exec : list jsstring → jsstring → Exec) (i : Instance)
    (cmd readyPattern : jsstring) (workdir : option jsstring)
    (timeoutMs : option Z) (uuid : jsstring)
    (events : list (Z * BackgroundEvent)) (t : Z) (r : ExecutionResult) :
  backgroundCommand path_relative newRegExp host_exec i cmd readyPattern
    workdir timeoutMs uuid events = Fulfilled t r →
  exitCode r = 0%Z ∧ stderr r = []
  ∧ (∃ ready, newRegExp readyPattern = Resolved ready
              ∧ ready (stdout r) = true)
  ∧ (∃ n, stdout r = chunks_of (take n events))
  ∧ ∃ t0 started,
      command path_relative host_exec i (backgroundWrapper i cmd uuid)
        workdir None = Fulfilled t0 started
      ∧ exitCode started = 0%Z
      ∧ (t < t0 + match timeoutMs with
                  | Some ms => if (ms =? 0)%Z then 120000 else ms
                  | None => 120000
                  end)%Z.
Proof.
  unfold backgroundCommand.
  destruct (command _ _ _ _ _ _) as [t0 started|t0 message|] eqn:Hstart;
    [|done|done].
  destruct (Z.eqb_spec (exitCode started) 0) as [Hzero|Hne]; [|done].
  cbn [negb]. destruct (newRegExp readyPattern) as [ready|message] eqn:Hre;
    [|done].
  destruct (monitor ready readyPattern (effectiveTimeoutOf timeoutMs) [] events)
    as [t1 r1| |] eqn:Hm; [|done|done].
  cbn [delay]. intros [= <- <-].
  destruct (monitor_fulfilled _ _ _ _ _ _ _ Hm) as (Hc & He & Hr & Ht & n & Hn).
  split; [done|]. split; [done|]. split; [by exists ready|].
  split; [by exists n|]. exists t0, started. split; [done|]. split; [done|].
  unfold effectiveTimeoutOf in Ht. lia.
Qed.

(** [backgroundCommand_resolves_ready] on a server that logs its port in
    its second chunk. *)
Lemma backgroundCommand_resolves_ready_server :
  ∃ t r,
    backgroundCommand Samples.posix_relative MoreSamples.listeningRegExp
      MoreSamples.quickHost Samples.sampleInstance (str "npm start")
      (str "listening") None (Some 5000%Z) (str "ab12") MoreSamples.serverLog
    = Fulfilled t r
    ∧ exitCode r = 0%Z ∧ stderr r = []
    ∧ stdout r = str "starting listening on 3000"
    ∧ (t < 5 + 5000)%Z.
Proof.
  eexists _, _. split; [reflexivity|].
  destruct (backgroundCommand_resolves_ready Samples.posix_relative
              MoreSamples.listeningRegExp MoreSamples.quickHost
              Samples.sampleInstance (str "npm start") (str "listening") None
              (Some 5000%Z) (str "ab12") MoreSamples.serverLog _ _ eq_refl)
    as (Hcode & Herr & _ & _ & t0 & started & Hstart & _ & Ht).
  split; [exact Hcode|]. split; [exact Herr|]. split; [reflexivity|].
  injection Hstart as <- _. exact Ht.
Defined.


(** X10: [teardown] is confined to its instance: for an id the driver does
    not track it changes nothing; otherwise it removes the instance's
    container and no other, removes no directory outside the instance's
    workspace, forgets the instance and keeps the bookkeeping of every other
    instance; and a second [teardown] of the same id changes nothing. *)
Theorem teardown_confined (env : ProcessEnv) (instanceId : jsstring)
    (d : DockerDriver) (h : Host) :
  let after := teardown env instanceId d h in
  (instances d !! instanceId = None → after = (d, h))
  ∧ (∀ tracked, instances d !! instanceId = Some tracked →
       containers after.2 = containers h ∖ {[container tracked]}
       ∧ dirs after.2 ⊆ dirs h
       ∧ (∀ q, q ∈ dirs h → q ∉ dirs after.2 →
               q = workspacePath tracked
               ∨ startsWith (workspacePath tracked ++ str "/") q = true))
  ∧ (∀ j, j ≠ instanceId →
          instances after.1 !! j = instances d !! j
          ∧ persistByInstance after.1 !! j = persistByInstance d !! j)
  ∧ instances after.1 !! instanceId = None
  ∧ teardown env instanceId after.1 after.2 = after.
Proof.
  intros after. subst after. unfold teardown.
  destruct (instances d !! instanceId) as [tracked|] eqn:Hlook.
  - cbn [fst snd instances persistByInstance containers dirs].
    split; [done|]. split; [|split; [|split]].
    + intros ? [= <-]. split; [done|].
      destruct (negb _); cbn [dirs].
      * split.
        -- intros q Hq. unfold rm_rf in Hq. by apply elem_of_filter in Hq as [_ ?].
        -- intros q Hq Hnot. unfold rm_rf in Hnot.
           destruct (decide (q = workspacePath tracked)) as [|Hne]; [by left|].
           right.
           destruct (startsWith (workspacePath tracked ++ str "/") q) eqn:Hs;
             [done|].
           exfalso. apply Hnot. apply elem_of_filter. done.
      * split; [done|]. intros q Hq Hnot. done.
    + intros j Hj. by rewrite !lookup_delete_ne.
    + apply lookup_delete_eq.
    + by rewrite lookup_delete_eq.
  - cbn [fst snd]. rewrite Hlook. split; [done|]. split; [done|].
    split; [done|]. done.
Qed.

Lemma mkdir_p_present (p : jsstring) (ds : gset (list N)) :
  (∀ a, a ∈ ancestors p → a ∈ ds) → mkdir_p p ds = {[p]} ∪ ds.
Proof.
  intros Hanc. unfold mkdir_p. apply set_eq. intros q.
  rewrite !elem_of_union, elem_of_list_to_set, !elem_of_singleton. split.
  - intros [[->|Hq]|Hq]; [by left|right; by apply Hanc|by right].
  - intros [->|Hq]; [left; by left|by right].
Qed.

(** X11: with persistence off, [spawn] followed by [teardown] leaves the
    driver and the host as they were, provided the instance is new (its id
    is not tracked, its container and its workspace are not there yet),
    the sandbox root and every directory above the workspace are there
    already, and the repository directory lies right under the workspace.
    On such a host the two recursive [fs.mkdir] calls of [spawn] create the
    workspace and the repository and nothing above them, which is what
    [teardown] removes again.  (On a host without the sandbox root,
    [spawn] creates the root as well, and [teardown] leaves it.) *)
Theorem spawn_teardown_restores
    (homedir backendRoot : jsstring)
    (path_join : jsstring → jsstring → jsstring)
    (path_isAbsolute : jsstring → bool)
    (execution : ExecutionSettings) (env env' : ProcessEnv) (missionId : Z)
    (hash uuid8 image : jsstring) (c : N) (d : DockerDriver) (h : Host) :
  let options :=
    resolveSandboxOptions homedir backendRoot path_join path_isAbsolute
      execution env in
  let spawned :=
    spawn homedir backendRoot path_join path_isAbsolute execution env
      missionId hash uuid8 image c d h in
  let instance := spawned.1.1 in
  persist options = false →
  instances d !! inst_id instance = None →
  persistByInstance d !! inst_id instance = None →
  c ∉ containers h →
  (∀ q, q ∈ dirs h →
        q ≠ workspacePath instance
        ∧ startsWith (workspacePath instance ++ str "/") q = false) →
  root options ∈ dirs h →
  (∀ a, a ∈ ancestors (workspacePath instance) → a ∈ dirs h) →
  (∀ a, a ∈ ancestors (repoPath instance) →
        a = workspacePath instance ∨ a ∈ dirs h) →
  startsWith (workspacePath instance ++ str "/") (repoPath instance) = true →
  dirs spawned.2
  = mkdir_p (repoPath instance) (mkdir_p (workspacePath instance) (dirs h))
  ∧ teardown env' (inst_id instance) spawned.1.2 spawned.2 = (d, h).
Proof.
  intros options spawned instance Hpersist Hinst Hpers Hc Hfresh Hroot
    Hanc Hrepoanc Hrepo.
  split.
  { rewrite (mkdir_p_present (workspacePath instance)) by exact Hanc.
    rewrite mkdir_p_present.
    - subst spawned instance. unfold spawn.
      cbn [fst snd dirs workspacePath repoPath].
      apply set_eq. intros q.
      rewrite !elem_of_union, !elem_of_singleton. tauto.
    - intros a Ha. apply elem_of_union.
      destruct (Hrepoanc a Ha) as [->|Hin]; [left|by right].
      by apply elem_of_singleton. }
  clear Hroot Hanc Hrepoanc.
  subst spawned instance options. unfold spawn in *.
  cbn [fst snd inst_id workspacePath repoPath] in *.
  unfold teardown. cbn [instances persistByInstance dirs containers].
  rewrite !lookup_insert_eq. cbn [default workspacePath container].
  rewrite Hpersist. change (negb (id false)) with true. cbv iota.
  destruct d as [insts pers], h as [ds cs].
  cbn [instances persistByInstance dirs containers] in *.
  f_equal; f_equal.
  - by apply delete_insert_id.
  - by apply delete_insert_id.
  - apply set_eq. intros q. unfold rm_rf. rewrite elem_of_filter.
    rewrite !elem_of_union, !elem_of_singleton. split.
    + intros [[Hne Hs] [[->| ->]|Hq]]; [done| |done]. congruence.
    + intros Hq. split; [by apply Hfresh|]. by right.
  - apply set_eq. intros x.
    rewrite elem_of_difference, elem_of_union, !elem_of_singleton. split.
    + intros [[->|Hx] Hne]; done.
    + intros Hx. split; [by right|]. intros ->. done.
Qed.

(** [spawn_teardown_restores] for mission 7 on a host that holds the
    default sandbox root and nothing else, with [persistSandbox: false]. *)
Lemma spawn_teardown_restores_sample :
  let spawned :=
    spawn Samples.home Samples.backend Samples.posix_join
      Samples.posix_isAbsolute Samples.noPersistExecution Samples.noEnv 7
      (str "0a1b2c3d") (str "4e5f6a7b") (str "node:20-bookworm-slim") 1
      Samples.emptyDriver Samples.rootHost in
  workspacePath spawned.1.1
  = str "/home/openjules/.openjules/sandboxes/sandbox-7-0a1b2c3d-4e5f6a7b"
  ∧ teardown Samples.noEnv (inst_id spawned.1.1) spawned.1.2 spawned.2
    = (Samples.emptyDriver, Samples.rootHost).
Proof.
  split; [reflexivity|].
  refine (proj2 (spawn_teardown_restores Samples.home Samples.backend
           Samples.posix_join Samples.posix_isAbsolute
           Samples.noPersistExecution Samples.noEnv Samples.noEnv 7
           (str "0a1b2c3d") (str "4e5f6a7b") (str "node:20-bookworm-slim")
           1 Samples.emptyDriver Samples.rootHost _ _ _ _ _ _ _ _ _)).
  - reflexivity.
  - reflexivity.
  - reflexivity.
  - apply not_elem_of_empty.
  - intros q Hq. apply elem_of_list_to_set in Hq.
    repeat (apply elem_of_cons in Hq as [->|Hq]; [by split|]).
    by apply elem_of_nil in Hq.
  - apply elem_of_list_to_set. vm_compute. do 3 right. left.
  - intros a Ha. apply elem_of_list_to_set.
    vm_compute in Ha. vm_compute. exact Ha.
  - intros a Ha. vm_compute in Ha.
    repeat (apply elem_of_cons in Ha as [->|Ha];
            [first [ left; reflexivity
                   | right; apply elem_of_list_to_set; vm_compute;
                     first [ by left | by (right; left)
                           | by (do 2 right; left) | by (do 3 right; left) ] ]|]).
    by apply elem_of_nil in Ha.
  - reflexivity.
Defined.

End SandboxMore.

(* ===================================================================== *)
(** * The hooks of the missions service *)
(* ===================================================================== *)

Module HooksFacts.
Import MissionWorker MissionHooks HookDefs.

Lemma toLowerCase_nil (s : jsstring) :
  SandboxDriver.toLowerCase s = [] ↔ s = [].
Proof. by destruct s. Qed.

Lemma stamp_patch_actions (p : Params) (d : MissionData) :
  let d' := stampAuditFields Patch p d in
  d_reviewAction d' = d_reviewAction d ∧ d_planAction d' = d_planAction d
  ∧ d_controlAction d' = d_controlAction d ∧ d_message d' = d_message d
  ∧ d_reason d' = d_reason d ∧ d_result_summary d' = d_result_summary d
  ∧ d_instruction d' = d_instruction d ∧ d_status d' = d_status d.
Proof. unfold stampAuditFields. by destruct (user p). Qed.

Lemma enforce_action (data : MissionData) (mission : option MissionRow)
    (now : Z) (data' : MissionData) (mark : option ActionMark) :
  names_action data →
  enforceMissionReviewAction Patch true data mission now = Continue data' mark →
  ∃ old, mission = Some old ∧ action_data old data'.
Proof.
  intros Hact. unfold enforceMissionReviewAction.
  rewrite bool_decide_eq_true_2 by done. cbn [negb orb].
  assert (Hlow : SandboxDriver.toLowerCase (orEmpty (d_reviewAction data)) ≠ []
                 ∨ SandboxDriver.toLowerCase (orEmpty (d_planAction data)) ≠ []
                 ∨ SandboxDriver.toLowerCase (orEmpty (d_controlAction data)) ≠ []).
  { rewrite !toLowerCase_nil. exact Hact. }
  clear Hact.
  set (ra := SandboxDriver.toLowerCase (orEmpty (d_reviewAction data))) in *.
  set (pa := SandboxDriver.toLowerCase (orEmpty (d_planAction data))) in *.
  set (ca := SandboxDriver.toLowerCase (orEmpty (d_controlAction data))) in *.
  clearbody ra pa ca.
  destruct mission as [old|];
    [|destruct ra, pa, ca; try done; by destruct Hlow as [?|[?|?]]].
  intros H. exists old. split; [done|].
  assert (Hgo :
    match ra with
    | _ :: _ =>
        if negb (jseq ra approve || jseq ra reject)
        then Throw (BadRequest (str "reviewAction must be approve or reject"))
        else if negb (bool_decide (m_status old = WAITING_REVIEW))
        then Throw (BadRequest (str "Mission is not waiting review"))
        else if jseq ra approve then
          Continue
            (set_result_summary
               (orElse (d_result_summary data)
                  (str "Mission approved by human reviewer."))
               (set_fail_reason None
                  (set_reviewed_at now (set_status COMPLETED noData))))
            (Some (ReviewAction ra))
        else
          Continue
            (set_fail_reason
               (Some (orElse (d_reason data)
                        (str "Mission rejected by reviewer.")))
               (set_reviewed_at now (set_status FAILED noData)))
            (Some (ReviewAction ra))
    | [] =>
        match pa with
        | _ :: _ =>
            if negb (jseq pa approve || jseq pa reject)
            then Throw (BadRequest (str "planAction must be approve or reject"))
            else if negb (bool_decide (m_status old = WAITING_PLAN_APPROVAL))
            then Throw (BadRequest (str "Mission plan is not waiting approval"))
            else if jseq pa approve then
              Continue (set_fail_reason None (set_status EXECUTING noData))
                       (Some (PlanAction pa))
            else
              Continue
                (set_fail_reason
                   (Some (orElse (d_reason data)
                            (str "Mission plan rejected by reviewer.")))
                   (set_status FAILED noData))
                (Some (PlanAction pa))
        | [] =>
            if negb (jseq ca (str "pause") || jseq ca (str "resume")
                     || jseq ca (str "input"))
            then Throw (BadRequest
                          (str "controlAction must be pause, resume or input"))
            else if jseq ca (str "pause") then
              if bool_decide (m_status old ∈ [COMPLETED; FAILED])
              then Throw (BadRequest (str "Mission is already finished"))
              else Continue (set_status PAUSED noData) (Some (ControlAction ca))
            else if jseq ca (str "resume") then
              if negb (bool_decide (m_status old ∈ [PAUSED; WAITING_INPUT]))
              then Throw (BadRequest
                            (str "Mission is not paused or waiting input"))
              else Continue (set_status EXECUTING noData)
                            (Some (ControlAction ca))
            else
              match trim (orEmpty (d_message data)) with
              | [] =>
                  Throw (BadRequest
                           (str "message is required for controlAction=input"))
              | _ :: _ =>
                  Continue
                    (set_status PLANNING
                       (set_latest_agent_question None
                          (set_latest_user_input
                             (Some (trim (orEmpty (d_message data)))) noData)))
                    (Some (ControlAction ca))
              end
        end
    end = Continue data' mark).
  { destruct ra, pa, ca; try exact H. by destruct Hlow as [?|[?|?]]. }
  clear H Hlow.
  destruct ra as [|r0 ra]; [destruct pa as [|p0 pa]|]; cbv beta iota in Hgo.
  all: repeat match type of Hgo with
              | context [jseq ?a ?b] => destruct (jseq a b)
              | context [bool_decide ?P] => destruct (bool_decide P) eqn:?
              | context [match ?x with [] => _ | _ :: _ => _ end] => destruct x
              end.
  all: cbn [negb orb] in Hgo.
  all: first [discriminate Hgo | injection Hgo as <- _].
  all: split; try reflexivity.
  all: eexists; split; [reflexivity|].
  all: destruct (m_status old); first [reflexivity | discriminate].
Qed.

Lemma names_action_column (p : Params) (d : MissionData) :
  names_action d → names_unknown_column (stampAuditFields Patch p d) = true.
Proof.
  intros Hact. unfold names_unknown_column.
  destruct (stamp_patch_actions p d) as (-> & -> & -> & _).
  destruct Hact as [H|[H|H]]; destruct (d_reviewAction d), (d_planAction d),
    (d_controlAction d); try done;
    rewrite ?(bool_decide_eq_true_2 (is_Some (Some _))) by done;
    by rewrite ?orb_true_r.
Qed.

Lemma stamp_names_action (p : Params) (d : MissionData) :
  names_action d → names_action (stampAuditFields Patch p d).
Proof.
  unfold names_action.
  by destruct (stamp_patch_actions p d) as (-> & -> & -> & _).
Qed.

(** X12: a patch that names an action moves the status along one of the
    moves of [action_moves] and writes nothing else of what the caller
    sent: project, goal, repository and branch stay, and so do both audit
    columns. *)
Theorem action_patch_moves_status (p : Params) (id : Z) (data : MissionData)
    (now : Z) (s s' : Store) (r : MissionRow) :
  names_action data →
  patchMission p id data now s = (inr r, s') →
  ∃ old, get_mission id s = Some old
    ∧ action_moves (m_status old) (m_status r) = true
    ∧ m_id r = m_id old ∧ m_projectId r = m_projectId old
    ∧ m_goal r = m_goal old ∧ m_trigger_type r = m_trigger_type old
    ∧ m_repoUrl r = m_repoUrl old ∧ m_baseBranch r = m_baseBranch old
    ∧ m_createdBy r = m_createdBy old ∧ m_updatedBy r = m_updatedBy old.
Proof.
  intros Hact. unfold patchMission.
  destruct (applyProjectScope Patch p (d_projectId data)) as [e|[d0 scope]];
    [done|].
  destruct (id =? 0)%Z eqn:Hid; cbn [negb].
  - unfold enforceMissionReviewAction. rewrite orb_true_r.
    destruct (get_mission id s); [|done].
    destruct (negb (in_scope scope m)); [done|].
    by rewrite names_action_column.
  - destruct (enforceMissionReviewAction Patch true (stampAuditFields Patch p data)
                (get_mission id s) now) as [data' mark|e] eqn:Henf; [|done].
    apply enforce_action in Henf as (old & Hold & Hdata);
      [|by apply stamp_names_action].
    rewrite Hold. destruct (negb (in_scope scope old)); [done|].
    rewrite (ad_columns _ _ Hdata).
    destruct (enqueueMissionJob Patch p _ now _) as [[e|] s3]; [done|].
    intros [= <- _]. exists old. split; [done|].
    destruct Hdata as [(st & Hst & Hmove) Hp Hg Ht Hr Hb Hc Hu _].
    unfold apply_data. cbn [m_status m_id m_projectId m_goal m_trigger_type
      m_repoUrl m_baseBranch m_createdBy m_updatedBy].
    by rewrite Hst, Hp, Hg, Ht, Hr, Hb, Hc, Hu.
Qed.

(** [action_patch_moves_status] at an approval by user 5 of a mission last
    updated by user 4. *)
Lemma action_patch_moves_status_approve :
  ∃ r s',
    patchMission MoreSamples.member1 1 MoreSamples.approveReview 1000
      (MoreSamples.storeWith WAITING_REVIEW (str "waiting_review")) = (inr r, s')
    ∧ m_status r = COMPLETED ∧ m_updatedBy r = Some 4%Z
    ∧ m_goal r = str "create a simple nodejs helloworld api".
Proof.
  eexists _, _. split; [reflexivity|].
  destruct (action_patch_moves_status MoreSamples.member1 1 MoreSamples.approveReview 1000
              (MoreSamples.storeWith WAITING_REVIEW (str "waiting_review")) _ _
              ltac:(by left) eq_refl)
    as (old & Hold & _ & _ & _ & Hgoal & _ & _ & _ & _ & Hupd).
  injection Hold as <-. split; [reflexivity|]. split; [exact Hupd|exact Hgoal].
Defined.








Lemma nullish_assoc {A : Type} (a b c : option A) :
  nullish (nullish a b) c = nullish a (nullish b c).
Proof. by destruct a. Qed.

(** X14: a call from outside by a user who is no admin reaches only the
    missions of the project it resolves to: a patch of a mission of
    another project, or with no project at all, fails and leaves the
    store as it was. *)
Theorem patch_confined_to_project (p : Params) (id : Z) (data : MissionData)
    (now : Z) (s : Store) (m : MissionRow) :
  provider p = true → isAdmin p = false →
  get_mission id s = Some m →
  resolvedProject p data ≠ Some (m_projectId m) →
  ∃ e, patchMission p id data now s = (inl e, s).
Proof.
  intros Hext Hadm Hm Hother. unfold patchMission, applyProjectScope.
  rewrite bool_decide_eq_false_2 by done.
  unfold isExternal. rewrite Hext, Hadm. cbn [negb orb].
  rewrite !nullish_assoc. fold (resolvedProject p data).
  destruct (truthyId (resolvedProject p data)) as [pid|] eqn:Hpid;
    [|by eexists].
  destruct (enforceMissionReviewAction _ _ _ _ _) as [data' mark|e];
    [|by eexists].
  rewrite Hm. unfold in_scope.
  destruct (resolvedProject p data) as [pid'|] eqn:Hres; [|done].
  rewrite bool_decide_eq_false_2 by congruence. by eexists.
Qed.

(** [patch_confined_to_project] at a member of project 2 patching a
    mission of project 1. *)
Lemma patch_confined_to_project_other :
  ∃ e, patchMission MoreSamples.member2 1 (statusPatch FAILED) 1000
         (MoreSamples.storeWith EXECUTING (str "running"))
       = (inl e, MoreSamples.storeWith EXECUTING (str "running")).
Proof.
  apply (patch_confined_to_project MoreSamples.member2 1 (statusPatch FAILED)
           1000 (MoreSamples.storeWith EXECUTING (str "running")) (MoreSamples.missionRow EXECUTING)).
  - reflexivity.
  - reflexivity.
  - reflexivity.
  - discriminate.
Defined.




End HooksFacts.

(* ===================================================================== *)
(** * Sandbox directories and the missions they belong to *)
(* ===================================================================== *)

Module NameFacts.
Import SandboxDriver SandboxFiles NameDefs.

Lemma decimal_snoc (s : jsstring) (c : N) :
  decimal (s ++ [c]) = 10 * decimal s + (c - 48).
Proof. unfold decimal. by rewrite fold_left_app. Qed.

Lemma digits_spec (fuel : nat) :
  ∀ n acc, n < 2 ^ N.of_nat fuel →
    ∃ ds, digits fuel n acc = ds ++ acc ∧ Forall is_digit_unit ds
          ∧ decimal ds = n.
Proof.
  induction fuel as [|fuel IH]; intros n acc Hn.
  - exists []. change (2 ^ N.of_nat 0) with 1 in Hn.
    assert (n = 0) as -> by lia. done.
  - cbn [digits]. assert (Hmod : n mod 10 < 10) by (apply N.mod_lt; lia).
    pose proof (N.div_mod n 10 ltac:(lia)) as Hdm.
    set (r := n mod 10) in *. set (q := n / 10) in *. clearbody r q.
    destruct (N.ltb_spec n 10) as [Hsmall|Hbig].
    + exists [48 + r]. split; [done|]. split.
      * constructor; [unfold is_digit_unit; lia|done].
      * unfold decimal. cbn [fold_left]. lia.
    + destruct (IH q ((48 + r) :: acc)) as (ds & Hds & Hdig & Hval).
      { rewrite Nat2N.inj_succ, N.pow_succ_r' in Hn. lia. }
      exists (ds ++ [48 + r]). split; [by rewrite Hds, <- app_assoc|].
      split.
      * apply Forall_app. split; [done|].
        constructor; [unfold is_digit_unit; lia|done].
      * rewrite decimal_snoc, Hval. lia.
Qed.

Lemma showN_spec (n : N) :
  Forall is_digit_unit (showN n) ∧ decimal (showN n) = n.
Proof.
  unfold showN.
  destruct (digits_spec (S (N.to_nat (N.log2 n))) n []) as (ds & -> & H).
  - rewrite Nat2N.inj_succ, N2Nat.id.
    destruct (N.eq_dec n 0) as [->|Hn]; [done|].
    apply N.log2_spec. lia.
  - by rewrite app_nil_r.
Qed.

(** Two runs of digits, each followed by a unit that is no digit, are
    equal when one run with its end starts the other. *)
Lemma digit_run_prefix (a b : jsstring) (x y : jsstring) (e : N) :
  Forall is_digit_unit a → Forall is_digit_unit b → ¬ is_digit_unit e →
  startsWith (a ++ [e]) (b ++ e :: y) = true → a = b.
Proof.
  intros Ha. revert b. induction Ha as [|c a Hc Ha IH]; intros b Hb He.
  - destruct b as [|d b]; [done|]. cbn [app startsWith].
    destruct (N.eqb_spec e d) as [->|]; [|done].
    by apply Forall_cons in Hb as [Hd _].
  - destruct b as [|d b]; cbn [app startsWith].
    + destruct (N.eqb_spec c e) as [->|]; done.
    + apply Forall_cons in Hb as [Hd Hb].
      destruct (N.eqb_spec c d) as [->|]; [|done]. cbn [andb].
      intros H. f_equal. by apply IH.
Qed.

Lemma showZ_inj (m m' : Z) :
  (0 <= m)%Z → (0 <= m')%Z → showZ m = showZ m' → m = m'.
Proof.
  intros Hm Hm'. unfold showZ.
  destruct (Z.ltb_spec m 0); [lia|]. destruct (Z.ltb_spec m' 0); [lia|].
  intros Heq.
  assert (Z.to_N m = Z.to_N m') as Hn.
  { rewrite <- (proj2 (showN_spec (Z.to_N m))),
            <- (proj2 (showN_spec (Z.to_N m'))). by rewrite Heq. }
  lia.
Qed.

Lemma startsWith_app_same (p a b : jsstring) :
  startsWith (p ++ a) (p ++ b) = startsWith a b.
Proof. induction p as [|c p IH]; [done|]. cbn. by rewrite N.eqb_refl. Qed.

(** The prefix of a mission matches the name [spawn] gives a sandbox
    exactly when the sandbox is of that mission. *)
Lemma prefix_selects_mission (m m' : Z) (hash uuid8 : jsstring) :
  (0 <= m)%Z → (0 <= m')%Z →
  startsWith (sandboxPrefix m')
    (str "sandbox-" ++ showZ m ++ str "-" ++ hash ++ str "-" ++ uuid8)
  = bool_decide (m = m').
Proof.
  intros Hm Hm'. unfold sandboxPrefix.
  destruct (bool_decide_reflect (m = m')) as [->|Hne].
  - by rewrite !startsWith_app_same.
  - apply not_true_is_false. intros H. apply Hne.
    rewrite startsWith_app_same in H.
    apply showZ_inj; [done..|]. symmetry.
    assert (Hd : ∀ z, (0 <= z)%Z → Forall is_digit_unit (showZ z)).
    { intros z Hz. unfold showZ. destruct (Z.ltb_spec z 0); [lia|].
      apply showN_spec. }
    eapply (digit_run_prefix _ _ [] _ 45); [by apply Hd|by apply Hd| |exact H].
    unfold is_digit_unit. lia.
Qed.

Lemma spawned_selected (m' : Z) (entry : Dirent) :
  (0 <= m')%Z → spawned entry →
  isDirectory entry && startsWith (sandboxPrefix m') (name entry) = true ↔
  ∃ hash uuid8, entry = mkDirent (instanceIdOf m' hash uuid8) true.
Proof.
  intros Hm' Hsp. split.
  - intros H. apply andb_true_iff in H as [Hdir Hpre].
    destruct (Hsp Hdir) as (m & hash & uuid8 & Hm & Hname).
    rewrite Hname in Hpre. unfold instanceIdOf in Hpre.
    rewrite prefix_selects_mission in Hpre by done.
    apply bool_decide_eq_true in Hpre as <-.
    exists hash, uuid8. destruct entry as [n d]. cbn in *. by subst.
  - intros (hash & uuid8 & ->). cbn [isDirectory name andb].
    unfold instanceIdOf. rewrite prefix_selects_mission by done.
    by apply bool_decide_eq_true.
Qed.

Section FileFacts.

Variable path_join : jsstring -> jsstring -> jsstring.
Variable path_resolve : jsstring -> jsstring.

(** The name of the instance [spawn] returns. *)
Lemma spawn_instance_id (execution : ExecutionSettings) (env : ProcessEnv)
    (homedir backendRoot : jsstring) (path_isAbsolute : jsstring → bool)
    (missionId : Z) (hash uuid8 image : jsstring) (c : N) (d : DockerDriver)
    (h : Host) :
  inst_id (spawn homedir backendRoot path_join path_isAbsolute execution env
             missionId hash uuid8 image c d h).1.1
  = instanceIdOf missionId hash uuid8.
Proof. reflexivity. Qed.

(** X16: in a root whose directories are sandboxes that [spawn] made,
    [findSandboxDir] finds for a mission a sandbox of that mission and of
    no other (mission 1 does not get the sandbox of mission 12), and it
    finds none only when the root holds none. *)
Theorem findSandboxDir_own_mission (root : jsstring) (entries : list Dirent)
    (missionId : Z) :
  (0 <= missionId)%Z → Forall spawned entries →
  match findSandboxDir path_join root (Some entries) missionId with
  | Some found =>
      ∃ hash uuid8,
        mkDirent (instanceIdOf missionId hash uuid8) true ∈ entries
        ∧ found = path_join root (instanceIdOf missionId hash uuid8)
  | None =>
      ∀ hash uuid8, mkDirent (instanceIdOf missionId hash uuid8) true ∉ entries
  end.
Proof.
  intros Hm Hsp. unfold findSandboxDir.
  destruct (find _ entries) as [entry|] eqn:Hfind; cbn [fmap option_fmap option_map].
  - apply find_some in Hfind as [Hin Hsel].
    apply list_elem_of_In in Hin.
    apply spawned_selected in Hsel as (hash & uuid8 & ->);
      [|done|by eapply Forall_forall in Hsp].
    by exists hash, uuid8.
  - intros hash uuid8 Hin.
    apply list_elem_of_In in Hin.
    pose proof (find_none _ _ Hfind _ Hin) as Hsel.
    cbn [isDirectory name andb] in Hsel. unfold instanceIdOf in Hsel.
    rewrite prefix_selects_mission in Hsel by done.
    by rewrite bool_decide_eq_true_2 in Hsel.
Qed.

(** X17: in such a root, the paths [collectSandboxPathsFromRoot] returns
    for a mission, which removing the mission deletes, are exactly the
    resolved paths of the sandboxes of that mission. *)
Theorem collectSandboxPathsFromRoot_own_mission (root : jsstring)
    (entries : list Dirent) (missionId : Z) (found : jsstring) :
  (0 <= missionId)%Z → Forall spawned entries →
  found ∈ collectSandboxPathsFromRoot path_join path_resolve root (Some entries)
            missionId
  ↔ ∃ hash uuid8,
      mkDirent (instanceIdOf missionId hash uuid8) true ∈ entries
      ∧ found = path_resolve (path_join root (instanceIdOf missionId hash uuid8)).
Proof.
  intros Hm Hsp. unfold collectSandboxPathsFromRoot.
  rewrite elem_of_list_to_set, list_elem_of_fmap. split.
  - intros (entry & -> & Hin). apply list_elem_of_filter in Hin as [[Hd Hp] Hin].
    assert (Hsel : isDirectory entry
                   && startsWith (sandboxPrefix missionId) (name entry) = true)
      by (by rewrite Hd, Hp).
    apply spawned_selected in Hsel as (hash & uuid8 & ->);
      [|done|by eapply Forall_forall in Hsp].
    by exists hash, uuid8.
  - intros (hash & uuid8 & Hin & ->).
    exists (mkDirent (instanceIdOf missionId hash uuid8) true). split; [done|].
    apply list_elem_of_filter. split; [|done].
    assert (Hsel : isDirectory (mkDirent (instanceIdOf missionId hash uuid8) true)
                   && startsWith (sandboxPrefix missionId)
                        (name (mkDirent (instanceIdOf missionId hash uuid8) true))
                   = true).
    { apply spawned_selected; [done| |by eauto].
      intros _. by exists missionId, hash, uuid8. }
    by apply andb_true_iff in Hsel.
Qed.

End FileFacts.

(** The entries of the sample root are sandboxes or files. *)
Lemma rootEntries_spawned : Forall spawned MoreSamples.rootEntries.
Proof.
  repeat constructor.
  - intros _. by exists 12%Z, (str "0a1b2c3d"), (str "4e5f6a7b").
  - intros H. discriminate H.
  - intros _. by exists 1%Z, (str "99887766"), (str "55443322").
Defined.

(** [findSandboxDir_own_mission] for mission 1 in a root that lists the
    sandbox of mission 12 first. *)
Lemma findSandboxDir_own_mission_root :
  match findSandboxDir Samples.posix_join (str "/tmp/sandboxes")
          (Some MoreSamples.rootEntries) 1 with
  | Some found =>
      ∃ hash uuid8,
        mkDirent (instanceIdOf 1 hash uuid8) true ∈ MoreSamples.rootEntries
        ∧ found = Samples.posix_join (str "/tmp/sandboxes")
                    (instanceIdOf 1 hash uuid8)
  | None => ∀ hash uuid8, mkDirent (instanceIdOf 1 hash uuid8) true ∉ MoreSamples.rootEntries
  end.
Proof.
  apply (findSandboxDir_own_mission Samples.posix_join
           (str "/tmp/sandboxes") MoreSamples.rootEntries 1); [done|].
  apply rootEntries_spawned.
Defined.

(** [collectSandboxPathsFromRoot_own_mission] for mission 1 in the same
    root. *)
Lemma collectSandboxPathsFromRoot_own_mission_root :
  str "/tmp/sandboxes/sandbox-1-99887766-55443322"
  ∈ collectSandboxPathsFromRoot Samples.posix_join (fun p => p)
      (str "/tmp/sandboxes") (Some MoreSamples.rootEntries) 1
  ↔ ∃ hash uuid8,
      mkDirent (instanceIdOf 1 hash uuid8) true ∈ MoreSamples.rootEntries
      ∧ str "/tmp/sandboxes/sandbox-1-99887766-55443322"
        = Samples.posix_join (str "/tmp/sandboxes") (instanceIdOf 1 hash uuid8).
Proof.
  apply (collectSandboxPathsFromRoot_own_mission Samples.posix_join
           (fun p => p) (str "/tmp/sandboxes") MoreSamples.rootEntries 1); [done|].
  apply rootEntries_spawned.
Defined.

End NameFacts.

(* ===================================================================== *)
(** * Provider resolution *)
(* ===================================================================== *)

Module AiFacts.
Import AiProvider AiDefs.

Lemma buildProvider_spec (name : jsstring) (settings : AISettings)
    (modelOverride : option jsstring) :
  buildProvider name settings modelOverride
  = kind ← kind_of_name (SandboxDriver.toLowerCase name);
    '(key, modelName) ← resolve modelOverride (config_of kind settings)
                           (DEFAULT_MODELS kind);
    Some (Remote kind key modelName).
Proof.
  unfold buildProvider, kind_of_name.
  generalize (SandboxDriver.toLowerCase name) as n. intros n.
  destruct (jseq n (str "openai")) eqn:H1.
  { apply GuardFacts.jseq_true in H1 as ->. cbn [mbind option_bind config_of].
    by destruct (resolve _ _ _) as [[? ?]|]. }
  destruct (jseq n (str "anthropic")) eqn:H2.
  { apply GuardFacts.jseq_true in H2 as ->. cbn [mbind option_bind config_of].
    by destruct (resolve _ _ _) as [[? ?]|]. }
  destruct (jseq n (str "google")) eqn:H3.
  { apply GuardFacts.jseq_true in H3 as ->. cbn [mbind option_bind config_of].
    by destruct (resolve _ _ _) as [[? ?]|]. }
  destruct (jseq n (str "groq")) eqn:H4; [|done].
  cbn [mbind option_bind config_of]. by destruct (resolve _ _ _) as [[? ?]|].
Qed.

Lemma resolve_spec (modelOverride : option jsstring)
    (cfg : option ProviderConfig) (defaultModel key modelName : jsstring) :
  defaultModel ≠ [] →
  resolve modelOverride cfg defaultModel = Some (key, modelName) →
  (∃ c k, cfg = Some c ∧ apiKey c = Some k ∧ key = trim k ∧ key ≠ [])
  ∧ modelName ≠ []
  ∧ (∀ m, modelOverride = Some m → trim m ≠ [] → modelName = trim m).
Proof.
  intros Hdef. unfold resolve.
  destruct cfg as [c|]; [|done]. cbn [mbind option_bind].
  destruct (apiKey c) as [k|] eqn:Hk; [|done]. cbn [fmap option_fmap option_map].
  destruct (trim k) as [|x key'] eqn:Hkey; [done|]. intros [= <- <-].
  split; [by exists c, k|].
  destruct modelOverride as [m|]; cbn [fmap option_fmap option_map orElse].
  - destruct (trim m) as [|y m'] eqn:Hm.
    + split; [|by intros ? [= <-]; rewrite Hm].
      destruct (model c) as [cm|]; cbn; [destruct (trim cm)|];
        by destruct defaultModel.
    + split; [done|]. intros ? [= <-] _. by rewrite Hm.
  - split; [|done].
    destruct (model c) as [cm|]; cbn; [destruct (trim cm)|];
      by destruct defaultModel.
Qed.

Lemma DEFAULT_MODELS_nonempty (kind : ProviderKind) : DEFAULT_MODELS kind ≠ [].
Proof. by destruct kind. Qed.

Lemma buildProvider_remote (name : jsstring) (settings : AISettings)
    (modelOverride : option jsstring) (p : AIProvider) :
  buildProvider name settings modelOverride = Some p →
  ∃ kind key modelName,
    p = Remote kind key modelName
    ∧ kind_of_name (SandboxDriver.toLowerCase name) = Some kind
    ∧ resolve modelOverride (config_of kind settings) (DEFAULT_MODELS kind)
      = Some (key, modelName).
Proof.
  rewrite buildProvider_spec.
  destruct (kind_of_name _) as [kind|]; [|done]. cbn [mbind option_bind].
  destruct (resolve _ _ _) as [[key modelName]|] eqn:Hres; [|done].
  intros [= <-]. by exists kind, key, modelName.
Qed.

(** X18: whatever the settings and the role, a remote provider is built
    only with the trimmed, non-empty key the settings hold for that very
    provider, and with a non-empty model name; in every other case the
    static fallback answers. *)
Theorem provider_has_key (settings : AISettings) (role : AIRole)
    (kind : ProviderKind) (key modelName : jsstring) :
  getAIProviderForRole settings role = Remote kind key modelName →
  (∃ cfg k, config_of kind settings = Some cfg ∧ apiKey cfg = Some k
            ∧ key = trim k ∧ key ≠ [])
  ∧ modelName ≠ [].
Proof.
  assert (Hbuild : ∀ name mo,
            buildProvider name settings mo = Some (Remote kind key modelName) →
            (∃ cfg k, config_of kind settings = Some cfg ∧ apiKey cfg = Some k
                      ∧ key = trim k ∧ key ≠ [])
            ∧ modelName ≠ []).
  { intros name mo H.
    apply buildProvider_remote in H as (kind' & key' & m' & [= <- <- <-] & _ & H).
    apply resolve_spec in H as (? & ? & _); [done|apply DEFAULT_MODELS_nonempty]. }
  unfold getAIProviderForRole, getAIProvider.
  repeat match goal with
         | |- context [match ?x with Some _ => _ | None => _ end] =>
             destruct x eqn:?
         end; intros H; subst; try discriminate; eauto.
  all: repeat match goal with
              | H : match ?x with Some _ => _ | None => _ end = Some _ |- _ =>
                  destruct x; [|discriminate H]
              end; eauto.
Qed.

(** [provider_has_key] at the coder role of settings with one key. *)
Lemma provider_has_key_openai :
  getAIProviderForRole MoreSamples.openaiOnly Coder
  = Remote OpenAI (str "sk-test") (str "gpt-5.2")
  ∧ ∃ cfg k, config_of OpenAI MoreSamples.openaiOnly = Some cfg ∧ apiKey cfg = Some k
             ∧ str "sk-test" = trim k ∧ str "sk-test" ≠ [].
Proof.
  split; [reflexivity|].
  apply (provider_has_key MoreSamples.openaiOnly Coder OpenAI (str "sk-test")
           (str "gpt-5.2")). reflexivity.
Defined.

Lemma resolve_override (modelOverride : option jsstring)
    (cfg : option ProviderConfig) (defaultModel key modelName roleModel : jsstring) :
  resolve modelOverride cfg defaultModel = Some (key, modelName) →
  trim roleModel ≠ [] →
  resolve (Some roleModel) cfg defaultModel = Some (key, trim roleModel).
Proof.
  unfold resolve. destruct (trim <$> cfg ≫= apiKey) as [[|c k]|]; try done.
  intros [= <- _] Hm. cbn [fmap option_fmap option_map orElse].
  by destruct (trim roleModel).
Qed.

(** X19: a role that names a model gets the global provider with that
    model whenever the role's own provider cannot be built, also when the
    role names a different provider that has no key: the model of one
    provider is then sent to another. *)
Theorem role_model_reaches_global_provider (settings : AISettings)
    (role : AIRole) (overrides : AIRole → option RoleOverride)
    (override : RoleOverride) (roleModel : jsstring) (kind : ProviderKind)
    (key modelName : jsstring) :
  roles settings = Some overrides → overrides role = Some override →
  (∀ name, role_provider override = Some name →
           buildProvider name settings (role_model override) = None) →
  role_model override = Some roleModel → trim roleModel ≠ [] →
  getAIProvider settings = Remote kind key modelName →
  getAIProviderForRole settings role = Remote kind key (trim roleModel).
Proof.
  intros Hroles Hrole Hown Hmodel Htrim Hglobal.
  unfold getAIProviderForRole. rewrite Hroles. cbn [mbind option_bind].
  rewrite Hrole. cbn [mbind option_bind]. rewrite Hmodel.
  assert (Hfirst : match orElse (role_provider override) None with
                   | Some name => buildProvider name settings (Some roleModel)
                   | None => None
                   end = None).
  { destruct (role_provider override) as [[|c name]|] eqn:Hp; try done.
    cbn [orElse]. rewrite <- Hmodel. by apply Hown. }
  rewrite Hfirst.
  assert (Hrm : orElse (Some roleModel) None = Some roleModel).
  { destruct roleModel; [|done]. by destruct Htrim. }
  rewrite Hrm. revert Hglobal. unfold getAIProvider.
  destruct (buildProvider _ settings None) as [p|] eqn:Hb; [|done].
  intros ->. apply buildProvider_remote in Hb
    as (kind' & key' & m' & [= <- <- <-] & Hkind & Hres).
  rewrite buildProvider_spec, Hkind. cbn [mbind option_bind].
  by rewrite (resolve_override _ _ _ _ _ _ Hres Htrim).
Qed.

(** [role_model_reaches_global_provider] at a planner role that names
    Anthropic, which has no key: OpenAI is asked for the Anthropic model. *)
Lemma role_model_reaches_global_provider_planner :
  getAIProviderForRole MoreSamples.openaiOnly Planner
  = Remote OpenAI (str "sk-test") (str "claude-opus").
Proof.
  apply (role_model_reaches_global_provider MoreSamples.openaiOnly Planner
           MoreSamples.plannerOnly MoreSamples.plannerOverride
           (str "claude-opus") OpenAI (str "sk-test") (str "gpt-5.2")).
  - reflexivity.
  - reflexivity.
  - intros name [= <-]. reflexivity.
  - reflexivity.
  - discriminate.
  - reflexivity.
Defined.

End AiFacts.

(* ===================================================================== *)
(** * A mission at work leaves the other missions alone *)
(* ===================================================================== *)

Module IsolationFacts.
Import Utils MissionWorker WorkerDefs IsolationDefs WorkerFacts.

Lemma confined_refl (mid : Z) (ids : list Z) (w : World) : confined mid ids w w.
Proof.
  repeat split.
  - by apply Forall_Forall2_diag, Forall_true.
  - by apply Forall_Forall2_diag, Forall_true.
  - exists []. by rewrite app_nil_r.
Qed.

Lemma confined_trans (mid : Z) (ids : list Z) (w1 w2 w3 : World) :
  confined mid ids w1 w2 → confined mid ids w2 w3 → confined mid ids w1 w3.
Proof.
  intros (Hm & Hs & (a & Ha & Hfa) & Hn & Hc) (Hm' & Hs' & (b & Hb & Hfb) & Hn' & Hc').
  split; [|split; [|split; [|split]]].
  - clear -Hm Hm'. revert Hm'. generalize (missions w3).
    induction Hm as [|m m2 l l2 (Hid & Heq) _ IH]; intros l3 H3;
      inversion H3 as [|? m3 ? l3' (Hid' & Heq') H3']; subst; constructor.
    + split; [congruence|]. intros Hne. rewrite Heq', Heq; congruence.
    + by apply IH.
  - clear -Hs Hs'. revert Hs'. generalize (mission_steps w3).
    induction Hs as [|r r2 l l2 (Hid & Hmi & Heq) _ IH]; intros l3 H3;
      inversion H3 as [|? r3 ? l3' (Hid' & Hmi' & Heq') H3']; subst; constructor.
    + split; [congruence|]. split; [congruence|]. intros Hne.
      rewrite Heq', Heq; congruence.
    + by apply IH.
  - exists (a ++ b). rewrite Hb, Ha, app_assoc. split; [done|].
    by apply Forall_app.
  - congruence.
  - congruence.
Qed.

Lemma confined_same_store (mid : Z) (ids : list Z) (w0 w w' : World) :
  confined mid ids w0 w → same_store w w' → confined mid ids w0 w'.
Proof.
  intros H (Hm & Hs & Hl & Hn & Hc). eapply confined_trans; [exact H|].
  destruct (confined_refl mid ids w) as (Hm0 & Hs0 & Hl0 & _).
  split; [by rewrite Hm|]. split; [by rewrite Hs|]. split; [by rewrite Hl|].
  done.
Qed.

Lemma confined_log (mid : Z) (ids : list Z) (w0 w : World) (projectId : Z)
    (stepId : option Z) (type : LogType) (content : LogContent) :
  confined mid ids w0 w →
  confined mid ids w0 (createMissionLog projectId mid stepId type content w).
Proof.
  intros H. eapply confined_trans; [exact H|].
  destruct (confined_refl mid ids w) as (Hm0 & Hs0 & _).
  split; [done|]. split; [done|]. split; [|done].
  eexists. split; [reflexivity|]. by repeat constructor.
Qed.

Lemma confined_patch_step (mid : Z) (ids : list Z) (w0 w : World) (i : Z)
    (data : list StepAssign) :
  i ∈ ids → confined mid ids w0 w → confined mid ids w0 (patch_step i data w).
Proof.
  intros Hi H. eapply confined_trans; [exact H|].
  destruct (confined_refl mid ids w) as (Hm0 & _ & Hl0 & _).
  split; [done|]. split; [|done].
  unfold patch_step, set_steps. cbn [mission_steps].
  apply Forall2_fmap_r, Forall_Forall2_diag, Forall_forall. intros r _. unfold compose. cbv beta.
  case_bool_decide as Hr; [|done].
  rewrite id_assigns, WorkerMore.missionId_assigns.
  split; [done|]. split; [done|]. intros Hnot. by rewrite Hr in Hnot.
Qed.

Lemma confined_patch_mission (mid : Z) (ids : list Z) (w0 w : World)
    (f : MissionRecord → MissionRecord) :
  (∀ m, mission_id (f m) = mission_id m) →
  confined mid ids w0 w → confined mid ids w0 (patch_mission mid f w).
Proof.
  intros Hf H. eapply confined_trans; [exact H|].
  destruct (confined_refl mid ids w) as (_ & Hs0 & Hl0 & _).
  split; [|done].
  unfold patch_mission, set_missions. cbn [missions].
  apply Forall2_fmap_r, Forall_Forall2_diag, Forall_forall. intros m _. unfold compose. cbv beta.
  case_bool_decide as Hm; [|done]. split; [apply Hf|]. done.
Qed.

Lemma confined_mono (mid : Z) (ids ids' : list Z) (w w' : World) :
  ids ⊆ ids' → confined mid ids w w' → confined mid ids' w w'.
Proof.
  intros Hsub (Hm & Hs & Hrest). split; [done|]. split; [|done].
  eapply Forall2_impl; [exact Hs|]. intros r r' (Hid & Hmi & Heq).
  split; [done|]. split; [done|]. intros Hnot. apply Heq. intros Hin.
  by apply Hnot, Hsub.
Qed.

Lemma confined_clock (mid : Z) (ids : list Z) (w0 w : World) (ms : Z) :
  confined mid ids w0 w → confined mid ids w0 (count_call (sleep ms w)).
Proof. intros H. eapply confined_same_store; [exact H|]. by repeat split. Qed.

Lemma confined_count (mid : Z) (ids : list Z) (w0 w : World) :
  confined mid ids w0 w → confined mid ids w0 (count_call w).
Proof. intros H. eapply confined_same_store; [exact H|]. by repeat split. Qed.

Lemma confined_consumeUserInput (ids : list Z) (w0 w : World)
    (mission : MissionRecord) (mid : Z) (stepId : option Z) :
  confined mid ids w0 w →
  confined mid ids w0 (consumeUserInput mission mid stepId w).
Proof.
  intros H. unfold consumeUserInput.
  destruct (get_mission mid w) as [latest|]; [|done].
  destruct (truthyS (latest_user_input latest)); [|done].
  by apply confined_patch_mission, confined_log.
Qed.

Lemma confined_trackUsage (ids : list Z) (w0 w : World)
    (mission : MissionRecord) (role : jsstring) (usage : Usage) (l : Local) :
  confined (mission_id mission) ids w0 w →
  confined (mission_id mission) ids w0 (trackUsage mission role usage l w).2.
Proof. intros H. unfold trackUsage. cbn [snd]. by apply confined_patch_mission. Qed.

Lemma confined_ensureCommand (E : Env) (ids : list Z) (w0 w : World)
    (mission : MissionRecord) (ctx : StepCommandContext) (step : StepRow)
    (l : Local) :
  id step ∈ ids → confined (mission_id mission) ids w0 w →
  match ensureCommand E mission ctx step l w with
  | inl _ => True
  | inr (step2, _, w2) =>
      id step2 = id step ∧ confined (mission_id mission) ids w0 w2
  end.
Proof.
  intros Hi H. unfold ensureCommand. destruct (truthyS (command step)); [done|].
  destruct (generateStepCommand E ctx) as [[cmd usage]|]; [|done].
  pose proof (confined_trackUsage ids w0 w mission (str "coder") usage l H) as Ht.
  destruct (trackUsage mission (str "coder") usage l w) as [l1 w1].
  split; [done|]. by apply confined_log, confined_patch_step.
Qed.

Lemma confined_promote (ids : list Z) (w0 w : World) (mission : MissionRecord)
    (v : CommandGuard.GuardVerdict) (step : StepRow) :
  id step ∈ ids → confined (mission_id mission) ids w0 w →
  confined (mission_id mission) ids w0 (promote mission v step w).2.
Proof.
  intros Hi H. unfold promote. destruct (_ && _); [|done]. cbn [snd].
  by apply confined_log, confined_patch_step.
Qed.

Lemma confined_executeStep (E : Env) (ids : list Z) (w0 w : World)
    (mission : MissionRecord) (step : StepRow) :
  id step ∈ ids → confined (mission_id mission) ids w0 w →
  confined (mission_id mission) ids w0 (executeStep E mission step w).2.
Proof.
  intros Hi H. unfold executeStep.
  destruct (negb (CommandGuard.allowed (verdictOf E mission step w))).
  - cbn [snd]. by apply confined_log, confined_patch_step.
  - pose proof (confined_promote ids w0 w mission (verdictOf E mission step w)
                  step Hi H) as Hp.
    destruct (promote_frame E mission (verdictOf E mission step w) step w)
      as (Hid & _).
    destruct (promote mission (verdictOf E mission step w) step w)
      as [step1 w1]. cbn [fst snd] in Hp, Hid.
    match goal with
    | |- context [runAttempts E step1 ?c ?t ?r ?w3] =>
        pose proof (runAttempts_frame E step1 c t r w3) as Hrun;
        destruct (runAttempts E step1 c t r w3) as [lastResult w4]
    end.
    cbn [snd] in *. apply confined_log, confined_patch_step; [by rewrite Hid|].
    eapply confined_same_store; [|exact Hrun].
    apply confined_log, confined_patch_step; [by rewrite Hid|done].
Qed.

Lemma confined_runWave (E : Env) (mission : MissionRecord) (totalSteps : nat)
    (descriptions : list jsstring) (tree pkg : jsstring) (ids : list Z)
    (w0 : World) (steps : list StepRow) :
  id <$> steps ⊆ ids →
  ∀ (index : nat) (previousOutputs : list jsstring) (l : Local) (w : World),
    confined (mission_id mission) ids w0 w →
    confined (mission_id mission) ids w0
      (outcome_world (runWave E mission totalSteps descriptions tree pkg index
                        steps previousOutputs l w)).
Proof.
  induction steps as [|step rest IH]; intros Hsub index prev l w H; [done|].
  assert (Hi : id step ∈ ids) by (apply Hsub; left).
  assert (Hrest : id <$> rest ⊆ ids)
    by (intros x Hx; apply Hsub; by right).
  cbn [runWave].
  destruct (waitForMissionStatus _ _ w) as [latest| |]; [|done|done].
  destruct (negb _); [done|].
  match goal with
  | |- context [ensureCommand E mission ?ctx step ?l1 ?w1] =>
      pose proof (confined_ensureCommand E ids w0 w1 mission ctx step l1 Hi
                    (confined_consumeUserInput ids w0 w mission
                       (mission_id mission) (Some (id step)) H)) as Hens;
      destruct (ensureCommand E mission ctx step l1 w1) as [e|[[step2 l2] w2]]
  end; [exact (confined_consumeUserInput ids w0 w mission _ _ H)|].
  destruct Hens as [Hid2 Hens].
  pose proof (confined_executeStep E ids w0 w2 mission step2
                ltac:(by rewrite Hid2) Hens) as Hex.
  destruct (executeStep E mission step2 w2) as [[result step3] w3].
  cbn [snd] in Hex.
  destruct (_ && _).
  - cbn [outcome_world]. unfold patchMissionStatus.
    by apply confined_patch_mission.
  - by apply IH.
Qed.

Lemma loadPending_rows (mid : Z) (w : World) (r : StepRow) :
  r ∈ loadPendingMissionSteps mid w → r ∈ mission_steps w ∧ missionId r = mid.
Proof.
  unfold loadPendingMissionSteps. rewrite merge_sort_Permutation.
  unfold find_pending. intros Hr.
  by apply list_elem_of_filter in Hr as [[? _] ?].
Qed.

(** X20: one pass of the executing stage of a mission, however it ends,
    changes nothing of other missions: no row is added to or removed from
    the missions and the steps tables, the rows of other missions and
    their steps stay as they are, and every log it appends is a log of
    the mission itself.  Step ids are keys: a step id belongs to one
    mission. *)
Theorem executingStage_isolated (E : Env) (mission : MissionRecord)
    (l : Local) (w : World) :
  (∀ r1 r2, r1 ∈ mission_steps w → r2 ∈ mission_steps w →
            id r1 = id r2 → missionId r1 = missionId r2) →
  let w' := outcome_world (executingStage E mission l w) in
  Forall2 (fun m m' => mission_id m' = mission_id m
                       ∧ (mission_id m ≠ mission_id mission → m' = m))
          (missions w) (missions w')
  ∧ Forall2 (fun r r' => id r' = id r ∧ missionId r' = missionId r
                         ∧ (missionId r ≠ mission_id mission → r' = r))
            (mission_steps w) (mission_steps w')
  ∧ ∃ added, mission_logs w' = mission_logs w ++ added
             ∧ Forall (fun entry => log_missionId entry = mission_id mission)
                      added.
Proof.
  intros Hkeys w'.
  assert (H : confined (mission_id mission)
                (id <$> loadPendingMissionSteps (mission_id mission) w) w w').
  { subst w'. unfold executingStage.
    destruct (loadPendingMissionSteps (mission_id mission) w) as [|p ps] eqn:Hp.
    - cbn [outcome_world]. unfold patchMissionStatus.
      apply confined_patch_mission; [done|apply confined_refl].
    - apply confined_runWave; [done|].
      apply confined_count, confined_clock, confined_refl. }
  destruct H as (Hm & Hs & Hl & _). split; [done|]. split; [|done].
  apply Forall2_same_length_lookup. split; [by eapply Forall2_length|].
  intros i r r' Hr Hr'.
  destruct (Forall2_lookup_lr _ _ _ _ _ _ Hs Hr Hr') as (Hid & Hmi & Heq).
  split; [done|]. split; [done|]. intros Hother. apply Heq. intros Hin.
  apply list_elem_of_fmap in Hin as (p & Hidp & Hp).
  apply loadPending_rows in Hp as [Hp Hmp].
  apply Hother. rewrite <- Hmp. apply Hkeys; [|done|done].
  by eapply list_elem_of_lookup_2.
Qed.

(** [executingStage_isolated] on mission 1 in a store that also holds
    mission 2 and a step of it. *)
Lemma executingStage_isolated_two_missions :
  let w' := outcome_world (executingStage Samples.sampleEnv Samples.mission1
                             Samples.local0 MoreSamples.twoMissionWorld) in
  Forall2 (fun m m' => mission_id m' = mission_id m
                       ∧ (mission_id m ≠ mission_id Samples.mission1 → m' = m))
          (missions MoreSamples.twoMissionWorld) (missions w')
  ∧ Forall2 (fun r r' => id r' = id r ∧ missionId r' = missionId r
                         ∧ (missionId r ≠ mission_id Samples.mission1 → r' = r))
            (mission_steps MoreSamples.twoMissionWorld) (mission_steps w')
  ∧ ∃ added, mission_logs w' = mission_logs MoreSamples.twoMissionWorld ++ added
             ∧ Forall (fun entry => log_missionId entry
                                    = mission_id Samples.mission1) added.
Proof.
  apply (executingStage_isolated Samples.sampleEnv
           Samples.mission1 Samples.local0 MoreSamples.twoMissionWorld).
  intros r1 r2 H1 H2 Hid.
  apply elem_of_cons in H1 as [->|H1]; [|apply elem_of_cons in H1 as [->|H1];
    [|apply list_elem_of_singleton in H1 as ->]];
  (apply elem_of_cons in H2 as [->|H2]; [|apply elem_of_cons in H2 as [->|H2];
    [|apply list_elem_of_singleton in H2 as ->]]);
  first [reflexivity | discriminate Hid].
Defined.

End IsolationFacts.

(* ===================================================================== *)
(** * A step the guard denies *)
(* ===================================================================== *)

Module BlockedFacts.
Import Utils MissionWorker WorkerDefs IsolationDefs WorkerFacts WorkerMore
  IsolationFacts.








End BlockedFacts.

(* ===================================================================== *)
(** * White space around a command *)
(* ===================================================================== *)

Module PaddingFacts.
Import CommandGuard.

Lemma trimStart_spaces (pad s : jsstring) :
  Forall (fun c => is_space c = true) pad → trimStart (pad ++ s) = trimStart s.
Proof.
  induction 1 as [|c pad Hc _ IH]; [done|]. cbn [app trimStart]. by rewrite Hc.
Qed.

Lemma trimEnd_spaces (pad s : jsstring) :
  Forall (fun c => is_space c = true) pad → trimEnd (s ++ pad) = trimEnd s.
Proof.
  intros Hpad. unfold trimEnd. rewrite rev_app_distr, trimStart_spaces; [done|].
  apply Forall_forall. intros c Hc. apply list_elem_of_In, in_rev in Hc.
  apply list_elem_of_In in Hc. by eapply Forall_forall in Hpad.
Qed.

Lemma trimStart_app (s pad : jsstring) :
  Forall (fun c => is_space c = true) pad →
  trimEnd (trimStart (s ++ pad)) = trimEnd (trimStart s).
Proof.
  intros Hpad. induction s as [|c s IH].
  - cbn [app]. rewrite <- (app_nil_r pad) at 1.
    rewrite trimStart_spaces by done. done.
  - cbn [app trimStart]. destruct (is_space c); [exact IH|].
    change (c :: s ++ pad) with ((c :: s) ++ pad). by apply trimEnd_spaces.
Qed.

Lemma trim_padding (before after s : jsstring) :
  Forall (fun c => is_space c = true) before →
  Forall (fun c => is_space c = true) after →
  trim (before ++ s ++ after) = trim s.
Proof.
  intros Hb Ha. unfold trim. rewrite trimStart_spaces by done.
  by apply trimStart_app.
Qed.

(** X21: white space around a command, of any of the kinds [trim]
    strips, changes nothing of the verdict of an enabled guard: the same
    rule, the same reason, the same sanitised command, and the same
    question to the reviewing model. *)
Theorem guardCommand_ignores_padding
    (compile : jsstring → jsstring → option bool)
    (model : jsstring → bool → AiOutcome)
    (cg : option CommandGuardSettings) (before after c : jsstring)
    (bg : bool) :
  r_enabled (resolveGuardSettings cg) = true →
  Forall (fun u => is_space u = true) before →
  Forall (fun u => is_space u = true) after →
  guardCommand compile model cg (before ++ c ++ after) bg
  = guardCommand compile model cg c bg.
Proof.
  intros Hen Hb Ha. unfold guardCommand. rewrite Hen. cbn [negb].
  by rewrite trim_padding.
Qed.

(** [guardCommand_ignores_padding] at [rm -rf /] between blanks, a tab, a
    newline and a no-break space. *)
Lemma guardCommand_ignores_padding_tabs :
  guardCommand Samples.noRegExp Samples.offline None
    (str "  " ++ str "rm -rf /" ++ [9; 10; 160]) false
  = guardCommand Samples.noRegExp Samples.offline None (str "rm -rf /") false.
Proof.
  apply (guardCommand_ignores_padding Samples.noRegExp Samples.offline None
           (str "  ") [9; 10; 160] (str "rm -rf /") false).
  - reflexivity.
  - by repeat constructor.
  - by repeat constructor.
Defined.

End PaddingFacts.

